(** * Keyset pagination over multi-field orderings
    (drf_multifield_cursor/pagination.py)

    A shallow embedding of [MultiFieldCursorMixin] and of the module-level
    helpers [_positive_int] and [_reverse_ordering], together with the
    properties of the cursor codec, the ordering resolution, the boundary
    filter and the page window.

    Conventions of the embedding.
    - A Python [str] is a [string]; its characters are the code units of the
      text, and every function below is exact on ASCII text.  A Python
      [bytes] value is a [string] of octets as well.
    - A Python [int] is a [Z].
    - A raised exception is the [Raise] case of [result]; the statements of
      the source are sequenced with the bind of that monad.
    - A Python [dict] is a [gmap]; a dict whose insertion order is observed
      (the [tokens] of [encode_cursor]) is an association list.
    - The attributes that [paginate_queryset] assigns on [self] are the
      fields of the record [Paginator], threaded through the call. *)

From Stdlib Require Import ZArith NArith Ascii DecimalString DecimalN DecimalPos.
From stdpp Require Import base option strings list gmap.

Local Open Scope string_scope.
Local Open Scope list_scope.
Local Open Scope Z_scope.

(** ** Exceptions and results *)

Inductive exn : Type :=
  | ValueError
  | TypeError
  | KeyError (key : string)
  | IndexError
  | AssertionError (msg : string)
  | AttributeError (name : string)
  | FieldDoesNotExist (name : string)
  | DatabaseError
  | NotFound (detail : string).

Inductive result (A : Type) : Type :=
  | Ok (a : A)
  | Raise (e : exn).

Arguments Ok {A} a.
Arguments Raise {A} e.

Global Instance result_ret : MRet result := fun A a => Ok a.
Global Instance result_bind : MBind result := fun A B f r =>
  match r with
  | Ok a => f a
  | Raise e => Raise e
  end.
Global Instance result_fmap : FMap result := fun A B f r =>
  match r with
  | Ok a => Ok (f a)
  | Raise e => Raise e
  end.

(** [try: ... except (TypeError, ValueError): raise NotFound(msg)] *)
Definition except_type_value {A} (r : result A) (detail : string) : result A :=
  match r with
  | Raise ValueError | Raise TypeError => Raise (NotFound detail)
  | _ => r
  end.

(** ** Python strings *)

Module Str.

(** [x.startswith("-")] *)
Definition startswith_dash (x : string) : bool :=
  match x with
  | String "-" _ => true
  | _ => false
  end.

(** [x[1:]] *)
Definition tail (x : string) : string :=
  match x with
  | String _ t => t
  | "" => ""
  end.

(** [x.lstrip("-")] *)
Fixpoint lstrip_dash (x : string) : string :=
  match x with
  | String "-" t => lstrip_dash t
  | _ => x
  end.

(** [sub in s] for strings: [sub] occurs at some offset of [s]. *)
Fixpoint contains (sub s : string) : bool :=
  String.prefix sub s ||
  match s with
  | "" => false
  | String _ t => contains sub t
  end.

Definition is_ascii_char (c : ascii) : bool :=
  (N_of_ascii c <? 128)%N.

Fixpoint is_ascii (s : string) : bool :=
  match s with
  | "" => true
  | String c t => is_ascii_char c && is_ascii t
  end.

(** [s.encode("ascii")]: [UnicodeEncodeError] is a [ValueError]. *)
Definition encode_ascii (s : string) : result string :=
  if is_ascii s then Ok s else Raise ValueError.

(** [b.decode("ascii")]: [UnicodeDecodeError] is a [ValueError]. *)
Definition decode_ascii (b : string) : result string :=
  if is_ascii b then Ok b else Raise ValueError.

Definition is_digit (c : ascii) : bool :=
  let n := N_of_ascii c in (48 <=? n)%N && (n <=? 57)%N.

(** The characters [int] skips around a literal: tab, line feed, vertical
    tab, form feed, carriage return and space. *)
Definition is_space (c : ascii) : bool :=
  let n := N_of_ascii c in ((9 <=? n)%N && (n <=? 13)%N) || (n =? 32)%N.

Fixpoint lstrip_space (s : string) : string :=
  match s with
  | String c t => if is_space c then lstrip_space t else s
  | "" => ""
  end.

(** Whether only blanks are left. *)
Fixpoint all_space (s : string) : bool :=
  match s with
  | "" => true
  | String c t => is_space c && all_space t
  end.

(** The blanks at the end are dropped: a character is kept when
    something other than blanks follows it or it is no blank itself. *)
Fixpoint rstrip_space (s : string) : string :=
  match s with
  | "" => ""
  | String c t => if all_space s then "" else String c (rstrip_space t)
  end.

(** The blanks on both sides are dropped. *)
Definition strip_space (s : string) : string :=
  rstrip_space (lstrip_space s).

(** The digits of a decimal literal: single underscores are allowed
    between two digits and are dropped. [prev] tells whether the
    previous character was a digit. *)
Fixpoint literal_digits (prev : bool) (s : string) : option string :=
  match s with
  | "" => if prev then Some "" else None
  | String c t =>
      if is_digit c then String c <$> literal_digits true t
      else if decide (c = "_"%char) then
        (if prev then literal_digits false t else None)
      else None
  end.

(** The optional sign of a literal: whether it is [-], and the rest. *)
Definition split_sign (s : string) : bool * string :=
  match s with
  | String "-" t => (true, t)
  | String "+" t => (false, t)
  | _ => (false, s)
  end.

(** [int(s)] for a [str] argument, base ten. The digits read are the
    ASCII ones, and the literal may be of any length. *)
Definition int (s : string) : result Z :=
  let '(neg, s2) := split_sign (strip_space s) in
  match literal_digits false s2 ≫= NilEmpty.uint_of_string with
  | Some u =>
      let n := Z.of_N (N.of_uint u) in
      Ok (if neg : bool then - n else n)
  | None => Raise ValueError
  end.

(** [str(n)] for an [int]. *)
Definition of_int (n : Z) : string :=
  if n <? 0 then String "-" (NilZero.string_of_uint (N.to_uint (Z.to_N (- n))))
  else NilZero.string_of_uint (N.to_uint (Z.to_N n)).

End Str.

(** ** Module-level helpers of pagination.py *)

(** [_positive_int(integer_string, strict=False, cutoff=None)].
    [cutoff] is [None] or an [int]; [if cutoff:] holds for a non-zero
    [int]. *)
Definition _positive_int (integer_string : string) (strict : bool)
    (cutoff : option Z) : result Z :=
  ret ← Str.int integer_string;
  if (ret <? 0) || ((ret =? 0) && strict) then Raise ValueError
  else
    match cutoff with
    | Some c => if c =? 0 then Ok ret else Ok (Z.min ret c)
    | None => Ok ret
    end.

(** The inner function [invert] of [_reverse_ordering]. *)
Definition invert (x : string) : string :=
  if Str.startswith_dash x then Str.tail x else "-" +:+ x.

(** [_reverse_ordering(ordering_tuple)] *)
Definition _reverse_ordering (ordering_tuple : list string) : list string :=
  invert <$> ordering_tuple.

(** ** The [base64] module: [b64encode] and [b64decode]

    [base64.b64encode(b)] is [binascii.b2a_base64(b, newline=False)] and
    [base64.b64decode(b)] with its default [validate=False] is
    [binascii.a2b_base64(b)] in its lenient mode: characters outside the
    alphabet are skipped, a pad character ends the input once it completes
    a quad, and data left in an incomplete quad is an error
    ([binascii.Error], a [ValueError]). *)

Module Base64.

Local Open Scope N_scope.

(** [table_b2a_base64] *)
Definition table_b2a (v : N) : ascii :=
  if v <? 26 then ascii_of_N (v + 65)
  else if v <? 52 then ascii_of_N (v + 71)
  else if v <? 62 then ascii_of_N (v - 4)
  else if v =? 62 then "+"%char
  else "/"%char.

Inductive char_class : Type :=
  | Pad
  | Data (v : N)
  | Skip.

(** The pad test and [table_a2b_base64] of [a2b_base64]. *)
Definition classify (c : ascii) : char_class :=
  let n := N_of_ascii c in
  if n =? 61 then Pad
  else if (65 <=? n) && (n <=? 90) then Data (n - 65)
  else if (97 <=? n) && (n <=? 122) then Data (n - 71)
  else if (48 <=? n) && (n <=? 57) then Data (n + 4)
  else if n =? 43 then Data 62
  else if n =? 47 then Data 63
  else Skip.

Definition pad : ascii := "="%char.

(** [b2a_base64]: three octets give four characters; one or two
    trailing octets give two or three characters and padding. *)
Fixpoint b64encode (b : string) : string :=
  match b with
  | "" => ""
  | String x "" =>
      let x := N_of_ascii x in
      String (table_b2a (N.shiftr x 2))
        (String (table_b2a (N.shiftl (N.land x 3) 4))
          (String pad (String pad "")))
  | String x (String y "") =>
      let x := N_of_ascii x in
      let y := N_of_ascii y in
      String (table_b2a (N.shiftr x 2))
        (String (table_b2a (N.lor (N.shiftl (N.land x 3) 4) (N.shiftr y 4)))
          (String (table_b2a (N.shiftl (N.land y 15) 2))
            (String pad "")))
  | String x (String y (String z t)) =>
      let x := N_of_ascii x in
      let y := N_of_ascii y in
      let z := N_of_ascii z in
      String (table_b2a (N.shiftr x 2))
        (String (table_b2a (N.lor (N.shiftl (N.land x 3) 4) (N.shiftr y 4)))
          (String (table_b2a (N.lor (N.shiftl (N.land y 15) 2) (N.shiftr z 6)))
            (String (table_b2a (N.land z 63)) (b64encode t))))
  end.

(** The loop of [a2b_base64] over the remaining input, in the state
    [quad_pos], [leftchar], [pads]; the octets written to [bin_data]
    are the result. *)
Fixpoint a2b_loop (quad_pos : nat) (leftchar : N) (pads : nat)
    (s : string) : result string :=
  match s with
  | "" =>
      match quad_pos with
      | O => Ok ""
      | _ => Raise ValueError
      end
  | String this_ch t =>
      match classify this_ch with
      | Pad =>
          if (2 <=? quad_pos)%nat then
            if (4 <=? quad_pos + S pads)%nat then Ok ""
            else a2b_loop quad_pos leftchar (S pads) t
          else a2b_loop quad_pos leftchar pads t
      | Skip => a2b_loop quad_pos leftchar pads t
      | Data v =>
          match quad_pos with
          | 0%nat => a2b_loop 1 v 0 t
          | 1%nat =>
              String (ascii_of_N (N.lor (N.shiftl leftchar 2) (N.shiftr v 4)))
                <$> a2b_loop 2 (N.land v 15) 0 t
          | 2%nat =>
              String (ascii_of_N (N.lor (N.shiftl leftchar 4) (N.shiftr v 2)))
                <$> a2b_loop 3 (N.land v 3) 0 t
          | _ =>
              String (ascii_of_N (N.lor (N.shiftl leftchar 6) v))
                <$> a2b_loop 0 0 0 t
          end
      end
  end.

Definition b64decode (s : string) : result string := a2b_loop 0 0 0 s.

End Base64.

(** ** The [urllib.parse] module: [urlencode] and [parse_qs]

    [urlencode(tokens, doseq=True)] quotes every key and every [str] value
    with [quote_plus] and joins the [key=value] items with [&].
    [parse_qs(qs, keep_blank_values=True)] splits on [&], skips empty
    items, splits each item at its first [=], turns [+] into a space,
    unquotes, and collects the values of every name in order.  [unquote]
    decodes the percent escapes; its decoding of the resulting octets as
    UTF-8 with replacement leaves well-formed text unchanged and is not
    modelled. *)

Module Urllib.

Local Open Scope N_scope.

(** [_ALWAYS_SAFE]: letters, digits and [_.-~]. *)
Definition always_safe (c : ascii) : bool :=
  let n := N_of_ascii c in
  ((65 <=? n) && (n <=? 90)) || ((97 <=? n) && (n <=? 122))
  || ((48 <=? n) && (n <=? 57))
  || (n =? 95) || (n =? 46) || (n =? 45) || (n =? 126).

(** One digit of ['%{:02X}']. *)
Definition hex_digit (v : N) : ascii :=
  if v <? 10 then ascii_of_N (v + 48) else ascii_of_N (v + 55).

(** The value of a hexadecimal digit of either case, as the keys of
    [_hextobyte] have them. *)
Definition hex_value (c : ascii) : option N :=
  let n := N_of_ascii c in
  if (48 <=? n) && (n <=? 57) then Some (n - 48)
  else if (65 <=? n) && (n <=? 70) then Some (n - 55)
  else if (97 <=? n) && (n <=? 102) then Some (n - 87)
  else None.

(** [quote_plus(s)] with the default [safe='']. *)
Fixpoint quote_plus (s : string) : string :=
  match s with
  | "" => ""
  | String c t =>
      if always_safe c then String c (quote_plus t)
      else if decide (c = " "%char) then String "+" (quote_plus t)
      else
        let n := N_of_ascii c in
        String "%" (String (hex_digit (N.shiftr n 4))
          (String (hex_digit (N.land n 15)) (quote_plus t)))
  end.

(** ['&'.join(l)] *)
Fixpoint join_amp (l : list string) : string :=
  match l with
  | [] => ""
  | [x] => x
  | x :: r => x +:+ String "&" (join_amp r)
  end.

(** [urlencode(query, doseq=True)] for a dict of [str] keys and [str]
    values, given in insertion order. *)
Definition urlencode (query : list (string * string)) : string :=
  join_amp ((λ kv, quote_plus kv.1 +:+ String "=" (quote_plus kv.2)) <$> query).

(** [s.split(sep)] *)
Fixpoint split_on (sep : ascii) (s : string) : list string :=
  match s with
  | "" => [""]
  | String c t =>
      if decide (c = sep) then "" :: split_on sep t
      else
        match split_on sep t with
        | h :: r => String c h :: r
        | [] => [String c ""]
        end
  end.

(** [s.split('=', 1)]: the text before the first [=], and the text after
    it when there is one. *)
Fixpoint split_eq (s : string) : string * option string :=
  match s with
  | "" => ("", None)
  | String c t =>
      if decide (c = "="%char) then ("", Some t)
      else let '(n, v) := split_eq t in (String c n, v)
  end.

(** [s.replace('+', ' ')] *)
Fixpoint plus_to_space (s : string) : string :=
  match s with
  | "" => ""
  | String c t =>
      String (if decide (c = "+"%char) then " "%char else c) (plus_to_space t)
  end.

(** [unquote(s)]: a [%] followed by two hexadecimal digits is the octet
    they denote; any other [%] stays. *)
Fixpoint unquote (s : string) : string :=
  match s with
  | "" => ""
  | String c t =>
      if decide (c = "%"%char) then
        match t with
        | String h (String l t2) =>
            match hex_value h, hex_value l with
            | Some vh, Some vl => String (ascii_of_N (16 * vh + vl)) (unquote t2)
            | _, _ => String c (unquote t)
            end
        | _ => String c (unquote t)
        end
      else String c (unquote t)
  end.

(** [parse_qsl(qs, keep_blank_values=True)] *)
Definition parse_qsl (qs : string) : list (string * string) :=
  omap (λ name_value : string,
          if decide (name_value = "") then None
          else
            let '(n, v) := split_eq name_value in
            Some (unquote (plus_to_space n),
                  unquote (plus_to_space (default "" v))))
       (split_on "&" qs).

(** [parse_qs(qs, keep_blank_values=True)]: the values of each name, in
    order of appearance. *)
Definition parse_qs (qs : string) : gmap string (list string) :=
  foldl (λ (parsed_result : gmap string (list string)) nv,
           partial_alter (λ o, Some (default [] o ++ [nv.2])) nv.1 parsed_result)
        ∅ (parse_qsl qs).

End Urllib.

(** ** JSON and the data source *)

(** A value of [json.loads]; the numbers are the integers. *)
#[local] Set Warnings "-register-all".
Inductive json : Type :=
  | JNull
  | JBool (b : bool)
  | JNum (n : Z)
  | JStr (s : string)
  | JList (l : list json)
  | JObj (items : list (string * json)).

(** [rest_framework.utils.json]: [loads] raises a [ValueError] on text that
    is not JSON; [dumps] is applied to lists of [str] only. *)
Class JsonLib : Type := {
  json_loads : string → result json;
  json_dumps : list string → string
}.

(** The characters of a [str], as iterating over it yields them. *)
Fixpoint chars (s : string) : list string :=
  match s with
  | "" => []
  | String c t => String c "" :: chars t
  end.

(** What iterating over a decoded JSON value yields ([zip] iterates over
    its arguments): the items of a list, the characters of a string, the
    keys of an object; other values are not iterable. *)
Definition json_iter (j : json) : result (list json) :=
  match j with
  | JList l => Ok l
  | JStr s => Ok (JStr <$> chars s)
  | JObj items => Ok ((λ kv, JStr kv.1) <$> items)
  | _ => Raise TypeError
  end.

(** The data source behind a queryset: the rows of a model, the values of
    their fields, and how the store evaluates a keyword lookup
    ([name], [name__lt], [name__gt]) against a row and orders rows. *)
Class Store : Type := {
  row : Type;
  value : Type;
  (** [instance[field_name]] or [getattr(instance, field_name)] *)
  getattr : row → string → option value;
  (** [str(attr)] *)
  str : value → string;
  (** whether [queryset.model._meta.get_field(name)] finds a field *)
  has_field : string → bool;
  (** [queryset.model._meta.pk.name] *)
  pk_name : string;
  (** a row satisfies the [Q] object of the keyword [key=v] *)
  holds : row → string → json → bool;
  (** the rows in the order of [ORDER BY ordering] *)
  order_rows : list string → list row → list row
}.

(** A Django [Q] object built from single keyword lookups with [&] and
    [|]. *)
Inductive Q : Type :=
  | Lookup (key : string) (v : json)
  | QAnd (a b : Q)
  | QOr (a b : Q).

(** [Cast(Value(val), output_field=model_field)]; the field is named. *)
Inductive cast : Type :=
  | Cast (val : json) (model_field : string).

(** An argument of [queryset.filter]: a [Q] object, or the keyword
    [_cursor_tuple__gt=rhs] ([gt] true) or [_cursor_tuple__lt=rhs]. *)
Inductive filter_arg : Type :=
  | FilterQ (q : Q)
  | FilterTuple (gt : bool) (rhs : list cast).

(** ** Cursor, paginator, request *)

(** [Cursor = namedtuple("Cursor", ["offset", "reverse", "position"])] *)
Record Cursor : Type := mkCursor {
  offset : Z;
  reverse : bool;
  position : option string
}.

(** The value of an [ordering] attribute: [None], a [str], a [list] or a
    [tuple] of [str]. *)
Inductive ordering_value : Type :=
  | ONone
  | OStr (s : string)
  | OList (l : list string)
  | OTuple (l : list string).

(** A filter backend of the view: it has a [get_ordering] method or not,
    and the method returns an ordering value. *)
Record FilterBackend : Type := {
  fb_get_ordering : option ordering_value
}.

(** The view: its [filter_backends] attribute when it has one. *)
Record View : Type := {
  filter_backends : option (list FilterBackend)
}.

(** A URL is represented by its query parameters. *)
Definition Url : Type := gmap string string.

Record Request : Type := {
  query_params : gmap string string
}.

(** [request.build_absolute_uri()] *)
Definition build_absolute_uri (request : Request) : Url :=
  query_params request.

(** [rest_framework.utils.urls.replace_query_param(url, key, val)] *)
Definition replace_query_param (url : Url) (key val : string) : Url :=
  <[key := val]> url.

(** ** Python sequences *)

(** [d[key]] on a dict *)
Definition getitem {A} (d : gmap string A) (key : string) : result A :=
  match d !! key with
  | Some a => Ok a
  | None => Raise (KeyError key)
  end.

(** [l[0]] *)
Definition index0 {A} (l : list A) : result A :=
  match l with
  | a :: _ => Ok a
  | [] => Raise IndexError
  end.

(** [l[-1]], also the value of [l.pop()] *)
Definition index_last {A} (l : list A) : result A :=
  match last l with
  | Some a => Ok a
  | None => Raise IndexError
  end.

(** [l[:n]] *)
Definition slice_to {A} (n : Z) (l : list A) : list A :=
  if n <? 0 then take (length l - Z.to_nat (- n)) l else take (Z.to_nat n) l.

(** [functools.reduce(f, l)] without an initial value *)
Definition reduce {A} (f : A → A → A) (l : list A) : result A :=
  match l with
  | [] => Raise TypeError
  | a :: r => Ok (foldl f a r)
  end.

(** ** Querysets *)

Section queryset.
Context `{Store}.

(** A condition of the [WHERE] clause: a [Q] object, or the row
    comparison of [_cursor_tuple__gt] or [_cursor_tuple__lt], whose left
    side is the alias as it was when the filter was added ([None] when it
    was not set). *)
Inductive where_node : Type :=
  | WhereQ (q : Q)
  | WhereRow (gt : bool) (lhs : option (list string)) (rhs : list cast).

(** A lazy queryset over the rows of the model: its [order_by] fields,
    the alias [_cursor_tuple] when [alias] set it, and the conditions its
    [filter] calls added. *)
Record QuerySet : Type := mkQuerySet {
  qs_rows : list row;
  qs_order : list string;
  qs_cursor_tuple : option (list string);
  qs_where : list where_node
}.

(** [queryset.order_by( *ordering)] *)
Definition order_by (queryset : QuerySet) (ordering : list string) : QuerySet :=
  mkQuerySet (qs_rows queryset) ordering
    (qs_cursor_tuple queryset) (qs_where queryset).

(** [queryset.alias(_cursor_tuple=Func( *[F(f) for f in field_names], ...))] *)
Definition alias_cursor_tuple (queryset : QuerySet)
    (field_names : list string) : QuerySet :=
  mkQuerySet (qs_rows queryset) (qs_order queryset)
    (Some field_names) (qs_where queryset).

(** [queryset.filter(arg)]: the keyword [_cursor_tuple] is resolved to the
    alias when the filter is added. *)
Definition filter_qs (queryset : QuerySet) (arg : filter_arg) : QuerySet :=
  mkQuerySet (qs_rows queryset) (qs_order queryset)
    (qs_cursor_tuple queryset)
    (qs_where queryset ++
       [match arg with
        | FilterQ q => WhereQ q
        | FilterTuple gt rhs => WhereRow gt (qs_cursor_tuple queryset) rhs
        end]).

Definition field_eq (r : row) (f : string) (v : json) : bool := holds r f v.
Definition field_lt (r : row) (f : string) (v : json) : bool :=
  holds r (f +:+ "__lt") v.
Definition field_gt (r : row) (f : string) (v : json) : bool :=
  holds r (f +:+ "__gt") v.

Fixpoint eval_Q (r : row) (q : Q) : bool :=
  match q with
  | Lookup key v => holds r key v
  | QAnd a b => eval_Q r a && eval_Q r b
  | QOr a b => eval_Q r a || eval_Q r b
  end.

(** Modelled from the spec: the store's row-value comparison
    [(f1, ..., fn) > (v1, ..., vn)] of section 4.3, which the source
    leaves to the database.  It is the lexicographic comparison over the
    per-field comparisons, each value being cast to the type of the
    field it is compared with. *)
Fixpoint row_value_compare (gt : bool) (r : row) (lhs : list string)
    (rhs : list cast) : bool :=
  match lhs, rhs with
  | f :: lhs', Cast v _ :: rhs' =>
      (if gt then field_gt r f v else field_lt r f v)
      || (field_eq r f v && row_value_compare gt r lhs' rhs')
  | _, _ => false
  end.

Definition eval_where (r : row) (w : where_node) : bool :=
  match w with
  | WhereQ q => eval_Q r q
  | WhereRow gt lhs rhs => row_value_compare gt r (default [] lhs) rhs
  end.

(** A row comparison is well formed when its left side is set and both
    sides have as many entries, and at least one. *)
Definition where_well_formed (w : where_node) : bool :=
  match w with
  | WhereQ _ => true
  | WhereRow _ (Some lhs) rhs => bool_decide (length lhs = length rhs ∧ lhs ≠ [])
  | WhereRow _ None _ => false
  end.

(** The ordered, filtered scan of the queryset. *)
Definition scan (queryset : QuerySet) : list row :=
  order_rows (qs_order queryset)
    (List.filter (λ r, forallb (eval_where r) (qs_where queryset))
       (qs_rows queryset)).

(** [list(queryset[start:stop])]: negative bounds are refused; a
    malformed row comparison is an error of the database. *)
Definition slice_qs (queryset : QuerySet) (start stop : Z) : result (list row) :=
  if (start <? 0) || (stop <? 0) then Raise ValueError
  else if negb (forallb where_well_formed (qs_where queryset))
  then Raise DatabaseError
  else Ok (take (Z.to_nat stop - Z.to_nat start) (drop (Z.to_nat start) (scan queryset))).

End queryset.

(** ** MultiFieldCursorMixin *)

Section mixin.
Context `{Store} `{JsonLib}.

(** The attributes of the paginator: the configuration declared on the
    class, then the attributes [paginate_queryset] assigns.  An attribute
    not assigned yet is [None]. *)
Record Paginator : Type := mkPaginator {
  ordering : ordering_value;
  page_size : option Z;
  offset_cutoff : option Z;
  use_tuple_comparison : bool;
  cursor_query_param : string;
  invalid_cursor_message : string;
  template : option string;
  display_page_controls : bool;
  base_url : Url;
  cursor : option Cursor;
  page : list row;
  has_next : option bool;
  has_previous : option bool;
  next_position : option (option string);
  previous_position : option (option string)
}.

Definition set_page_size (self : Paginator) (v : option Z) : Paginator :=
  mkPaginator (ordering self) v (offset_cutoff self)
    (use_tuple_comparison self) (cursor_query_param self)
    (invalid_cursor_message self) (template self)
    (display_page_controls self) (base_url self) (cursor self) (page self)
    (has_next self) (has_previous self) (next_position self)
    (previous_position self).

Definition set_base_url (self : Paginator) (v : Url) : Paginator :=
  mkPaginator (ordering self) (page_size self) (offset_cutoff self)
    (use_tuple_comparison self) (cursor_query_param self)
    (invalid_cursor_message self) (template self)
    (display_page_controls self) v (cursor self) (page self)
    (has_next self) (has_previous self) (next_position self)
    (previous_position self).

Definition set_ordering (self : Paginator) (v : ordering_value) : Paginator :=
  mkPaginator v (page_size self) (offset_cutoff self)
    (use_tuple_comparison self) (cursor_query_param self)
    (invalid_cursor_message self) (template self)
    (display_page_controls self) (base_url self) (cursor self) (page self)
    (has_next self) (has_previous self) (next_position self)
    (previous_position self).

Definition set_cursor (self : Paginator) (v : option Cursor) : Paginator :=
  mkPaginator (ordering self) (page_size self) (offset_cutoff self)
    (use_tuple_comparison self) (cursor_query_param self)
    (invalid_cursor_message self) (template self)
    (display_page_controls self) (base_url self) v (page self)
    (has_next self) (has_previous self) (next_position self)
    (previous_position self).

Definition set_page (self : Paginator) (v : list row) : Paginator :=
  mkPaginator (ordering self) (page_size self) (offset_cutoff self)
    (use_tuple_comparison self) (cursor_query_param self)
    (invalid_cursor_message self) (template self)
    (display_page_controls self) (base_url self) (cursor self) v
    (has_next self) (has_previous self) (next_position self)
    (previous_position self).

Definition set_has_next (self : Paginator) (v : bool) : Paginator :=
  mkPaginator (ordering self) (page_size self) (offset_cutoff self)
    (use_tuple_comparison self) (cursor_query_param self)
    (invalid_cursor_message self) (template self)
    (display_page_controls self) (base_url self) (cursor self) (page self)
    (Some v) (has_previous self) (next_position self)
    (previous_position self).

Definition set_has_previous (self : Paginator) (v : bool) : Paginator :=
  mkPaginator (ordering self) (page_size self) (offset_cutoff self)
    (use_tuple_comparison self) (cursor_query_param self)
    (invalid_cursor_message self) (template self)
    (display_page_controls self) (base_url self) (cursor self) (page self)
    (has_next self) (Some v) (next_position self)
    (previous_position self).

Definition set_next_position (self : Paginator) (v : option string) : Paginator :=
  mkPaginator (ordering self) (page_size self) (offset_cutoff self)
    (use_tuple_comparison self) (cursor_query_param self)
    (invalid_cursor_message self) (template self)
    (display_page_controls self) (base_url self) (cursor self) (page self)
    (has_next self) (has_previous self) (Some v)
    (previous_position self).

Definition set_previous_position (self : Paginator) (v : option string) : Paginator :=
  mkPaginator (ordering self) (page_size self) (offset_cutoff self)
    (use_tuple_comparison self) (cursor_query_param self)
    (invalid_cursor_message self) (template self)
    (display_page_controls self) (base_url self) (cursor self) (page self)
    (has_next self) (has_previous self) (next_position self)
    (Some v).

Definition set_display_page_controls (self : Paginator) (v : bool) : Paginator :=
  mkPaginator (ordering self) (page_size self) (offset_cutoff self)
    (use_tuple_comparison self) (cursor_query_param self)
    (invalid_cursor_message self) (template self)
    v (base_url self) (cursor self) (page self)
    (has_next self) (has_previous self) (next_position self)
    (previous_position self).

(** [get_page_size] is inherited from [CursorPagination]; with no
    [page_size_query_param] configured it returns [self.page_size]. *)
Definition get_page_size (self : Paginator) (request : Request) : option Z :=
  page_size self.

(** [assert cond, msg] *)
Definition assert (cond : bool) (msg : string) : result unit :=
  if cond then Ok () else Raise (AssertionError msg).

(** ["__" not in ordering]: a substring test on a [str], a membership
    test on a [list] or [tuple]. *)
Definition dunder_not_in (ordering : ordering_value) : bool :=
  match ordering with
  | ONone => true
  | OStr s => negb (Str.contains "__" s)
  | OList l | OTuple l => negb (bool_decide ("__" ∈ l))
  end.

(** [ordering is not None]; on the four kinds of value an ordering has
    here it is also [isinstance(ordering, (str, list, tuple))]. *)
Definition is_not_None (ordering : ordering_value) : bool :=
  match ordering with
  | ONone => false
  | _ => true
  end.

(** [get_ordering(self, request, queryset, view)] *)
Definition get_ordering (self : Paginator) (request : Request)
    (queryset : QuerySet) (view : option View) : result (list string) :=
  let ordering_filters :=
    List.filter (λ filter_cls, bool_decide (is_Some (fb_get_ordering filter_cls)))
      (default [] (view ≫= filter_backends)) in
  ordering ←
    match ordering_filters with
    | filter_cls :: _ =>
        let ordering := default ONone (fb_get_ordering filter_cls) in
        _ ← assert (is_not_None ordering)
              "Using cursor pagination, but filter class returned a `None` ordering.";
        Ok ordering
    | [] =>
        let ordering := ordering self in
        _ ← assert (is_not_None ordering)
              "Using cursor pagination, but no ordering attribute was declared on the pagination class.";
        _ ← assert (dunder_not_in ordering)
              "Cursor pagination does not support double underscore lookups for orderings.";
        Ok ordering
    end;
  _ ← assert (is_not_None ordering) "Invalid ordering. Expected string or tuple";
  let ordering :=
    match ordering with
    | OStr s => [s]
    | OList l | OTuple l => l
    | ONone => []
    end in
  let pk_name := pk_name in
  let ordering :=
    if bool_decide (({[ "-" +:+ pk_name; pk_name; "pk"; "-pk" ]} : gset string)
                      ∩ list_to_set ordering = ∅)
    then ordering ++ [pk_name]
    else ordering in
  Ok ordering.

(** [decode_cursor(self, request)] *)
Definition decode_cursor (self : Paginator) (request : Request)
    : result (option Cursor) :=
  match query_params request !! cursor_query_param self with
  | None => Ok None
  | Some encoded =>
      fmap (M:=result) Some
        (except_type_value
            (bytes ← Str.encode_ascii encoded;
             decoded ← Base64.b64decode bytes;
             querystring ← Str.decode_ascii decoded;
             let tokens := Urllib.parse_qs querystring in
             offset ← index0 (default ["0"] (tokens !! "o"));
             offset ← _positive_int offset false (offset_cutoff self);
             reverse ← index0 (default ["0"] (tokens !! "r"));
             reverse ← Str.int reverse;
             let reverse := negb (reverse =? 0) in
             position ← index0 (default [None] (fmap (M:=list) Some <$> tokens !! "p"));
             Ok (mkCursor offset reverse position))
            (invalid_cursor_message self))
  end.

(** [encode_cursor(self, cursor)] *)
Definition encode_cursor (self : Paginator) (cursor : Cursor) : result Url :=
  let tokens : list (string * string) := [] in
  let tokens :=
    if offset cursor =? 0 then tokens
    else tokens ++ [("o", Str.of_int (offset cursor))] in
  let tokens := if reverse cursor then tokens ++ [("r", "1")] else tokens in
  let tokens :=
    match position cursor with
    | Some p => tokens ++ [("p", p)]
    | None => tokens
    end in
  let querystring := Urllib.urlencode tokens in
  bytes ← Str.encode_ascii querystring;
  encoded ← Str.decode_ascii (Base64.b64encode bytes);
  Ok (replace_query_param (base_url self) (cursor_query_param self) encoded).

(** [_get_position_from_instance(self, instance, ordering)] *)
Definition _get_position_from_instance (self : Paginator) (instance : row)
    (ordering : list string) : result string :=
  fields ← mapM (λ o,
              let field_name := Str.lstrip_dash o in
              match getattr instance field_name with
              | Some attr => Ok (str attr)
              | None => Raise (AttributeError field_name)
              end) ordering;
  Ok (json_dumps fields).

(** The specifiers the methods below iterate over when they read
    [self.ordering]; [paginate_queryset] assigns the tuple of
    [get_ordering] to it before it calls them. *)
Definition ordering_tuple (self : Paginator) : list string :=
  match ordering self with
  | OStr s => chars s
  | OList l | OTuple l => l
  | ONone => []
  end.

Definition _all_ascending (self : Paginator) : bool :=
  let directions := Str.startswith_dash <$> ordering_tuple self in
  negb (existsb id directions).

Definition _all_descending (self : Paginator) : bool :=
  let directions := Str.startswith_dash <$> ordering_tuple self in
  forallb id directions.

Definition _uniform_ordering (self : Paginator) : bool :=
  _all_ascending self || _all_descending self.

Definition should_use_tuple_comparison (self : Paginator) : bool :=
  if negb (use_tuple_comparison self) then false
  else if negb (_uniform_ordering self) then false
  else true.

End mixin.

Section paginate.
Context `{Store} `{JsonLib}.

(** [self.cursor.reverse] *)
Definition cursor_reverse (self : Paginator) : result bool :=
  match cursor self with
  | Some c => Ok (reverse c)
  | None => Raise (AttributeError "reverse")
  end.

(** The first loop of the disjunctive branch: the dicts
    [q_objects_equals] and [q_objects_compare], keyed by the ordering
    specifiers. *)
Definition q_objects (ordering : list string) (cursor_reverse : bool)
    (current_position_list : list json) : gmap string Q * gmap string Q :=
  foldl (λ (d : gmap string Q * gmap string Q) (op : string * json),
           let '(q_objects_equals, q_objects_compare) := d in
           let '(order, position) := op in
           let is_reversed := Str.startswith_dash order in
           let order_attr := Str.lstrip_dash order in
           (<[order := Lookup order_attr position]> q_objects_equals,
            <[order := if xorb cursor_reverse is_reversed
                      then Lookup (order_attr +:+ "__lt") position
                      else Lookup (order_attr +:+ "__gt") position]>
              q_objects_compare))
        (∅, ∅) (zip ordering current_position_list).

(** One iteration of the second loop: the conjunction appended to
    [filter_list] for the index [i]. *)
Definition sub_filter (ordering : list string)
    (q_objects_equals q_objects_compare : gmap string Q) (i : nat) : result Q :=
  let equals := take (i + 2) ordering in
  popped ← index_last equals;
  let equals := removelast equals in
  greater_than_q ← getitem q_objects_compare popped;
  sub_filters ← mapM (getitem q_objects_equals) equals;
  reduce QAnd (sub_filters ++ [greater_than_q]).

(** The disjunctive branch of [paginate_queryset]: the [q_object] it
    filters by. *)
Definition disjunctive_q_object (self : Paginator)
    (current_position_list : json) : result Q :=
  let ordering := ordering_tuple self in
  positions ← json_iter current_position_list;
  cursor_reverse ← cursor_reverse self;
  let '(q_objects_equals, q_objects_compare) :=
    q_objects ordering cursor_reverse positions in
  first ← index0 ordering;
  first_q ← getitem q_objects_compare first;
  rest ← mapM (sub_filter ordering q_objects_equals q_objects_compare)
         (seq 0 (length ordering));
  reduce QOr (first_q :: rest).

(** The tuple-comparison branch of [paginate_queryset]. *)
Definition tuple_comparison (self : Paginator) (queryset : QuerySet)
    (current_position_list : json) : result QuerySet :=
  let field_names := Str.lstrip_dash <$> ordering_tuple self in
  let lhs := field_names in
  positions ← json_iter current_position_list;
  cleaned_values ←
    mapM (λ vf : json * string,
            let '(val, field_name) := vf in
            if has_field field_name then Ok (Cast val field_name)
            else Raise (FieldDoesNotExist field_name))
         (zip positions field_names);
  let rhs := cleaned_values in
  cursor_reverse ← cursor_reverse self;
  let is_moving_forward := negb cursor_reverse in
  let should_use_gt :=
    (_all_ascending self && is_moving_forward)
    || (_all_descending self && negb is_moving_forward) in
  let queryset := alias_cursor_tuple queryset lhs in
  Ok (filter_qs queryset (FilterTuple should_use_gt rhs)).

(** The body of [if current_position is not None:]. *)
Definition filter_by_position (self : Paginator) (queryset : QuerySet)
    (current_position : string) : result QuerySet :=
  current_position_list ← json_loads current_position;
  if should_use_tuple_comparison self then
    tuple_comparison self queryset current_position_list
  else
    q_object ← disjunctive_q_object self current_position_list;
    Ok (filter_qs queryset (FilterQ q_object)).

(** The truth of an attribute holding a [bool]. *)
Definition attr_true (a : option bool) : bool :=
  match a with
  | Some true => true
  | _ => false
  end.

(** The unpacking of [self.cursor] into [offset], [reverse] and
    [current_position], with the defaults of a request without cursor. *)
Definition cursor_fields (c : option Cursor) : Z * bool * option string :=
  match c with
  | None => (0, false, None)
  | Some c => (offset c, reverse c, position c)
  end.

(** The first part of [paginate_queryset], from the assignment of
    [base_url] to the filter by the position: the paginator with
    [base_url], [ordering] and [cursor] assigned, and the ordered and
    filtered queryset. *)
Definition order_and_filter (self : Paginator) (queryset : QuerySet)
    (request : Request) (view : option View) : result (Paginator * QuerySet) :=
  let self := set_base_url self (build_absolute_uri request) in
  resolved ← get_ordering self request queryset view;
  let self := set_ordering self (OTuple resolved) in
  decoded ← decode_cursor self request;
  let self := set_cursor self decoded in
  let '(offset, reverse, current_position) := cursor_fields (cursor self) in
  let queryset :=
    if reverse then order_by queryset (_reverse_ordering (ordering_tuple self))
    else order_by queryset (ordering_tuple self) in
  queryset ←
    match current_position with
    | Some p => filter_by_position self queryset p
    | None => Ok queryset
    end;
  Ok (self, queryset).

(** The second part of [paginate_queryset], from the slice of the
    queryset to the returned page. *)
Definition fetch_page (self : Paginator) (queryset : QuerySet)
    : result (Paginator * option (list row)) :=
  let '(offset, reverse, current_position) := cursor_fields (cursor self) in
  let the_page_size := default 0 (page_size self) in
  results ← slice_qs queryset offset (offset + the_page_size + 1);
  let self := set_page self (slice_to the_page_size results) in
  following ←
    (if bool_decide (length (page self) < length results)%nat then
       instance ← index_last results;
       following_position ←
         _get_position_from_instance self instance (ordering_tuple self);
       Ok (true, Some following_position)
     else Ok (false, None));
  let '(has_following_position, following_position) := following in
  let self :=
    if reverse then
      let self := set_page self (rev (page self)) in
      let self :=
        set_has_next self
          (bool_decide (current_position ≠ None) || (0 <? offset)) in
      let self := set_has_previous self has_following_position in
      let self :=
        if attr_true (has_next self)
        then set_next_position self current_position else self in
      if attr_true (has_previous self)
      then set_previous_position self following_position else self
    else
      let self := set_has_next self has_following_position in
      let self :=
        set_has_previous self
          (bool_decide (current_position ≠ None) || (0 <? offset)) in
      let self :=
        if attr_true (has_next self)
        then set_next_position self following_position else self in
      if attr_true (has_previous self)
      then set_previous_position self current_position else self in
  let self :=
    if (attr_true (has_previous self) || attr_true (has_next self))
       && bool_decide (template self ≠ None)
    then set_display_page_controls self true else self in
  Ok (self, Some (page self)).

(** [paginate_queryset(self, queryset, request, view=None)]: the
    paginator after the call and the returned value, [None] or the
    page. *)
Definition paginate_queryset (self : Paginator) (queryset : QuerySet)
    (request : Request) (view : option View)
    : result (Paginator * option (list row)) :=
  let self := set_page_size self (get_page_size self request) in
  match page_size self with
  | None => Ok (self, None)
  | Some the_page_size =>
      if the_page_size =? 0 then Ok (self, None) else
      prepared ← order_and_filter self queryset request view;
      fetch_page prepared.1 prepared.2
  end.

End paginate.

(** ** A concrete data source: the model of the test suite

    [tests/models.py] declares [ExamplePaginationModel] with the integer
    fields [id] (the primary key), [field] and [timestamp]. *)

Module Example.

Record ExamplePaginationModel : Type := mkRow {
  id : Z;
  field : Z;
  timestamp : Z
}.

Definition row_getattr (r : ExamplePaginationModel) (name : string) : option Z :=
  if decide (name = "id") then Some (id r)
  else if decide (name = "pk") then Some (id r)
  else if decide (name = "field") then Some (field r)
  else if decide (name = "timestamp") then Some (timestamp r)
  else None.

Definition row_has_field (name : string) : bool :=
  bool_decide (name ∈ ["id"; "field"; "timestamp"]).

(** [s] without the suffix [suf], when it ends with it. *)
Fixpoint strip_suffix (suf s : string) : option string :=
  if decide (s = suf) then Some ""
  else
    match s with
    | "" => None
    | String c t => String c <$> strip_suffix suf t
    end.

(** The integer a lookup value is coerced to: a number, or a string
    that [int] reads. *)
Definition to_python (v : json) : option Z :=
  match v with
  | JNum n => Some n
  | JStr s => match Str.int s with Ok n => Some n | Raise _ => None end
  | _ => None
  end.

Definition row_holds (r : ExamplePaginationModel) (key : string) (v : json) : bool :=
  match to_python v with
  | None => false
  | Some n =>
      match strip_suffix "__lt" key, strip_suffix "__gt" key with
      | Some f, _ => if row_getattr r f is Some x then x <? n else false
      | None, Some f => if row_getattr r f is Some x then n <? x else false
      | None, None => if row_getattr r key is Some x then x =? n else false
      end
  end.

(** [r1] comes before [r2], or ties with it, under the ordering. *)
Fixpoint row_leb (ordering : list string) (r1 r2 : ExamplePaginationModel) : bool :=
  match ordering with
  | [] => true
  | o :: rest =>
      let f := Str.lstrip_dash o in
      match row_getattr r1 f, row_getattr r2 f with
      | Some x, Some y =>
          if x =? y then row_leb rest r1 r2
          else if Str.startswith_dash o then y <? x else x <? y
      | _, _ => row_leb rest r1 r2
      end
  end.

Fixpoint insert_row (ordering : list string) (r : ExamplePaginationModel)
    (l : list ExamplePaginationModel) : list ExamplePaginationModel :=
  match l with
  | [] => [r]
  | x :: l' =>
      if row_leb ordering r x then r :: l
      else x :: insert_row ordering r l'
  end.

Definition sort_rows (ordering : list string)
    (l : list ExamplePaginationModel) : list ExamplePaginationModel :=
  foldr (insert_row ordering) [] l.

Global Instance store : Store := {|
  row := ExamplePaginationModel;
  value := Z;
  getattr := row_getattr;
  str := Str.of_int;
  has_field := row_has_field;
  pk_name := "id";
  holds := row_holds;
  order_rows := sort_rows
|}.

(** The double quote. *)
Definition dquote : ascii := "034"%char.

(** [', '.join(l)] *)
Fixpoint join_comma (l : list string) : string :=
  match l with
  | [] => ""
  | [x] => x
  | x :: r => x +:+ ", " +:+ join_comma r
  end.

(** [json.dumps] of a list of strings that need no escape. *)
Definition dumps (l : list string) : string :=
  "[" +:+ join_comma ((λ s, String dquote (s +:+ String dquote "")) <$> l) +:+ "]".

Inductive reader_state : Type :=
  | BeforeItem (first : bool)
  | InString (acc : string)
  | AfterItem
  | AtEnd.

(** The reader of the arrays of plain string literals: the items read so
    far are [items], in order. *)
Fixpoint read_items (st : reader_state) (items : list string) (s : string)
    : option (list string) :=
  match s with
  | "" => if st is AtEnd then Some items else None
  | String c t =>
      match st with
      | BeforeItem first =>
          if decide (c = dquote) then read_items (InString "") items t
          else if decide (c = " "%char) then read_items st items t
          else if decide (c = "]"%char) then
            (if first then read_items AtEnd items t else None)
          else None
      | InString acc =>
          if decide (c = dquote) then read_items AfterItem (items ++ [acc]) t
          else read_items (InString (acc +:+ String c "")) items t
      | AfterItem =>
          if decide (c = ","%char) then read_items (BeforeItem false) items t
          else if decide (c = " "%char) then read_items st items t
          else if decide (c = "]"%char) then read_items AtEnd items t
          else None
      | AtEnd => if decide (c = " "%char) then read_items st items t else None
      end
  end.

(** [json.loads] on arrays of plain string literals; other text is
    refused. *)
Definition loads (s : string) : result json :=
  match s with
  | String "[" t =>
      match read_items (BeforeItem true) [] t with
      | Some items => Ok (JList (JStr <$> items))
      | None => Raise ValueError
      end
  | _ => Raise ValueError
  end.

Global Instance jsonlib : JsonLib := {|
  json_loads := loads;
  json_dumps := dumps
|}.

(** The fixture of the windowing scenario: five rows with the keys 1 to
    5. *)
Definition fixture : list ExamplePaginationModel :=
  [mkRow 3 30 7; mkRow 1 10 9; mkRow 5 10 8; mkRow 2 20 9; mkRow 4 20 6].

Definition all_rows : QuerySet := mkQuerySet fixture [] None [].

(** A paginator class with the given [ordering] and [page_size], and the
    defaults of [CursorPagination]. *)
Definition paginator (ordering : ordering_value) (page_size : Z) : Paginator :=
  mkPaginator ordering (Some page_size) (Some 1000) false "cursor"
    "Invalid cursor" None false ∅ None [] None None None None.

(** The same class with another [offset_cutoff]. *)
Definition paginator_cutoff (ordering : ordering_value) (page_size : Z)
    (offset_cutoff : option Z) : Paginator :=
  mkPaginator ordering (Some page_size) offset_cutoff false "cursor"
    "Invalid cursor" None false ∅ None [] None None None None.

(** A request whose URL carries the given cursor token, or none. *)
Definition request (token : option string) : Request :=
  {| query_params :=
       match token with
       | Some t => {[ "cursor" := t ]}
       | None => ∅
       end |}.

End Example.

(** ** Notions used by the statements *)

(** A specifier is [field] or [-field]: it does not begin with two
    dashes. *)
Definition single_dash (x : string) : Prop :=
  Str.startswith_dash x = true → Str.startswith_dash (Str.tail x) = false.

Section statements.
Context `{Store} `{JsonLib}.

(** The ordering the caller declared: the one of the first filter backend
    of the view that has [get_ordering], else the [ordering] attribute of
    the paginator. *)
Definition caller_ordering (self : Paginator) (view : option View) : ordering_value :=
  match List.filter (λ filter_cls, bool_decide (is_Some (fb_get_ordering filter_cls)))
          (default [] (view ≫= filter_backends)) with
  | filter_cls :: _ => default ONone (fb_get_ordering filter_cls)
  | [] => ordering self
  end.

(** Whether the caller declared it on the paginator rather than through
    a filter backend. *)
Definition declared_on_paginator (view : option View) : bool :=
  bool_decide (List.filter (λ filter_cls, bool_decide (is_Some (fb_get_ordering filter_cls)))
                 (default [] (view ≫= filter_backends)) = []).

(** The specifiers of a declared ordering, a single one for a [str]. *)
Definition specifiers (o : ordering_value) : list string :=
  match o with
  | OStr s => [s]
  | OList l | OTuple l => l
  | ONone => []
  end.

(** A specifier that names the unique key of the model, in either
    direction, by its name or by the alias [pk]. *)
Definition names_unique_key (x : string) : Prop :=
  x = pk_name ∨ x = "-" +:+ pk_name ∨ x = "pk" ∨ x = "-pk".

End statements.

(** The value a query string gives to [key]: the first one, or
    [default_] when the key is absent. *)
Definition token_value (key default_ querystring : string) : string :=
  match Urllib.parse_qs querystring !! key with
  | Some (v :: _) => v
  | _ => default_
  end.

(** The position a query string carries. *)
Definition token_position (querystring : string) : option string :=
  match Urllib.parse_qs querystring !! "p" with
  | Some (v :: _) => Some v
  | _ => None
  end.

(** The offset [_positive_int] returns for a non-negative [n] under the
    cutoff: clamped when the cutoff is a non-zero integer. *)
Definition clamp (cutoff : option Z) (n : Z) : Z :=
  match cutoff with
  | Some c => if c =? 0 then n else Z.min n c
  | None => n
  end.

(** An incoming token is read as the query string [qs], the offset [n]
    and the integer [r] of the reverse flag: it is ASCII, base64 decoding
    accepts it and gives the ASCII text [qs], [int] reads its [o] value
    as the non-negative [n] and its [r] value as [r]. *)
Definition token_reads (encoded qs : string) (n r : Z) : Prop :=
  Str.is_ascii encoded = true
  ∧ Base64.b64decode encoded = Ok qs
  ∧ Str.is_ascii qs = true
  ∧ Str.int (token_value "o" "0" qs) = Ok n
  ∧ 0 ≤ n
  ∧ Str.int (token_value "r" "0" qs) = Ok r.

(** The request for the URL that [encode_cursor] returned. *)
Definition request_for (url : Url) : Request := {| query_params := url |}.

Section boundary_statements.
Context `{Store}.

(** [CMP(i)] of section 4.3 for the specifier [o] and the value [v]:
    the comparison is [<] when exactly one of "the field is descending"
    and "the traversal is reversed" holds, and [>] otherwise. *)
Definition CMP (r : row) (traversal_reversed : bool) (o : string) (v : json) : bool :=
  if xorb (Str.startswith_dash o) traversal_reversed
  then field_lt r (Str.lstrip_dash o) v
  else field_gt r (Str.lstrip_dash o) v.

(** The disjunct of index [i] of the lexicographic expansion: the fields
    before [i] equal their values, and field [i] compares with its value
    by [CMP(i)]. *)
Definition lex_term (r : row) (traversal_reversed : bool)
    (ordering : list string) (values : list json) (i : nat) : bool :=
  forallb (λ ov : string * json, field_eq r (Str.lstrip_dash ov.1) ov.2)
    (take i (zip ordering values))
  && match zip ordering values !! i with
     | Some (o, v) => CMP r traversal_reversed o v
     | None => false
     end.

(** The lexicographic expansion of section 4.3: the disjunction of the
    terms of the indices 0 to n - 1. *)
Definition lex_expansion (r : row) (traversal_reversed : bool)
    (ordering : list string) (values : list json) : bool :=
  existsb (lex_term r traversal_reversed ordering values) (seq 0 (length ordering)).

End boundary_statements.

(** The entries the first loop of the disjunctive branch stores for a
    specifier and its value, and one step of that loop. *)
Definition eq_leaf (o : string) (v : json) : Q := Lookup (Str.lstrip_dash o) v.

Definition cmp_leaf (cursor_reverse : bool) (o : string) (v : json) : Q :=
  if xorb cursor_reverse (Str.startswith_dash o)
  then Lookup (Str.lstrip_dash o +:+ "__lt") v
  else Lookup (Str.lstrip_dash o +:+ "__gt") v.

Definition q_step (cursor_reverse : bool) (d : gmap string Q * gmap string Q)
    (op : string * json) : gmap string Q * gmap string Q :=
  (<[op.1 := eq_leaf op.1 op.2]> d.1,
   <[op.1 := cmp_leaf cursor_reverse op.1 op.2]> d.2).

Section boundary_pairs.
Context `{Store}.

(** The lexicographic comparison of the fields of [l] with their values,
    strict in the direction [gt], written by recursion on the pairs. *)
Fixpoint lex_pairs (gt : bool) (r : row) (l : list (string * json)) : bool :=
  match l with
  | [] => false
  | (o, v) :: l' =>
      (if gt then field_gt r (Str.lstrip_dash o) v
       else field_lt r (Str.lstrip_dash o) v)
      || (field_eq r (Str.lstrip_dash o) v && lex_pairs gt r l')
  end.

End boundary_pairs.

Section window_statements.
Context `{Store}.

(** The values of the ordering fields of a row, string-coerced, in the
    order of the ordering; [None] when the row lacks one of them. *)
Definition row_position (ordering : list string) (r : row) : option (list string) :=
  mapM (λ o, str <$> getattr r (Str.lstrip_dash o)) ordering.

End window_statements.

(** ** Exhaustive checks over the octets

    The facts about single octets and pairs of octets that the codecs rest
    on are decided by evaluating a boolean check on every octet. *)
Definition forall_bool (f : bool → bool) : bool := f true && f false.

Definition forall_ascii (f : ascii → bool) : bool :=
  forall_bool (λ b0, forall_bool (λ b1, forall_bool (λ b2, forall_bool (λ b3,
  forall_bool (λ b4, forall_bool (λ b5, forall_bool (λ b6, forall_bool (λ b7,
    f (Ascii b0 b1 b2 b3 b4 b5 b6 b7))))))))).

Module Base64Checks.
Import Base64.
Local Open Scope N_scope.

(** [c] is the character of the alphabet for the sextet [v]. *)
Definition is_data (c : ascii) (v : N) : bool :=
  match classify c with
  | Data w => w =? v
  | _ => false
  end.

(** The sextets of three octets. *)
Definition sextet0 (x : ascii) : N := N.shiftr (N_of_ascii x) 2.
Definition sextet1 (x y : ascii) : N :=
  N.lor (N.shiftl (N.land (N_of_ascii x) 3) 4) (N.shiftr (N_of_ascii y) 4).
Definition sextet2 (y z : ascii) : N :=
  N.lor (N.shiftl (N.land (N_of_ascii y) 15) 2) (N.shiftr (N_of_ascii z) 6).
Definition sextet3 (z : ascii) : N := N.land (N_of_ascii z) 63.

Definition check0 (x : ascii) : bool :=
  Str.is_ascii_char (table_b2a (sextet0 x))
  && Str.is_ascii_char (table_b2a (sextet3 x))
  && Str.is_ascii_char (table_b2a (N.shiftl (N.land (N_of_ascii x) 3) 4))
  && Str.is_ascii_char (table_b2a (N.shiftl (N.land (N_of_ascii x) 15) 2))
  && is_data (table_b2a (sextet0 x)) (sextet0 x)
  && is_data (table_b2a (sextet3 x)) (sextet3 x)
  && is_data (table_b2a (N.shiftl (N.land (N_of_ascii x) 3) 4))
       (N.shiftl (N.land (N_of_ascii x) 3) 4)
  && is_data (table_b2a (N.shiftl (N.land (N_of_ascii x) 15) 2))
       (N.shiftl (N.land (N_of_ascii x) 15) 2)
  && Ascii.eqb
       (ascii_of_N (N.lor (N.shiftl (N.shiftr (N_of_ascii x) 6) 6) (sextet3 x))) x
  && Ascii.eqb
       (ascii_of_N (N.lor (N.shiftl (sextet0 x) 2)
                      (N.shiftr (N.shiftl (N.land (N_of_ascii x) 3) 4) 4))) x.

Definition check1 (x y : ascii) : bool :=
  Str.is_ascii_char (table_b2a (sextet1 x y))
  && is_data (table_b2a (sextet1 x y)) (sextet1 x y)
  && Ascii.eqb
       (ascii_of_N (N.lor (N.shiftl (sextet0 x) 2) (N.shiftr (sextet1 x y) 4))) x
  && (N.land (sextet1 x y) 15 =? N.shiftr (N_of_ascii y) 4).

Definition check2 (y z : ascii) : bool :=
  Str.is_ascii_char (table_b2a (sextet2 y z))
  && is_data (table_b2a (sextet2 y z)) (sextet2 y z)
  && Ascii.eqb
       (ascii_of_N (N.lor (N.shiftl (N.shiftr (N_of_ascii y) 4) 4)
                      (N.shiftr (sextet2 y z) 2))) y
  && (N.land (sextet2 y z) 3 =? N.shiftr (N_of_ascii z) 6)
  && Ascii.eqb
       (ascii_of_N (N.lor (N.shiftl (N.shiftr (N_of_ascii y) 4) 4)
                      (N.shiftr (N.shiftl (N.land (N_of_ascii y) 15) 2) 2))) y.

End Base64Checks.

(** [s] has no occurrence of [c]. *)
Fixpoint lacks (c : ascii) (s : string) : bool :=
  match s with
  | "" => true
  | String x t => negb (Ascii.eqb x c) && lacks c t
  end.

(** [s] consists of decimal digits. *)
Fixpoint all_digits (s : string) : bool :=
  match s with
  | "" => true
  | String c t => Str.is_digit c && all_digits t
  end.

(** The item of [urlencode] for a key and a value. *)
Definition query_item (kv : string * string) : string :=
  Urllib.quote_plus kv.1 +:+ String "=" (Urllib.quote_plus kv.2).

(** The tokens [encode_cursor] collects for a cursor. *)
Definition cursor_tokens (c : Cursor) : list (string * string) :=
  (if offset c =? 0 then [] else [("o", Str.of_int (offset c))])
  ++ (if reverse c then [("r", "1")] else [])
  ++ (match position c with Some p => [("p", p)] | None => [] end).

(** What a test reads off a page request on the example model: the keys
    of the rows of the page, [has_previous] and [has_next]. *)
Definition page_summary
    (r : result (@Paginator Example.store * option (list Example.ExamplePaginationModel)))
    : result (list Z * option bool * option bool) :=
  match r with
  | Ok (self, _) =>
      Ok (List.map Example.id (page self : list Example.ExamplePaginationModel),
          has_previous self, has_next self)
  | Raise e => Raise e
  end.

(** * Properties *)

(** ** Reversing an ordering *)

Lemma invert_direction x :
  single_dash x → Str.startswith_dash (invert x) = negb (Str.startswith_dash x).
Proof.
  unfold single_dash, invert. intros Hx.
  destruct (Str.startswith_dash x) eqn:E; [by rewrite Hx | done].
Qed.

Lemma startswith_dash_inv x :
  Str.startswith_dash x = true → x = "-" +:+ Str.tail x.
Proof.
  destruct x as [|c t]; [done|]. simpl.
  destruct (decide (c = "-"%char)) as [->|Hc]; [done|].
  destruct c as [[] [] [] [] [] [] [] []]; done.
Qed.

Lemma invert_field x : Str.lstrip_dash (invert x) = Str.lstrip_dash x.
Proof.
  unfold invert. destruct (Str.startswith_dash x) eqn:E; [|done].
  apply startswith_dash_inv in E. by rewrite E at 2.
Qed.

Lemma invert_invert x : single_dash x → invert (invert x) = x.
Proof.
  intros Hx. unfold invert at 2.
  destruct (Str.startswith_dash x) eqn:E.
  - unfold invert. rewrite Hx by done. by rewrite <- startswith_dash_inv.
  - reflexivity.
Qed.

(** C10.  On every ordering tuple of field specifiers, each [field] or
    [-field], [_reverse_ordering] keeps the length, keeps at every index
    the field the specifier names, flips at every index the direction
    (a leading dash is stripped, or one is put in front), and applied
    twice gives the tuple back. *)
Theorem reverse_ordering_involution (ordering_tuple : list string) :
  Forall single_dash ordering_tuple →
  length (_reverse_ordering ordering_tuple) = length ordering_tuple
  ∧ (∀ i x, ordering_tuple !! i = Some x →
       ∃ y, _reverse_ordering ordering_tuple !! i = Some y
            ∧ y = (if Str.startswith_dash x then Str.tail x else "-" +:+ x)
            ∧ Str.lstrip_dash y = Str.lstrip_dash x
            ∧ Str.startswith_dash y = negb (Str.startswith_dash x))
  ∧ _reverse_ordering (_reverse_ordering ordering_tuple) = ordering_tuple.
Proof.
  intros Hall. unfold _reverse_ordering. split; [by rewrite length_fmap|]. split.
  - intros i x Hi. exists (invert x). rewrite list_lookup_fmap, Hi.
    split; [done|]. split; [done|]. split; [apply invert_field|].
    apply invert_direction. by eapply Forall_lookup_1.
  - rewrite <- list_fmap_compose.
    induction Hall as [|x l Hx Hl IH]; [done|].
    simpl. f_equal; [by apply invert_invert | done].
Qed.

Lemma reverse_ordering_involution_witness :
  Forall single_dash ["-created"; "uuid"]
  ∧ _reverse_ordering ["-created"; "uuid"] = ["created"; "-uuid"]
  ∧ _reverse_ordering (_reverse_ordering ["-created"; "uuid"]) = ["-created"; "uuid"].
Proof.
  assert (Hw : Forall single_dash ["-created"; "uuid"]).
  { repeat constructor; unfold single_dash; simpl; done. }
  split; [exact Hw|]. split; [reflexivity|].
  exact (proj2 (proj2 (reverse_ordering_involution ["-created"; "uuid"] Hw))).
Defined.

(** ** Resolving the ordering *)

Section ordering_facts.
Context `{Store} `{JsonLib}.

Lemma unique_key_test (l : list string) :
  ({[ "-" +:+ pk_name; pk_name; "pk"; "-pk" ]} : gset string) ∩ list_to_set l = ∅
  ↔ ¬ ∃ x, x ∈ l ∧ names_unique_key x.
Proof.
  unfold names_unique_key. split.
  - intros Hempty (x & Hx & Hn).
    assert (Hin : x ∈ ({[ "-" +:+ pk_name; pk_name; "pk"; "-pk" ]} : gset string)
                        ∩ list_to_set l).
    { apply elem_of_intersection. split; [|by apply elem_of_list_to_set].
      destruct Hn as [ -> | [ -> | [ -> | -> ] ] ]; set_solver. }
    rewrite Hempty in Hin. set_solver.
  - intros Hno. apply set_eq. intros x. split; [|set_solver].
    rewrite elem_of_intersection, elem_of_list_to_set. intros [Hx Hl].
    exfalso. apply Hno. exists x. split; [done|].
    rewrite !elem_of_union, !elem_of_singleton in Hx. tauto.
Qed.

Lemma get_ordering_unfold self request queryset view :
  is_not_None (caller_ordering self view) = true →
  (declared_on_paginator view = true →
   dunder_not_in (caller_ordering self view) = true) →
  get_ordering self request queryset view =
    Ok (let caller := specifiers (caller_ordering self view) in
        if bool_decide (({[ "-" +:+ pk_name; pk_name; "pk"; "-pk" ]} : gset string)
                          ∩ list_to_set caller = ∅)
        then caller ++ [pk_name] else caller).
Proof.
  unfold get_ordering, caller_ordering, declared_on_paginator.
  destruct (List.filter _ _) as [|filter_cls rest]; simpl.
  - intros Hnone Hdunder. rewrite Hnone. simpl.
    rewrite Hdunder by done. simpl.
    rewrite Hnone. simpl. by destruct (ordering self).
  - intros Hnone _. rewrite Hnone. simpl. rewrite Hnone. simpl.
    by destruct (default ONone (fb_get_ordering filter_cls)).
Qed.

(** C7.  When the declared ordering passes the assertions of
    [get_ordering], the resolved tuple is the caller's specifiers
    unchanged if one of them names the unique key (by its name or by
    [pk], ascending or descending), and otherwise the caller's specifiers
    followed by the name of the unique key, ascending. *)
Theorem get_ordering_unique_key self request queryset view :
  is_not_None (caller_ordering self view) = true →
  (declared_on_paginator view = true →
   dunder_not_in (caller_ordering self view) = true) →
  ((∃ x, x ∈ specifiers (caller_ordering self view) ∧ names_unique_key x) →
   get_ordering self request queryset view
   = Ok (specifiers (caller_ordering self view)))
  ∧ ((¬ ∃ x, x ∈ specifiers (caller_ordering self view) ∧ names_unique_key x) →
     get_ordering self request queryset view
     = Ok (specifiers (caller_ordering self view) ++ [pk_name])).
Proof.
  intros Hnone Hdunder.
  rewrite (get_ordering_unfold _ _ _ _ Hnone Hdunder). simpl.
  split; intros Hkey.
  - rewrite bool_decide_eq_false_2; [done|]. rewrite unique_key_test. tauto.
  - rewrite bool_decide_eq_true_2; [done|]. by rewrite unique_key_test.
Qed.

End ordering_facts.

Lemma get_ordering_unique_key_witness :
  get_ordering (Example.paginator (OList ["name"]) 2) (Example.request None)
    Example.all_rows None = Ok ["name"; "id"]
  ∧ get_ordering (Example.paginator (OList ["id"]) 2) (Example.request None)
      Example.all_rows None = Ok ["id"].
Proof.
  split.
  - apply (get_ordering_unique_key (Example.paginator (OList ["name"]) 2)
             (Example.request None) Example.all_rows None); [done|done|].
    unfold names_unique_key. simpl.
    intros (x & Hx & Hn). apply list_elem_of_singleton in Hx. subst x.
    destruct Hn as [Hn|[Hn|[Hn|Hn]]]; discriminate Hn.
  - apply (get_ordering_unique_key (Example.paginator (OList ["id"]) 2)
             (Example.request None) Example.all_rows None); [done|done|].
    exists "id". split; [by apply list_elem_of_singleton | by left].
Defined.

(** C6 on a list: the assertion on double underscores is a membership
    test there, so a list or tuple with a lookup that crosses a relation
    is resolved like any other, while the same specifier declared as a
    string is refused. *)
Theorem get_ordering_dunder_in_list :
  get_ordering (Example.paginator (OList ["user__name"]) 2) (Example.request None)
    Example.all_rows None = Ok ["user__name"; "id"]
  ∧ get_ordering (Example.paginator (OTuple ["-user__name"; "id"]) 2)
      (Example.request None) Example.all_rows None = Ok ["-user__name"; "id"]
  ∧ get_ordering (Example.paginator (OStr "user__name") 2) (Example.request None)
      Example.all_rows None
    = Raise (AssertionError
        "Cursor pagination does not support double underscore lookups for orderings.").
Proof. repeat split; vm_compute; reflexivity. Qed.

(** ** Decoding a cursor *)

#[local] Arguments _positive_int : simpl never.
#[local] Arguments Str.int : simpl never.
#[local] Arguments Base64.b64decode : simpl never.
#[local] Arguments Urllib.parse_qs : simpl never.

Lemma a2b_loop_raises quad_pos leftchar pads s e :
  Base64.a2b_loop quad_pos leftchar pads s = Raise e → e = ValueError.
Proof.
  revert quad_pos leftchar pads.
  induction s as [|c t IH]; intros quad_pos leftchar pads; simpl.
  - destruct quad_pos; congruence.
  - destruct (Base64.classify c).
    + repeat case_match; eauto; congruence.
    + destruct quad_pos as [|[|[|q]]]; [eauto|..];
        (match goal with
         | |- context [Base64.a2b_loop ?a ?b ?c t] =>
             specialize (IH a b c); destruct (Base64.a2b_loop a b c t)
         end; simpl; [congruence|]; intros [= <-]; by apply IH).
    + eauto.
Qed.

Lemma b64decode_raises s e : Base64.b64decode s = Raise e → e = ValueError.
Proof. apply a2b_loop_raises. Qed.

Lemma int_raises s e : Str.int s = Raise e → e = ValueError.
Proof. unfold Str.int. repeat case_match; congruence. Qed.

Lemma parse_qs_values_nonempty qs key :
  Urllib.parse_qs qs !! key ≠ Some [].
Proof.
  unfold Urllib.parse_qs.
  assert (Hgen : ∀ (l : list (string * string)) (m : gmap string (list string)),
            (∀ k, m !! k ≠ Some []) →
            ∀ k, foldl (λ (parsed_result : gmap string (list string)) nv,
                          partial_alter (λ o, Some (default [] o ++ [nv.2])) nv.1
                            parsed_result) m l !! k ≠ Some []).
  { induction l as [|nv l IH]; intros m Hm k; simpl; [apply Hm|].
    apply IH. intros k'.
    destruct (decide (nv.1 = k')) as [<-|Hne].
    - rewrite lookup_partial_alter_eq. intros [= Heq].
      by destruct (default [] (m !! nv.1)).
    - rewrite lookup_partial_alter_ne by done. apply Hm. }
  apply Hgen. intros k. by rewrite lookup_empty.
Qed.

Lemma index0_token_value qs key default_ :
  index0 (default [default_] (Urllib.parse_qs qs !! key))
  = Ok (token_value key default_ qs).
Proof.
  unfold token_value. pose proof (parse_qs_values_nonempty qs key) as Hne.
  destruct (Urllib.parse_qs qs !! key) as [[|v l]|]; done.
Qed.

Lemma index0_token_position qs :
  index0 (default [None] (fmap (M:=list) Some <$> Urllib.parse_qs qs !! "p"))
  = Ok (token_position qs).
Proof.
  unfold token_position. pose proof (parse_qs_values_nonempty qs "p") as Hne.
  destruct (Urllib.parse_qs qs !! "p") as [[|v l]|]; done.
Qed.

Lemma positive_int_clamp s cutoff n :
  Str.int s = Ok n → 0 ≤ n → _positive_int s false cutoff = Ok (clamp cutoff n).
Proof.
  intros Hs Hn. unfold _positive_int, clamp. rewrite Hs. simpl.
  rewrite (proj2 (Z.ltb_ge n 0)) by done. rewrite andb_false_r. simpl.
  destruct cutoff as [c|]; [|done]. by destruct (c =? 0).
Qed.

Lemma positive_int_negative s cutoff n :
  Str.int s = Ok n → n < 0 → _positive_int s false cutoff = Raise ValueError.
Proof.
  intros Hs Hn. unfold _positive_int. rewrite Hs. simpl.
  by rewrite (proj2 (Z.ltb_lt n 0)) by done.
Qed.

Section decode_facts.
Context `{Store} `{JsonLib}.

(** What [decode_cursor] returns for a token that is read. *)
Lemma decode_cursor_reads self request encoded qs n r :
  query_params request !! cursor_query_param self = Some encoded →
  token_reads encoded qs n r →
  decode_cursor self request
  = Ok (Some (mkCursor (clamp (offset_cutoff self) n) (negb (r =? 0))
                (token_position qs))).
Proof.
  intros Hq (Hascii & Hb64 & Hqs & Ho & Hn & Hr).
  unfold decode_cursor. rewrite Hq.
  unfold Str.encode_ascii. rewrite Hascii. simpl. rewrite Hb64. simpl.
  unfold Str.decode_ascii. rewrite Hqs. simpl.
  rewrite !index0_token_value, index0_token_position. simpl.
  rewrite (positive_int_clamp _ _ _ Ho Hn). simpl. rewrite Hr. reflexivity.
Qed.

(** What [decode_cursor] does with a token that is not read. *)
Lemma decode_cursor_rejects self request encoded :
  query_params request !! cursor_query_param self = Some encoded →
  (¬ ∃ qs n r, token_reads encoded qs n r) →
  decode_cursor self request = Raise (NotFound (invalid_cursor_message self)).
Proof.
  intros Hq Hno. unfold decode_cursor. rewrite Hq.
  unfold Str.encode_ascii.
  destruct (Str.is_ascii encoded) eqn:Hascii; [|done]. simpl.
  destruct (Base64.b64decode encoded) as [qs|e] eqn:Hb64;
    [|by rewrite (b64decode_raises _ _ Hb64)]. simpl.
  unfold Str.decode_ascii.
  destruct (Str.is_ascii qs) eqn:Hqs; [|done]. simpl.
  rewrite !index0_token_value, index0_token_position. simpl.
  destruct (Str.int (token_value "o" "0" qs)) as [n|e] eqn:Ho.
  2:{ unfold _positive_int. rewrite Ho. simpl. by rewrite (int_raises _ _ Ho). }
  destruct (Z.lt_ge_cases n 0) as [Hn|Hn].
  { by rewrite (positive_int_negative _ _ _ Ho Hn). }
  rewrite (positive_int_clamp _ _ _ Ho Hn). simpl.
  destruct (Str.int (token_value "r" "0" qs)) as [r|e] eqn:Hr;
    [|by rewrite (int_raises _ _ Hr)].
  exfalso. apply Hno. exists qs, n, r. by repeat split.
Qed.

End decode_facts.

Section decode_claims.
Context `{Store} `{JsonLib}.

(** C8, as amended.  [decode_cursor] fails, and then with the not-found
    error carrying [invalid_cursor_message], exactly when the token is not
    read: it is not ASCII, or base64 decoding refuses it, or the decoded
    octets are not ASCII, or [int] does not read its [o] value, or reads
    it as a negative integer, or [int] does not read its [r] value.  A
    token that is read is decoded, every integer [r] other than zero
    meaning a reversed cursor. *)
Theorem decode_cursor_invalid_iff self request encoded :
  query_params request !! cursor_query_param self = Some encoded →
  (decode_cursor self request = Raise (NotFound (invalid_cursor_message self))
   ↔ ¬ ∃ qs n r, token_reads encoded qs n r)
  ∧ (∀ qs n r, token_reads encoded qs n r →
       decode_cursor self request
       = Ok (Some (mkCursor (clamp (offset_cutoff self) n) (negb (r =? 0))
                     (token_position qs)))).
Proof.
  intros Hq. split; [split|].
  - intros Hfail (qs & n & r & Hreads).
    rewrite (decode_cursor_reads _ _ _ _ _ _ Hq Hreads) in Hfail. discriminate.
  - by apply decode_cursor_rejects.
  - intros qs n r. by apply decode_cursor_reads.
Qed.

(** C9, as amended.  When the [o] value of a token that is read exceeds
    an [offset_cutoff] that is a non-zero integer, [_positive_int] returns
    the cutoff instead of raising, and the decoded cursor has the cutoff
    as its offset. *)
Theorem decode_cursor_offset_cutoff self request encoded qs n r c :
  query_params request !! cursor_query_param self = Some encoded →
  token_reads encoded qs n r →
  offset_cutoff self = Some c →
  c ≠ 0 →
  c < n →
  _positive_int (token_value "o" "0" qs) false (offset_cutoff self) = Ok c
  ∧ decode_cursor self request
    = Ok (Some (mkCursor c (negb (r =? 0)) (token_position qs))).
Proof.
  intros Hq Hreads Hc Hc0 Hlt.
  assert (Hclamp : clamp (offset_cutoff self) n = c).
  { unfold clamp. rewrite Hc. rewrite (proj2 (Z.eqb_neq c 0)) by done.
    apply Z.min_r. by apply Z.lt_le_incl. }
  split.
  - destruct Hreads as (_ & _ & _ & Ho & Hn & _).
    by rewrite (positive_int_clamp _ _ _ Ho Hn), Hclamp.
  - by rewrite (decode_cursor_reads _ _ _ _ _ _ Hq Hreads), Hclamp.
Qed.

End decode_claims.

Lemma decode_cursor_invalid_iff_witness :
  query_params (Example.request (Some "bz01JnI9MQ=="))
    !! cursor_query_param (Example.paginator (OStr "id") 2) = Some "bz01JnI9MQ=="
  ∧ token_reads "bz01JnI9MQ==" "o=5&r=1" 5 1
  ∧ decode_cursor (Example.paginator (OStr "id") 2)
      (Example.request (Some "bz01JnI9MQ=="))
    = Ok (Some (mkCursor 5 true None)).
Proof.
  assert (Hr : token_reads "bz01JnI9MQ==" "o=5&r=1" 5 1).
  { repeat split; vm_compute; congruence. }
  split; [reflexivity|]. split; [exact Hr|].
  exact (proj2 (decode_cursor_invalid_iff (Example.paginator (OStr "id") 2)
                  (Example.request (Some "bz01JnI9MQ==")) "bz01JnI9MQ=="
                  eq_refl) "o=5&r=1" 5 1 Hr).
Defined.

(** C8, as stated, fails on a token whose [r] value is [2]: the token is
    read and decoded as a reversed cursor. *)
Lemma decode_cursor_reverse_two :
  Base64.b64decode "cj0y" = Ok "r=2"
  ∧ token_value "r" "0" "r=2" = "2"
  ∧ "2" ≠ "0" ∧ "2" ≠ "1"
  ∧ decode_cursor (Example.paginator (OStr "id") 2) (Example.request (Some "cj0y"))
    = Ok (Some (mkCursor 0 true None)).
Proof. repeat split; try discriminate; vm_compute; reflexivity. Qed.

Lemma decode_cursor_offset_cutoff_witness :
  token_reads "bz0yMDAwJnI9MA==" "o=2000&r=0" 2000 0
  ∧ offset_cutoff (Example.paginator (OStr "id") 2) = Some 1000
  ∧ 1000 ≠ 0 ∧ 1000 < 2000
  ∧ decode_cursor (Example.paginator (OStr "id") 2)
      (Example.request (Some "bz0yMDAwJnI9MA=="))
    = Ok (Some (mkCursor 1000 false None)).
Proof.
  assert (Hr : token_reads "bz0yMDAwJnI9MA==" "o=2000&r=0" 2000 0).
  { repeat split; vm_compute; congruence. }
  split; [exact Hr|]. split; [reflexivity|]. split; [discriminate|].
  split; [reflexivity|].
  exact (proj2 (decode_cursor_offset_cutoff (Example.paginator (OStr "id") 2)
                  (Example.request (Some "bz0yMDAwJnI9MA==")) "bz0yMDAwJnI9MA=="
                  "o=2000&r=0" 2000 0 1000 eq_refl Hr eq_refl
                  ltac:(discriminate) eq_refl)).
Defined.

(** C9, as stated, fails when the configured cutoff is zero: [if cutoff:]
    does not hold, and the offset of the token is returned as it is. *)
Lemma decode_cursor_cutoff_zero :
  Base64.b64decode "bz01" = Ok "o=5"
  ∧ token_value "o" "0" "o=5" = "5"
  ∧ Str.int "5" = Ok 5
  ∧ 0 < 5
  ∧ offset_cutoff (Example.paginator_cutoff (OStr "id") 2 (Some 0)) = Some 0
  ∧ decode_cursor (Example.paginator_cutoff (OStr "id") 2 (Some 0))
      (Example.request (Some "bz01"))
    = Ok (Some (mkCursor 5 false None)).
Proof. repeat split; vm_compute; reflexivity. Qed.

(** C2, as stated, fails on an offset above the cutoff: the decoded
    offset is the cutoff. *)
Lemma decode_encode_above_cutoff :
  offset_cutoff (Example.paginator (OStr "id") 2) = Some 1000
  ∧ (url ← encode_cursor (Example.paginator (OStr "id") 2) (mkCursor 1001 false None);
     decode_cursor (Example.paginator (OStr "id") 2) (request_for url))
    = Ok (Some (mkCursor 1000 false None))
  ∧ mkCursor 1000 false None ≠ mkCursor 1001 false None.
Proof. repeat split; try discriminate; vm_compute; reflexivity. Qed.

(** ** The boundary filter *)

Section boundary.
Context `{Store} `{JsonLib}.
Local Open Scope nat_scope.

Lemma mapM_Ok {A B} (f : A → result B) l k :
  Forall2 (λ x y, f x = Ok y) l k → mapM f l = Ok k.
Proof.
  induction 1 as [|x y l k Hxy _ IH]; [done|].
  simpl. rewrite Hxy. simpl. rewrite IH. done.
Qed.

Lemma getitem_Some {A} (d : gmap string A) key a :
  d !! key = Some a → getitem d key = Ok a.
Proof. unfold getitem. by intros ->. Qed.

Lemma bind_Ok {A B} (a : A) (f : A → result B) : (Ok a ≫= f) = f a.
Proof. done. Qed.

Lemma index0_lookup {A} (l : list A) a : l !! 0 = Some a → index0 l = Ok a.
Proof. by destruct l; intros [= ->]. Qed.


Lemma q_objects_foldl cursor_reverse ordering values :
  q_objects ordering cursor_reverse values
  = foldl (q_step cursor_reverse) (∅, ∅) (zip ordering values).
Proof.
  unfold q_objects. generalize (∅ : gmap string Q, ∅ : gmap string Q).
  induction (zip ordering values) as [|[o v] l IH]; intros [m1 m2]; [done|].
  simpl. rewrite IH. done.
Qed.

Lemma q_step_other cursor_reverse (l : list (string * json)) d o :
  o ∉ l.*1 →
  (foldl (q_step cursor_reverse) d l).1 !! o = d.1 !! o
  ∧ (foldl (q_step cursor_reverse) d l).2 !! o = d.2 !! o.
Proof.
  revert d. induction l as [|[o' v'] l IH]; intros d Hnotin; [done|].
  simpl in *. apply not_elem_of_cons in Hnotin as [Hne Hnotin].
  destruct (IH (q_step cursor_reverse d (o', v')) Hnotin) as [-> ->].
  simpl. by rewrite !lookup_insert_ne.
Qed.

Lemma q_step_lookup cursor_reverse (l : list (string * json)) d o v :
  NoDup l.*1 → (o, v) ∈ l →
  (foldl (q_step cursor_reverse) d l).1 !! o = Some (eq_leaf o v)
  ∧ (foldl (q_step cursor_reverse) d l).2 !! o = Some (cmp_leaf cursor_reverse o v).
Proof.
  revert d. induction l as [|[o' v'] l IH]; intros d Hnd Hin.
  - by apply elem_of_nil in Hin.
  - simpl in *. apply NoDup_cons in Hnd as [Hnotin Hnd].
    apply elem_of_cons in Hin as [[= -> ->]|Hin]; [|by apply IH].
    destruct (q_step_other cursor_reverse l (q_step cursor_reverse d (o', v')) o' Hnotin)
      as [-> ->].
    simpl. by rewrite !lookup_insert_eq.
Qed.

Lemma zip_fst_NoDup (ordering : list string) (values : list json) :
  NoDup ordering → NoDup (zip ordering values).*1.
Proof.
  intros Hnd. revert values. induction Hnd as [|o l Hnotin Hnd IH]; intros [|v values]; simpl; try constructor.
  - intros Hin. apply Hnotin. apply list_elem_of_fmap in Hin as ([o' v'] & -> & Hin).
    simpl. by eapply elem_of_zip_l.
  - apply IH.
Qed.

(** The entries of the two dicts for the specifier at index [i]. *)
Lemma q_objects_lookup cursor_reverse ordering values i o v :
  NoDup ordering → ordering !! i = Some o → values !! i = Some v →
  (q_objects ordering cursor_reverse values).1 !! o = Some (eq_leaf o v)
  ∧ (q_objects ordering cursor_reverse values).2 !! o = Some (cmp_leaf cursor_reverse o v).
Proof.
  intros Hnd Ho Hv. rewrite q_objects_foldl.
  apply q_step_lookup; [by apply zip_fst_NoDup|].
  apply list_elem_of_lookup. exists i.
  by apply lookup_zip_Some.
Qed.

Lemma eval_foldl_QAnd r (l : list Q) q :
  eval_Q r (foldl QAnd q l) = eval_Q r q && forallb (eval_Q r) l.
Proof.
  revert q. induction l as [|x l IH]; intros q; simpl; [by rewrite andb_true_r|].
  rewrite IH. simpl. by rewrite andb_assoc.
Qed.

Lemma eval_foldl_QOr r (l : list Q) q :
  eval_Q r (foldl QOr q l) = eval_Q r q || existsb (eval_Q r) l.
Proof.
  revert q. induction l as [|x l IH]; intros q; simpl; [by rewrite orb_false_r|].
  rewrite IH. simpl. by rewrite orb_assoc.
Qed.

Lemma reduce_QAnd (l : list Q) g :
  ∃ q, reduce QAnd (l ++ [g]) = Ok q
       ∧ ∀ r, eval_Q r q = forallb (eval_Q r) l && eval_Q r g.
Proof.
  destruct l as [|x l]; simpl.
  - exists g. done.
  - eexists. split; [done|]. intros r. rewrite eval_foldl_QAnd, forallb_app. simpl.
    by rewrite andb_true_r, andb_assoc.
Qed.

Lemma mapM_Ok_exists {A B} (f : A → result B) (P : A → B → Prop) l :
  (∀ x, x ∈ l → ∃ y, f x = Ok y ∧ P x y) →
  ∃ k, mapM f l = Ok k ∧ Forall2 P l k.
Proof.
  induction l as [|x l IH]; intros Hl.
  - exists []. by split.
  - destruct (Hl x) as (y & Hy & HP); [by left|].
    destruct IH as (k & Hk & HF); [intros x' Hx'; apply Hl; by right|].
    exists (y :: k). split; [|by constructor].
    simpl. rewrite Hy. simpl. by rewrite Hk.
Qed.

Lemma forallb_fmap {A B} (f : A → B) (p : B → bool) l :
  forallb p (f <$> l) = forallb (p ∘ f) l.
Proof. induction l as [|x l IH]; csimpl; [done|]. by rewrite IH. Qed.

Lemma existsb_Forall2 {A B} (p : A → bool) (q : B → bool) l k :
  Forall2 (λ x y, q y = p x) l k → existsb q k = existsb p l.
Proof. induction 1 as [|x y l k Hxy _ IH]; simpl; [done|]. by rewrite Hxy, IH. Qed.

Lemma eval_cmp_leaf r cursor_reverse o v :
  eval_Q r (cmp_leaf cursor_reverse o v) = CMP r cursor_reverse o v.
Proof.
  unfold cmp_leaf, CMP. rewrite (xorb_comm cursor_reverse).
  by destruct (xorb (Str.startswith_dash o) cursor_reverse).
Qed.

Lemma last_take_lookup {A} (l : list A) m :
  0 < m → last (take m l) = l !! pred (Nat.min m (length l)).
Proof.
  intros Hm. rewrite last_lookup, length_take.
  destruct l as [|a l]; [by destruct m|].
  apply lookup_take_lt. simpl. lia.
Qed.

Lemma removelast_take {A} (l : list A) m :
  removelast (take m l) = take (pred (Nat.min m (length l))) l.
Proof.
  rewrite removelast_firstn_len, length_take, take_take. f_equal. lia.
Qed.

(** The conjunction the second loop appends for the index [i] is the
    term of the expansion of index [min (i + 1) (n - 1)]. *)
Lemma sub_filter_eval cursor_reverse ordering values i :
  NoDup ordering → length values = length ordering → i < length ordering →
  ∃ q, sub_filter ordering (q_objects ordering cursor_reverse values).1
         (q_objects ordering cursor_reverse values).2 i = Ok q
       ∧ ∀ r, eval_Q r q
              = lex_term r cursor_reverse ordering values
                  (Nat.min (i + 1) (length ordering - 1)).
Proof.
  intros Hnd Hlen Hi. unfold sub_filter.
  set (k := Nat.min (i + 1) (length ordering - 1)).
  assert (Hk : pred (Nat.min (i + 2) (length ordering)) = k) by (unfold k; lia).
  assert (Hkn : k < length ordering) by (unfold k; lia).
  destruct (lookup_lt_is_Some_2 ordering k Hkn) as [o Ho].
  destruct (lookup_lt_is_Some_2 values k ltac:(lia)) as [v Hv].
  unfold index_last. rewrite last_take_lookup, Hk, Ho by lia. simpl.
  destruct (q_objects_lookup cursor_reverse _ _ _ _ _ Hnd Ho Hv) as [_ Hcmp].
  rewrite (getitem_Some _ _ _ Hcmp). simpl.
  rewrite removelast_take, Hk.
  rewrite (mapM_Ok _ _ ((λ ov : string * json, eq_leaf ov.1 ov.2)
                          <$> take k (zip ordering values))).
  2:{ apply Forall2_same_length_lookup_2.
      - rewrite length_fmap, !length_take, length_zip. lia.
      - intros j o' q' Ho' Hq'.
        rewrite list_lookup_fmap in Hq'.
        apply lookup_take_Some in Ho' as [Ho' Hj].
        destruct (take k (zip ordering values) !! j) as [[o'' v'']|] eqn:Hz; [|done].
        apply lookup_take_Some in Hz as [Hz _].
        apply lookup_zip_Some in Hz as [Ho'' Hv''].
        simpl in Hq'. injection Hq' as <-. simplify_eq.
        destruct (q_objects_lookup cursor_reverse _ _ _ _ _ Hnd Ho' Hv'') as [Heq _].
        by apply getitem_Some. }
  simpl.
  destruct (reduce_QAnd
              ((λ ov : string * json, eq_leaf ov.1 ov.2) <$> take k (zip ordering values))
              (cmp_leaf cursor_reverse o v)) as (q & Hq & Heval).
  exists q. split; [done|]. intros r.
  rewrite Heval, forallb_fmap, eval_cmp_leaf. unfold lex_term.
  by rewrite (proj2 (lookup_zip_Some _ _ _ _ _) (conj Ho Hv)).
Qed.


Lemma existsb_shifted (T : nat → bool) n :
  0 < n →
  T 0 || existsb (λ i, T (Nat.min (i + 1) (n - 1))) (seq 0 n) = existsb T (seq 0 n).
Proof.
  intros Hn. apply eq_iff_eq_true.
  rewrite orb_true_iff, !existsb_exists. split.
  - intros [HT0|(i & Hi & HT)].
    + exists 0. split; [apply in_seq; lia | done].
    + apply in_seq in Hi. eexists. split; [|exact HT]. apply in_seq. lia.
  - intros (k & Hk & HT). apply in_seq in Hk.
    destruct k as [|k]; [by left|]. right. exists k.
    split; [apply in_seq; lia|]. by replace (Nat.min (k + 1) (n - 1)) with (S k) by lia.
Qed.

Lemma disjunctive_q_object_eval self cur values :
  cursor self = Some cur →
  NoDup (ordering_tuple self) →
  ordering_tuple self ≠ [] →
  length values = length (ordering_tuple self) →
  ∃ q, disjunctive_q_object self (JList values) = Ok q
       ∧ ∀ r, eval_Q r q
              = lex_expansion r (reverse cur) (ordering_tuple self) values.
Proof.
  intros Hcur Hnd Hne Hlen. unfold disjunctive_q_object, cursor_reverse.
  rewrite Hcur. generalize dependent (ordering_tuple self). intros ordering Hnd Hne Hlen.
  simpl json_iter. rewrite !bind_Ok.
  assert (Hn : 0 < length ordering) by (destruct ordering; [done|simpl; lia]).
  destruct (lookup_lt_is_Some_2 ordering 0 Hn) as [o Ho].
  destruct (lookup_lt_is_Some_2 values 0 ltac:(lia)) as [v Hv].
  pose proof (q_objects_lookup (reverse cur) ordering values 0 o v Hnd Ho Hv)
    as [_ Hfirst].
  pose proof (λ i, sub_filter_eval (reverse cur) ordering values i Hnd Hlen) as Hsub.
  destruct (q_objects ordering (reverse cur) values)
    as [q_objects_equals q_objects_compare].
  simpl in Hfirst, Hsub.
  rewrite (index0_lookup _ _ Ho), bind_Ok, (getitem_Some _ _ _ Hfirst), bind_Ok.
  destruct (mapM_Ok_exists
              (sub_filter ordering q_objects_equals q_objects_compare)
              (λ i q, ∀ r, eval_Q r q
                           = lex_term r (reverse cur) ordering values
                               (Nat.min (i + 1) (length ordering - 1)))
              (seq 0 (length ordering))) as (rest & Hrest & HF).
  { intros i Hi. apply elem_of_seq in Hi. apply Hsub. lia. }
  rewrite Hrest, bind_Ok. eexists. split; [reflexivity|].
  intros r. rewrite eval_foldl_QOr, eval_cmp_leaf.
  rewrite (existsb_Forall2
             (λ i, lex_term r (reverse cur) ordering values
                     (Nat.min (i + 1) (length ordering - 1)))
             (eval_Q r) (seq 0 (length ordering)) rest).
  2:{ eapply Forall2_impl; [exact HF|]. intros i q Hiq. apply Hiq. }
  unfold lex_expansion.
  rewrite <- (existsb_shifted (lex_term r (reverse cur) ordering values)) by done.
  f_equal. unfold lex_term.
  by rewrite (proj2 (lookup_zip_Some _ _ _ _ _) (conj Ho Hv)).
Qed.

(** C1.  For an ordering without a repeated specifier and a position
    list with one value for each of its n >= 1 specifiers, the disjunctive
    branch builds a [Q] object, and a row satisfies it exactly when it
    satisfies the lexicographic expansion: some index i has the fields
    before it equal to their values and field i related to its value by
    [CMP(i)], which is [>] exactly when "field i is descending" XOR "the
    cursor is reversed" is false.  In particular, for the ordering
    [("-a", "b")], the position [(5, 10)] and a forward cursor, the
    predicate is [a < 5 or (a = 5 and b > 10)]. *)
Theorem disjunctive_filter_lexicographic :
  (∀ self cur values,
     cursor self = Some cur →
     NoDup (ordering_tuple self) →
     ordering_tuple self ≠ [] →
     length values = length (ordering_tuple self) →
     ∃ q, disjunctive_q_object self (JList values) = Ok q
          ∧ ∀ r, eval_Q r q
                 = lex_expansion r (reverse cur) (ordering_tuple self) values)
  ∧ (∀ self cur,
       cursor self = Some cur →
       reverse cur = false →
       ordering_tuple self = ["-a"; "b"] →
       ∃ q, disjunctive_q_object self (JList [JNum 5; JNum 10]) = Ok q
            ∧ ∀ r, eval_Q r q
                   = field_lt r "a" (JNum 5)
                     || (field_eq r "a" (JNum 5) && field_gt r "b" (JNum 10))).
Proof.
  split; [apply disjunctive_q_object_eval|].
  intros self cur Hcur Hfwd Hord.
  destruct (disjunctive_q_object_eval self cur [JNum 5; JNum 10] Hcur)
    as (q & Hq & Heval).
  - rewrite Hord. apply (bool_decide_unpack _). by vm_compute.
  - by rewrite Hord.
  - by rewrite Hord.
  - exists q. split; [done|]. intros r. rewrite Heval, Hord, Hfwd.
    unfold lex_expansion, lex_term, CMP. simpl.
    by rewrite orb_false_r, andb_true_r.
Qed.

End boundary.

Lemma disjunctive_filter_lexicographic_witness :
  let self :=
    set_cursor (Example.paginator (OTuple ["-field"; "timestamp"; "id"]) 2)
      (Some (mkCursor 0 true None)) in
  ∃ q, disjunctive_q_object self (JList [JStr "20"; JStr "9"; JStr "2"]) = Ok q
       ∧ ∀ r, eval_Q r q
              = lex_expansion r true ["-field"; "timestamp"; "id"]
                  [JStr "20"; JStr "9"; JStr "2"].
Proof.
  apply (proj1 disjunctive_filter_lexicographic
           (set_cursor (Example.paginator (OTuple ["-field"; "timestamp"; "id"]) 2)
              (Some (mkCursor 0 true None)))
           (mkCursor 0 true None) [JStr "20"; JStr "9"; JStr "2"]).
  - reflexivity.
  - apply (bool_decide_unpack _). vm_compute. exact I.
  - discriminate.
  - reflexivity.
Defined.

(** ** The tuple comparison *)

Section tuple.
Context `{Store} `{JsonLib}.
Local Open Scope nat_scope.

Lemma existsb_pointwise {A} (f g : A → bool) (l : list A) :
  (∀ a, f a = g a) → existsb f l = existsb g l.
Proof. intros Hfg. induction l as [|a l IH]; simpl; [done|]. by rewrite Hfg, IH. Qed.

Lemma existsb_prefix {A} (p c : A → bool) (l : list A) :
  existsb (λ i, forallb p (take i l)
                && match l !! i with Some x => c x | None => false end)
    (seq 0 (length l))
  = (fix go l := match l with
                 | [] => false
                 | x :: l' => c x || (p x && go l')
                 end) l.
Proof.
  induction l as [|x l IH]; [done|].
  simpl length. rewrite <- cons_seq, <- fmap_S_seq. simpl existsb at 1.
  f_equal. rewrite <- IH. clear IH.
  induction (seq 0 (length l)) as [|i s IHs]; csimpl; [by rewrite andb_false_r|].
  rewrite IHs. by rewrite andb_orb_distrib_r, andb_assoc.
Qed.

Lemma lex_expansion_pairs gt r traversal_reversed ordering values :
  length values = length ordering →
  (∀ o, o ∈ ordering → xorb (Str.startswith_dash o) traversal_reversed = negb gt) →
  lex_expansion r traversal_reversed ordering values
  = lex_pairs gt r (zip ordering values).
Proof.
  intros Hlen Hdir. unfold lex_expansion, lex_term.
  replace (length ordering) with (length (zip ordering values))
    by (rewrite length_zip; lia).
  transitivity
    (existsb (λ i, forallb (λ ov : string * json, field_eq r (Str.lstrip_dash ov.1) ov.2)
                     (take i (zip ordering values))
                   && match zip ordering values !! i with
                      | Some ov => CMP r traversal_reversed ov.1 ov.2
                      | None => false
                      end)
       (seq 0 (length (zip ordering values)))).
  { apply existsb_pointwise. intros i. f_equal.
    by destruct (zip ordering values !! i) as [[o v]|]. }
  rewrite (existsb_prefix
             (λ ov : string * json, field_eq r (Str.lstrip_dash ov.1) ov.2)
             (λ ov : string * json, CMP r traversal_reversed ov.1 ov.2)).
  assert (Hin : ∀ ov, ov ∈ zip ordering values
                      → xorb (Str.startswith_dash ov.1) traversal_reversed = negb gt).
  { intros [o v] Hov. apply Hdir. by eapply elem_of_zip_l. }
  induction (zip ordering values) as [|[o v] l IH]; [done|].
  simpl. rewrite IH by (intros ov Hov; apply Hin; by right).
  f_equal. unfold CMP. simpl.
  pose proof (Hin (o, v) ltac:(left)) as Hov. simpl in Hov. rewrite Hov.
  by destruct gt.
Qed.

Lemma row_value_compare_pairs gt r ordering values :
  length values = length ordering →
  row_value_compare gt r (Str.lstrip_dash <$> ordering)
    ((λ vf : json * string, Cast vf.1 vf.2)
       <$> zip values (Str.lstrip_dash <$> ordering))
  = lex_pairs gt r (zip ordering values).
Proof.
  revert values. induction ordering as [|o ordering IH]; intros [|v values] Hlen;
    try done.
  csimpl. rewrite IH by (simpl in Hlen; lia). done.
Qed.

Lemma uniform_direction self cur :
  ordering_tuple self ≠ [] →
  _uniform_ordering self = true →
  ∀ o, o ∈ ordering_tuple self →
       xorb (Str.startswith_dash o) (reverse cur)
       = negb ((_all_ascending self && negb (reverse cur))
               || (_all_descending self && negb (negb (reverse cur)))).
Proof.
  unfold _uniform_ordering, _all_ascending, _all_descending.
  intros Hne Huni o Ho.
  destruct (forallb id (Str.startswith_dash <$> ordering_tuple self)) eqn:Hdesc.
  - assert (Hasc : existsb id (Str.startswith_dash <$> ordering_tuple self) = true).
    { destruct (ordering_tuple self) as [|o' l]; [done|]. csimpl in *.
      apply andb_true_iff in Hdesc as [-> _]. done. }
    rewrite Hasc. simpl.
    rewrite forallb_forall in Hdesc.
    assert (Ho' : Str.startswith_dash o = true).
    { apply (Hdesc (Str.startswith_dash o)).
      apply list_elem_of_In, list_elem_of_fmap. by exists o. }
    rewrite Ho'. by destruct (reverse cur).
  - rewrite orb_false_r in Huni. apply negb_true_iff in Huni. rewrite Huni. simpl.
    assert (Ho' : Str.startswith_dash o = false).
    { destruct (Str.startswith_dash o) eqn:E; [|done].
      rewrite <- Huni. symmetry. apply existsb_exists. exists true.
      split; [|done]. apply list_elem_of_In, list_elem_of_fmap. by exists o. }
    rewrite Ho'. by destruct (reverse cur).
Qed.

Lemma tuple_comparison_run self cur queryset values :
  cursor self = Some cur →
  length values = length (ordering_tuple self) →
  Forall (λ o, has_field (Str.lstrip_dash o) = true) (ordering_tuple self) →
  tuple_comparison self queryset (JList values)
  = Ok (filter_qs (alias_cursor_tuple queryset (Str.lstrip_dash <$> ordering_tuple self))
          (FilterTuple
             ((_all_ascending self && negb (reverse cur))
              || (_all_descending self && negb (negb (reverse cur))))
             ((λ vf : json * string, Cast vf.1 vf.2)
                <$> zip values (Str.lstrip_dash <$> ordering_tuple self)))).
Proof.
  intros Hcur Hlen Hfields. unfold tuple_comparison, cursor_reverse.
  rewrite Hcur. simpl json_iter. rewrite bind_Ok.
  rewrite (mapM_Ok _ _ ((λ vf : json * string, Cast vf.1 vf.2)
                          <$> zip values (Str.lstrip_dash <$> ordering_tuple self))).
  - by rewrite !bind_Ok.
  - apply Forall2_fmap_r, Forall_Forall2_diag, Forall_forall.
    intros [v f] Hvf. apply elem_of_zip_r in Hvf.
    apply list_elem_of_fmap in Hvf as (o & -> & Ho).
    rewrite Forall_forall in Hfields. by rewrite (Hfields o Ho).
Qed.

Lemma tuple_where_eval self cur values q r :
  cursor self = Some cur →
  _uniform_ordering self = true →
  ordering_tuple self ≠ [] →
  length values = length (ordering_tuple self) →
  (∀ r, eval_Q r q = lex_expansion r (reverse cur) (ordering_tuple self) values) →
  eval_where r
    (WhereRow ((_all_ascending self && negb (reverse cur))
               || (_all_descending self && negb (negb (reverse cur))))
       (Some (Str.lstrip_dash <$> ordering_tuple self))
       ((λ vf : json * string, Cast vf.1 vf.2)
          <$> zip values (Str.lstrip_dash <$> ordering_tuple self)))
  = eval_where r (WhereQ q).
Proof.
  intros Hcur Huni Hne Hlen Heval. simpl.
  rewrite row_value_compare_pairs, Heval by done. symmetry.
  apply lex_expansion_pairs; [done|]. by apply uniform_direction.
Qed.

(** X19.  On an ordering whose specifiers are all ascending or all
    descending, without a repeated specifier and over fields that
    [get_field] finds, for a position list with one value for each
    specifier and for either direction of the cursor, the
    tuple-comparison branch and the disjunctive branch both build their
    filter, every row passes the one exactly when it passes the other
    (the row comparison of the store being the lexicographic one), and
    the filtered scans, and every slice of them, are the same. *)
Theorem tuple_comparison_selects_same_rows self cur queryset values :
  cursor self = Some cur →
  _uniform_ordering self = true →
  NoDup (ordering_tuple self) →
  ordering_tuple self ≠ [] →
  length values = length (ordering_tuple self) →
  Forall (λ o, has_field (Str.lstrip_dash o) = true) (ordering_tuple self) →
  ∃ by_tuple q,
    tuple_comparison self queryset (JList values) = Ok by_tuple
    ∧ disjunctive_q_object self (JList values) = Ok q
    ∧ (∀ r, forallb (eval_where r) (qs_where by_tuple)
            = forallb (eval_where r) (qs_where (filter_qs queryset (FilterQ q))))
    ∧ scan by_tuple = scan (filter_qs queryset (FilterQ q))
    ∧ ∀ start stop,
        slice_qs by_tuple start stop
        = slice_qs (filter_qs queryset (FilterQ q)) start stop.
Proof.
  intros Hcur Huni Hnd Hne Hlen Hfields.
  destruct (disjunctive_q_object_eval self cur values Hcur Hnd Hne Hlen)
    as (q & Hq & Heval).
  eexists. exists q.
  split; [by apply tuple_comparison_run|]. split; [done|].
  assert (Hrows : ∀ r,
            forallb (eval_where r)
              (qs_where
                 (filter_qs
                    (alias_cursor_tuple queryset (Str.lstrip_dash <$> ordering_tuple self))
                    (FilterTuple
                       ((_all_ascending self && negb (reverse cur))
                        || (_all_descending self && negb (negb (reverse cur))))
                       ((λ vf : json * string, Cast vf.1 vf.2)
                          <$> zip values (Str.lstrip_dash <$> ordering_tuple self)))))
            = forallb (eval_where r) (qs_where (filter_qs queryset (FilterQ q)))).
  { intros r. unfold filter_qs, alias_cursor_tuple. cbn [qs_where qs_cursor_tuple].
    rewrite !forallb_app. f_equal. cbn [forallb]. f_equal.
    by apply (tuple_where_eval self cur). }
  split; [exact Hrows|]. split.
  - unfold scan. cbn [filter_qs alias_cursor_tuple qs_order qs_rows].
    f_equal. apply List.filter_ext. exact Hrows.
  - intros start stop. unfold slice_qs.
    replace (forallb where_well_formed (qs_where (filter_qs queryset (FilterQ q))))
      with (forallb where_well_formed
              (qs_where
                 (filter_qs
                    (alias_cursor_tuple queryset (Str.lstrip_dash <$> ordering_tuple self))
                    (FilterTuple
                       ((_all_ascending self && negb (reverse cur))
                        || (_all_descending self && negb (negb (reverse cur))))
                       ((λ vf : json * string, Cast vf.1 vf.2)
                          <$> zip values (Str.lstrip_dash <$> ordering_tuple self)))))).
    + repeat case_match; try done. f_equal. f_equal. f_equal.
      unfold scan. cbn [filter_qs alias_cursor_tuple qs_order qs_rows].
      f_equal. apply List.filter_ext. exact Hrows.
    + unfold filter_qs, alias_cursor_tuple. cbn [qs_where qs_cursor_tuple].
      rewrite !forallb_app. f_equal. cbn [forallb where_well_formed]. f_equal.
      apply bool_decide_eq_true_2. split.
      * rewrite !length_fmap, length_zip, length_fmap. lia.
      * destruct (ordering_tuple self); [done|]. done.
Qed.

End tuple.

Lemma tuple_comparison_selects_same_rows_witness :
  let self :=
    set_cursor (Example.paginator (OTuple ["-field"; "-id"]) 2)
      (Some (mkCursor 0 false None)) in
  ∃ by_tuple q,
    tuple_comparison self Example.all_rows (JList [JStr "20"; JStr "4"]) = Ok by_tuple
    ∧ disjunctive_q_object self (JList [JStr "20"; JStr "4"]) = Ok q
    ∧ (∀ r, forallb (eval_where r) (qs_where by_tuple)
            = forallb (eval_where r)
                (qs_where (filter_qs Example.all_rows (FilterQ q))))
    ∧ scan by_tuple = scan (filter_qs Example.all_rows (FilterQ q))
    ∧ ∀ start stop,
        slice_qs by_tuple start stop
        = slice_qs (filter_qs Example.all_rows (FilterQ q)) start stop.
Proof.
  apply (tuple_comparison_selects_same_rows
           (set_cursor (Example.paginator (OTuple ["-field"; "-id"]) 2)
              (Some (mkCursor 0 false None)))
           (mkCursor 0 false None) Example.all_rows [JStr "20"; JStr "4"]).
  - reflexivity.
  - reflexivity.
  - apply (bool_decide_unpack _). vm_compute. exact I.
  - discriminate.
  - reflexivity.
  - repeat constructor.
Defined.

(** C3 on the alias [pk].  [get_ordering] takes [pk] for the unique key,
    and its assertion message names it as an ordering to use; the
    ordering [("pk",)] is uniformly ascending.  For the cursor after the
    key 2 the disjunctive branch returns the page of the rows 3 and 4,
    while with [use_tuple_comparison] set the same request raises
    [FieldDoesNotExist]: [get_field] does not find the alias. *)
Theorem tuple_comparison_pk_alias :
  let request := Example.request (Some "cD0lNUIlMjIyJTIyJTVE") in
  let by_tuple :=
    mkPaginator (OStr "pk") (Some 2) (Some 1000) true "cursor"
      "Invalid cursor" None false ∅ None [] None None None None in
  get_ordering by_tuple request Example.all_rows None = Ok ["pk"]
  ∧ decode_cursor by_tuple request
    = Ok (Some (mkCursor 0 false (Some (Example.dumps ["2"]))))
  ∧ should_use_tuple_comparison (set_ordering by_tuple (OTuple ["pk"])) = true
  ∧ snd <$> paginate_queryset (Example.paginator (OStr "pk") 2) Example.all_rows
              request None
    = Ok (Some [Example.mkRow 3 30 7; Example.mkRow 4 20 6])
  ∧ paginate_queryset by_tuple Example.all_rows request None
    = Raise (FieldDoesNotExist "pk").
Proof. repeat split; reflexivity. Qed.

(** ** The page window *)

Section window.
Context `{Store} `{JsonLib}.

Lemma get_position_from_instance_fields self instance ordering fields :
  row_position ordering instance = Some fields →
  _get_position_from_instance self instance ordering = Ok (json_dumps fields).
Proof.
  unfold row_position, _get_position_from_instance. intros Hfields.
  rewrite (mapM_Ok _ _ fields); [done|].
  apply mapM_Some_1 in Hfields.
  eapply Forall2_impl; [exact Hfields|]. intros o f Ho. simpl in Ho.
  by destruct (getattr instance (Str.lstrip_dash o)); simplify_eq/=.
Qed.

Lemma order_and_filter_attrs self queryset request view prepared filtered :
  order_and_filter self queryset request view = Ok (prepared, filtered) →
  page_size prepared = page_size self ∧ template prepared = template self.
Proof.
  unfold order_and_filter. intros Hrun.
  destruct (get_ordering _ _ _ _) as [resolved|]; [|done]. rewrite bind_Ok in Hrun.
  destruct (decode_cursor _ _) as [decoded|]; [|done]. rewrite bind_Ok in Hrun.
  destruct (cursor_fields _) as [[k rv] current].
  destruct current as [p|].
  - destruct (filter_by_position _ _ _); [|done]. by simplify_eq/=.
  - by simplify_eq/=.
Qed.

Lemma slice_to_take {A} (n : Z) (l : list A) :
  0 ≤ n → slice_to n l = take (Z.to_nat n) l.
Proof. intros Hn. unfold slice_to. by rewrite (proj2 (Z.ltb_ge n 0)). Qed.


Lemma slice_qs_window filtered k s :
  0 ≤ k → 0 < s →
  forallb where_well_formed (qs_where filtered) = true →
  slice_qs filtered k (k + s + 1)
  = Ok (take (Z.to_nat (s + 1)) (drop (Z.to_nat k) (scan filtered))).
Proof.
  intros Hk Hs Hwf. unfold slice_qs.
  rewrite (proj2 (Z.ltb_ge k 0)), (proj2 (Z.ltb_ge (k + s + 1) 0)) by lia.
  rewrite Hwf. simpl. do 2 f_equal. lia.
Qed.

Lemma fetch_page_window self filtered s :
  page_size self = Some s →
  0 < s →
  0 ≤ (cursor_fields (cursor self)).1.1 →
  forallb where_well_formed (qs_where filtered) = true →
  (∀ r, r ∈ scan filtered → is_Some (row_position (ordering_tuple self) r)) →
  let k := (cursor_fields (cursor self)).1.1 in
  let reversed := (cursor_fields (cursor self)).1.2 in
  let results := take (Z.to_nat (s + 1)) (drop (Z.to_nat k) (scan filtered)) in
  ∃ self',
    fetch_page self filtered = Ok (self', Some (page self'))
    ∧ slice_qs filtered k (k + s + 1) = Ok results
    ∧ page self' = (if reversed then rev (take (Z.to_nat s) results)
                    else take (Z.to_nat s) results)
    ∧ (length (page self') ≤ Z.to_nat s)%nat
    ∧ (if reversed then has_previous self' else has_next self')
      = Some (bool_decide (Z.to_nat s < length results)%nat)
    ∧ ((Z.to_nat s < length results)%nat →
       ∃ extra fields,
         scan filtered !! (Z.to_nat k + Z.to_nat s)%nat = Some extra
         ∧ results !! Z.to_nat s = Some extra
         ∧ row_position (ordering_tuple self) extra = Some fields
         ∧ (if reversed then previous_position self' else next_position self')
           = Some (Some (json_dumps fields)))
    ∧ (¬ (Z.to_nat s < length results)%nat →
       (if reversed then previous_position self' else next_position self')
       = (if reversed then previous_position self else next_position self)).
Proof.
  intros Hps Hs Hk Hwf Hattrs k reversed results.
  unfold fetch_page.
  destruct (cursor_fields (cursor self)) as [[k' reversed'] current] eqn:Hcf.
  simpl in Hk, k, reversed. subst k reversed.
  rewrite Hps. simpl default.
  rewrite (slice_qs_window _ _ _ Hk Hs Hwf), bind_Ok. fold results.
  rewrite slice_to_take by lia.
  assert (Hlen : (length results ≤ S (Z.to_nat s))%nat).
  { unfold results. rewrite length_take. lia. }
  assert (Hpage : (length (take (Z.to_nat s) results) ≤ Z.to_nat s)%nat).
  { rewrite length_take. lia. }
  cbn [page set_page].
  destruct (decide (Z.to_nat s < length results)%nat) as [Hmore|Hnomore].
  - assert (Hlt : (length (take (Z.to_nat s) results) < length results)%nat) by lia.
    rewrite (bool_decide_eq_true_2 _ Hlt).
    assert (Hextra : ∃ extra, results !! Z.to_nat s = Some extra)
      by (by apply lookup_lt_is_Some_2).
    destruct Hextra as [extra Hextra].
    assert (Hscan : scan filtered !! (Z.to_nat k' + Z.to_nat s)%nat = Some extra).
    { unfold results in Hextra. apply lookup_take_Some in Hextra as [Hextra _].
      by rewrite lookup_drop in Hextra. }
    destruct (Hattrs extra) as [fields Hfields].
    { apply list_elem_of_lookup. eauto. }
    assert (Hlast : last results = Some extra).
    { rewrite last_lookup. by replace (Init.Nat.pred (length results))
        with (Z.to_nat s) by lia. }
    unfold index_last. rewrite Hlast, bind_Ok.
    rewrite (get_position_from_instance_fields _ _ _ _ Hfields), !bind_Ok.
    rewrite (bool_decide_eq_true_2 _ Hmore).
    destruct reversed', (bool_decide (current ≠ None) || (0 <? k'));
      (eexists; split; [reflexivity|]); (split; [done|]); cbn;
      destruct (bool_decide (template self ≠ None)); cbn;
      (split; [done|]); (split; [by rewrite ?length_rev|]); (split; [done|]);
      (split; [|done]); intros _; exists extra, fields; done.
  - assert (Hge : ¬ (length (take (Z.to_nat s) results) < length results)%nat)
      by (rewrite length_take; lia).
    rewrite (bool_decide_eq_false_2 _ Hge).
    rewrite bind_Ok. rewrite (bool_decide_eq_false_2 _ Hnomore).
    destruct reversed', (bool_decide (current ≠ None) || (0 <? k'));
      (eexists; split; [reflexivity|]); (split; [done|]); cbn;
      destruct (bool_decide (template self ≠ None)); cbn;
      (split; [done|]); (split; [by rewrite ?length_rev|]); (split; [done|]);
      (split; [done|]); intros _; done.
Qed.

(** C4.  For a page request with page size s > 0 whose ordering, cursor
    and position filter are accepted, with the offset k >= 0 of the
    cursor, [paginate_queryset] slices the ordered, filtered scan to the
    window from k to k + s + 1, returns as the page the first s rows of
    that window (reversed back for a reversed cursor), at most s rows,
    and, exactly when the window holds more than s rows, takes the values
    of the ordering fields of the extra row, string-coerced and then
    serialized in the order of the ordering, as the following position
    ([next_position] of a forward cursor, [previous_position] of a
    reversed one); when the window holds no extra row that attribute is
    left as it was. *)
Theorem paginate_queryset_window self queryset request view s prepared filtered :
  page_size self = Some s →
  0 < s →
  order_and_filter (set_page_size self (get_page_size self request))
    queryset request view = Ok (prepared, filtered) →
  0 ≤ (cursor_fields (cursor prepared)).1.1 →
  forallb where_well_formed (qs_where filtered) = true →
  (∀ r, r ∈ scan filtered → is_Some (row_position (ordering_tuple prepared) r)) →
  let k := (cursor_fields (cursor prepared)).1.1 in
  let reversed := (cursor_fields (cursor prepared)).1.2 in
  let results := take (Z.to_nat (s + 1)) (drop (Z.to_nat k) (scan filtered)) in
  ∃ self',
    paginate_queryset self queryset request view = Ok (self', Some (page self'))
    ∧ slice_qs filtered k (k + s + 1) = Ok results
    ∧ page self' = (if reversed then rev (take (Z.to_nat s) results)
                    else take (Z.to_nat s) results)
    ∧ (length (page self') ≤ Z.to_nat s)%nat
    ∧ (if reversed then has_previous self' else has_next self')
      = Some (bool_decide (Z.to_nat s < length results)%nat)
    ∧ ((Z.to_nat s < length results)%nat →
       ∃ extra fields,
         scan filtered !! (Z.to_nat k + Z.to_nat s)%nat = Some extra
         ∧ results !! Z.to_nat s = Some extra
         ∧ row_position (ordering_tuple prepared) extra = Some fields
         ∧ (if reversed then previous_position self' else next_position self')
           = Some (Some (json_dumps fields)))
    ∧ (¬ (Z.to_nat s < length results)%nat →
       (if reversed then previous_position self' else next_position self')
       = (if reversed then previous_position prepared else next_position prepared)).
Proof.
  intros Hps Hs Hprep Hk Hwf Hattrs.
  destruct (order_and_filter_attrs _ _ _ _ _ _ Hprep) as [Hps' _].
  unfold get_page_size in Hps'. cbn in Hps'. rewrite Hps in Hps'.
  unfold paginate_queryset, get_page_size. cbn [page_size set_page_size].
  rewrite Hps. rewrite (proj2 (Z.eqb_neq s 0)) by lia.
  unfold get_page_size in Hprep. rewrite Hps in Hprep. rewrite Hprep, bind_Ok.
  by apply fetch_page_window.
Qed.

End window.

Lemma paginate_queryset_window_witness :
  ∃ self',
    paginate_queryset (Example.paginator (OStr "id") 2) Example.all_rows
      (Example.request (Some "cD0lNUIlMjIyJTIyJTVE")) None
    = Ok (self', Some (page self'))
    ∧ cursor self' = Some (mkCursor 0 false (Some (Example.dumps ["2"])))
    ∧ page self' = [Example.mkRow 3 30 7; Example.mkRow 4 20 6]
    ∧ has_next self' = Some true
    ∧ next_position self' = Some (Some (Example.dumps ["5"])).
Proof.
  destruct (paginate_queryset_window (Example.paginator (OStr "id") 2)
              Example.all_rows (Example.request (Some "cD0lNUIlMjIyJTIyJTVE")) None 2
              (set_cursor
                 (set_ordering
                    (set_base_url (Example.paginator (OStr "id") 2)
                       {[ "cursor" := "cD0lNUIlMjIyJTIyJTVE" ]})
                    (OTuple ["id"]))
                 (Some (mkCursor 0 false (Some (Example.dumps ["2"])))))
              (filter_qs (order_by Example.all_rows ["id"])
                 (FilterQ (QOr (Lookup "id__gt" (JStr "2")) (Lookup "id__gt" (JStr "2"))))))
    as (self' & Hrun & _ & Hpage & _ & Hnext & Hfollowing & _).
  - reflexivity.
  - reflexivity.
  - reflexivity.
  - (cbn; lia).
  - reflexivity.
  - intros r _. by eexists.
  - exists self'. split; [exact Hrun|].
    destruct (Hfollowing ltac:(vm_compute; lia)) as (extra & fields & Hscan & _ & Hfields & Hpos).
    vm_compute in Hscan. injection Hscan as <-.
    vm_compute in Hfields. injection Hfields as <-.
    split; [|split; [exact Hpage|split; [exact Hnext|exact Hpos]]].
    assert (Hc : (λ x : Paginator * option (list row), cursor x.1)
                   <$> paginate_queryset (Example.paginator (OStr "id") 2)
                         Example.all_rows
                         (Example.request (Some "cD0lNUIlMjIyJTIyJTVE")) None
                 = Ok (Some (mkCursor 0 false (Some (Example.dumps ["2"])))))
      by reflexivity.
    rewrite Hrun in Hc. by injection Hc.
Defined.

(** Five rows with the keys 1 to 5, ordered by [id], pages of two rows:
    the first request has no cursor, the next ones carry the position of
    the last row of the page before, and the last one walks back from
    row 3. *)
Example windowing_first_page :
  page_summary (paginate_queryset (Example.paginator (OStr "id") 2) Example.all_rows
                  (Example.request None) None)
  = Ok ([1; 2], Some false, Some true).
Proof. reflexivity. Qed.

Example windowing_second_page :
  page_summary (paginate_queryset (Example.paginator (OStr "id") 2) Example.all_rows
                  (Example.request (Some "cD0lNUIlMjIyJTIyJTVE")) None)
  = Ok ([3; 4], Some true, Some true).
Proof. reflexivity. Qed.

Example windowing_third_page :
  page_summary (paginate_queryset (Example.paginator (OStr "id") 2) Example.all_rows
                  (Example.request (Some "cD0lNUIlMjI0JTIyJTVE")) None)
  = Ok ([5], Some true, Some false).
Proof. reflexivity. Qed.

Example windowing_reverse_page :
  page_summary (paginate_queryset (Example.paginator (OStr "id") 2) Example.all_rows
                  (Example.request (Some "cj0xJnA9JTVCJTIyMyUyMiU1RA==")) None)
  = Ok ([1; 2], Some false, Some true).
Proof. reflexivity. Qed.

(** ** Positions with another number of values than the ordering *)

Section position_count.
Context `{Store} `{JsonLib}.
Local Open Scope nat_scope.

Lemma q_objects_extra ordering cursor_reverse values :
  q_objects ordering cursor_reverse (take (length ordering) values)
  = q_objects ordering cursor_reverse values.
Proof. unfold q_objects. by rewrite zip_with_take_r. Qed.

Lemma disjunctive_q_object_extra self values :
  disjunctive_q_object self (JList (take (length (ordering_tuple self)) values))
  = disjunctive_q_object self (JList values).
Proof.
  unfold disjunctive_q_object. simpl json_iter. rewrite !bind_Ok.
  destruct (cursor_reverse self) as [rv|]; [|done]. rewrite !bind_Ok.
  by rewrite q_objects_extra.
Qed.

Lemma tuple_comparison_extra self queryset values :
  tuple_comparison self queryset (JList (take (length (ordering_tuple self)) values))
  = tuple_comparison self queryset (JList values).
Proof.
  unfold tuple_comparison. simpl json_iter. rewrite !bind_Ok.
  replace (length (ordering_tuple self))
    with (length (Str.lstrip_dash <$> ordering_tuple self)) by apply length_fmap.
  by rewrite zip_with_take_l.
Qed.

(** C5, as amended.  The number of values of the position is not
    compared with the length of the ordering.  When the position decodes
    to a list with at least as many values as the ordering has
    specifiers, the values beyond the ordering are dropped: the filter by
    the position is built, and it is the filter of the position cut to the
    length of the ordering. *)
Theorem position_extra_values_ignored self cur queryset p p' values :
  cursor self = Some cur →
  json_loads p = Ok (JList values) →
  json_loads p' = Ok (JList (take (length (ordering_tuple self)) values)) →
  NoDup (ordering_tuple self) →
  ordering_tuple self ≠ [] →
  length (ordering_tuple self) ≤ length values →
  Forall (λ o, has_field (Str.lstrip_dash o) = true) (ordering_tuple self) →
  filter_by_position self queryset p = filter_by_position self queryset p'
  ∧ ∃ filtered, filter_by_position self queryset p = Ok filtered.
Proof.
  intros Hcur Hp Hp' Hnd Hne Hlen Hfields.
  assert (Heq : filter_by_position self queryset p
                = filter_by_position self queryset p').
  { unfold filter_by_position. rewrite Hp, Hp', !bind_Ok.
    by rewrite tuple_comparison_extra, disjunctive_q_object_extra. }
  split; [exact Heq|]. rewrite Heq.
  unfold filter_by_position. rewrite Hp', bind_Ok.
  assert (Hcut : length (take (length (ordering_tuple self)) values)
                 = length (ordering_tuple self)) by (rewrite length_take; lia).
  destruct (should_use_tuple_comparison self).
  - rewrite (tuple_comparison_run self cur) by done. by eexists.
  - destruct (disjunctive_q_object_eval self cur _ Hcur Hnd Hne Hcut)
      as (q & -> & _).
    rewrite bind_Ok. by eexists.
Qed.

End position_count.

Lemma position_extra_values_ignored_witness :
  let self :=
    set_cursor (Example.paginator (OTuple ["id"]) 2)
      (Some (mkCursor 0 false (Some (Example.dumps ["2"; "7"; "9"])))) in
  filter_by_position self (order_by Example.all_rows ["id"])
    (Example.dumps ["2"; "7"; "9"])
  = filter_by_position self (order_by Example.all_rows ["id"]) (Example.dumps ["2"])
  ∧ ∃ filtered,
      filter_by_position self (order_by Example.all_rows ["id"])
        (Example.dumps ["2"; "7"; "9"]) = Ok filtered.
Proof.
  apply (position_extra_values_ignored
           (set_cursor (Example.paginator (OTuple ["id"]) 2)
              (Some (mkCursor 0 false (Some (Example.dumps ["2"; "7"; "9"])))))
           (mkCursor 0 false (Some (Example.dumps ["2"; "7"; "9"])))
           (order_by Example.all_rows ["id"])
           (Example.dumps ["2"; "7"; "9"]) (Example.dumps ["2"])
           [JStr "2"; JStr "7"; JStr "9"]).
  - reflexivity.
  - vm_compute. reflexivity.
  - vm_compute. reflexivity.
  - apply (bool_decide_unpack _). vm_compute. exact I.
  - discriminate.
  - vm_compute. lia.
  - repeat constructor.
Defined.

(** C5, as stated, fails on a cursor whose position has three values
    while the resolved ordering has one: the token is decoded, the
    position is read as a list of three values, and the page request
    returns the page after the key 2 instead of failing. *)
Lemma paginate_position_of_three_values :
  decode_cursor (Example.paginator (OStr "id") 2)
    (Example.request (Some "cD0lNUIlMjIyJTIyJTJDKyUyMjclMjIlMkMrJTIyOSUyMiU1RA=="))
  = Ok (Some (mkCursor 0 false (Some (Example.dumps ["2"; "7"; "9"]))))
  ∧ json_loads (Example.dumps ["2"; "7"; "9"]) = Ok (JList [JStr "2"; JStr "7"; JStr "9"])
  ∧ get_ordering (Example.paginator (OStr "id") 2)
      (Example.request (Some "cD0lNUIlMjIyJTIyJTJDKyUyMjclMjIlMkMrJTIyOSUyMiU1RA=="))
      Example.all_rows None = Ok ["id"]
  ∧ snd <$> paginate_queryset (Example.paginator (OStr "id") 2) Example.all_rows
              (Example.request
                 (Some "cD0lNUIlMjIyJTIyJTJDKyUyMjclMjIlMkMrJTIyOSUyMiU1RA==")) None
    = Ok (Some [Example.mkRow 3 30 7; Example.mkRow 4 20 6]).
Proof. repeat split; reflexivity. Qed.

(** A position with fewer values than the ordering is not turned into
    the error of an invalid cursor either: the lookup of the missing
    specifier in [q_objects_compare] raises [KeyError]. *)
Lemma paginate_position_of_no_value :
  decode_cursor (Example.paginator (OStr "id") 2)
    (Example.request (Some "cD0lNUIlNUQ="))
  = Ok (Some (mkCursor 0 false (Some (Example.dumps []))))
  ∧ paginate_queryset (Example.paginator (OStr "id") 2) Example.all_rows
      (Example.request (Some "cD0lNUIlNUQ=")) None
    = Raise (KeyError "id").
Proof. repeat split; reflexivity. Qed.

(** ** The codecs of the cursor token *)

Lemma forall_bool_spec f : forall_bool f = true → ∀ b, f b = true.
Proof. unfold forall_bool. intros [Ht Hf]%andb_true_iff []; done. Qed.

Lemma forall_ascii_spec f : forall_ascii f = true → ∀ c, f c = true.
Proof.
  unfold forall_ascii. intros Hall [b0 b1 b2 b3 b4 b5 b6 b7].
  revert b7. apply forall_bool_spec. revert b6. apply forall_bool_spec.
  revert b5. apply forall_bool_spec. revert b4. apply forall_bool_spec.
  revert b3. apply forall_bool_spec. revert b2. apply forall_bool_spec.
  revert b1. apply forall_bool_spec. revert b0. apply forall_bool_spec.
  exact Hall.
Qed.

Module B64Facts.
Import Base64 Base64Checks.
Local Open Scope N_scope.

Lemma is_data_spec c v : is_data c v = true → classify c = Data v.
Proof.
  unfold is_data. destruct (classify c); try done. by intros ->%N.eqb_eq.
Qed.

Lemma check0_all x : check0 x = true.
Proof. revert x. apply forall_ascii_spec. vm_compute. reflexivity. Qed.

Lemma check1_all x y : check1 x y = true.
Proof.
  revert y. apply forall_ascii_spec. revert x. apply forall_ascii_spec.
  vm_compute. reflexivity.
Qed.

Lemma check2_all y z : check2 y z = true.
Proof.
  revert z. apply forall_ascii_spec. revert y. apply forall_ascii_spec.
  vm_compute. reflexivity.
Qed.


Lemma string_ind3 (P : string → Prop) :
  P "" →
  (∀ x, P (String x "")) →
  (∀ x y, P (String x (String y ""))) →
  (∀ x y z t, P t → P (String x (String y (String z t)))) →
  ∀ s, P s.
Proof.
  intros H0 H1 H2 H3 s.
  assert (Hall : P s ∧ (∀ x, P (String x s)) ∧ (∀ x y, P (String x (String y s)))).
  { induction s as [|c s (IH0 & IH1 & IH2)]; [by auto|].
    split; [apply IH1|]. split; [intros x; apply IH2|]. intros x y. by apply H3. }
  apply Hall.
Qed.

Lemma a2b_loop_data quad_pos leftchar pads c v t :
  classify c = Data v →
  a2b_loop quad_pos leftchar pads (String c t)
  = match quad_pos with
    | 0%nat => a2b_loop 1 v 0 t
    | 1%nat =>
        String (ascii_of_N (N.lor (N.shiftl leftchar 2) (N.shiftr v 4)))
          <$> a2b_loop 2 (N.land v 15) 0 t
    | 2%nat =>
        String (ascii_of_N (N.lor (N.shiftl leftchar 4) (N.shiftr v 2)))
          <$> a2b_loop 3 (N.land v 3) 0 t
    | _ =>
        String (ascii_of_N (N.lor (N.shiftl leftchar 6) v))
          <$> a2b_loop 0 0 0 t
    end.
Proof. intros Hc. simpl. by rewrite Hc. Qed.

Lemma check0_facts x :
  (Str.is_ascii_char (table_b2a (sextet0 x)) = true
   ∧ Str.is_ascii_char (table_b2a (sextet3 x)) = true
   ∧ Str.is_ascii_char (table_b2a (N.shiftl (N.land (N_of_ascii x) 3) 4)) = true
   ∧ Str.is_ascii_char (table_b2a (N.shiftl (N.land (N_of_ascii x) 15) 2)) = true)
  ∧ (classify (table_b2a (sextet0 x)) = Data (sextet0 x)
     ∧ classify (table_b2a (sextet3 x)) = Data (sextet3 x)
     ∧ classify (table_b2a (N.shiftl (N.land (N_of_ascii x) 3) 4))
       = Data (N.shiftl (N.land (N_of_ascii x) 3) 4)
     ∧ classify (table_b2a (N.shiftl (N.land (N_of_ascii x) 15) 2))
       = Data (N.shiftl (N.land (N_of_ascii x) 15) 2))
  ∧ ascii_of_N (N.lor (N.shiftl (N.shiftr (N_of_ascii x) 6) 6) (sextet3 x)) = x
  ∧ ascii_of_N (N.lor (N.shiftl (sextet0 x) 2)
                  (N.shiftr (N.shiftl (N.land (N_of_ascii x) 3) 4) 4)) = x.
Proof.
  pose proof (check0_all x) as Hx. unfold check0 in Hx.
  rewrite !andb_true_iff in Hx.
  destruct Hx as [[[[[[[[[a0 a3] at1] at2] d0] d3] dt1] dt2] o3] ot1].
  repeat split; try done; try (by apply is_data_spec); by apply Ascii.eqb_eq.
Qed.

Lemma check1_facts x y :
  Str.is_ascii_char (table_b2a (sextet1 x y)) = true
  ∧ classify (table_b2a (sextet1 x y)) = Data (sextet1 x y)
  ∧ ascii_of_N (N.lor (N.shiftl (sextet0 x) 2) (N.shiftr (sextet1 x y) 4)) = x
  ∧ N.land (sextet1 x y) 15 = N.shiftr (N_of_ascii y) 4.
Proof.
  pose proof (check1_all x y) as Hxy. unfold check1 in Hxy.
  rewrite !andb_true_iff in Hxy. destruct Hxy as [[[a1 d1] o1] l1].
  repeat split; [done|by apply is_data_spec|by apply Ascii.eqb_eq|by apply N.eqb_eq].
Qed.

Lemma check2_facts y z :
  Str.is_ascii_char (table_b2a (sextet2 y z)) = true
  ∧ classify (table_b2a (sextet2 y z)) = Data (sextet2 y z)
  ∧ ascii_of_N (N.lor (N.shiftl (N.shiftr (N_of_ascii y) 4) 4)
                  (N.shiftr (sextet2 y z) 2)) = y
  ∧ N.land (sextet2 y z) 3 = N.shiftr (N_of_ascii z) 6
  ∧ ascii_of_N (N.lor (N.shiftl (N.shiftr (N_of_ascii y) 4) 4)
                  (N.shiftr (N.shiftl (N.land (N_of_ascii y) 15) 2) 2)) = y.
Proof.
  pose proof (check2_all y z) as Hyz. unfold check2 in Hyz.
  rewrite !andb_true_iff in Hyz. destruct Hyz as [[[[a2 d2] o2] l2] ot2].
  repeat split; [done|by apply is_data_spec|by apply Ascii.eqb_eq|by apply N.eqb_eq
                |by apply Ascii.eqb_eq].
Qed.

Lemma b64decode_b64encode b : b64decode (b64encode b) = Ok b.
Proof.
  unfold b64decode. generalize 0%N at 1. generalize 0%nat at 2.
  induction b as [|x|x y|x y z t IH] using string_ind3; intros pads leftchar.
  - done.
  - destruct (check0_facts x) as (_ & (d0 & _ & dt1 & _) & _ & ot1).
    cbn [b64encode].
    rewrite (a2b_loop_data _ _ _ _ _ _ d0). cbv iota.
    rewrite (a2b_loop_data _ _ _ _ _ _ dt1). cbv iota.
    fold (sextet0 x). by rewrite ot1.
  - destruct (check0_facts x) as (_ & (d0 & _) & _).
    destruct (check0_facts y) as (_ & (_ & _ & _ & dt2) & _).
    destruct (check1_facts x y) as (_ & d1 & o1 & l1).
    destruct (check2_facts y y) as (_ & _ & _ & _ & ot2).
    cbn [b64encode].
    rewrite (a2b_loop_data _ _ _ _ _ _ d0). cbv iota.
    rewrite (a2b_loop_data _ _ _ _ _ _ d1). cbv iota.
    rewrite (a2b_loop_data _ _ _ _ _ _ dt2). cbv iota.
    fold (sextet0 x). by rewrite o1, l1, ot2.
  - destruct (check0_facts x) as (_ & (d0 & _) & _).
    destruct (check0_facts z) as (_ & (_ & d3 & _) & o3 & _).
    destruct (check1_facts x y) as (_ & d1 & o1 & l1).
    destruct (check2_facts y z) as (_ & d2 & o2 & l2 & _).
    cbn [b64encode].
    rewrite (a2b_loop_data _ _ _ _ _ _ d0). cbv iota.
    rewrite (a2b_loop_data _ _ _ _ _ _ d1). cbv iota.
    rewrite (a2b_loop_data _ _ _ _ _ _ d2). cbv iota.
    rewrite (a2b_loop_data _ _ _ _ _ _ d3). cbv iota.
    fold (sextet0 x). by rewrite o1, l1, o2, l2, o3, IH.
Qed.

Lemma b64encode_is_ascii b : Str.is_ascii (b64encode b) = true.
Proof.
  induction b as [|x|x y|x y z t IH] using string_ind3.
  - done.
  - destruct (check0_facts x) as ((a0 & _ & at1 & _) & _).
    cbn [b64encode Str.is_ascii]. fold (sextet0 x). by rewrite a0, at1.
  - destruct (check0_facts x) as ((a0 & _) & _).
    destruct (check0_facts y) as ((_ & _ & _ & at2) & _).
    destruct (check1_facts x y) as (a1 & _).
    cbn [b64encode Str.is_ascii]. fold (sextet0 x) (sextet1 x y).
    by rewrite a0, a1, at2.
  - destruct (check0_facts x) as ((a0 & _) & _).
    destruct (check0_facts z) as ((_ & a3 & _) & _).
    destruct (check1_facts x y) as (a1 & _).
    destruct (check2_facts y z) as (a2 & _).
    cbn [b64encode Str.is_ascii].
    fold (sextet0 x) (sextet1 x y) (sextet2 y z) (sextet3 z).
    by rewrite a0, a1, a2, a3, IH.
Qed.

End B64Facts.

Module UrlFacts.
Import Urllib.

Lemma quote_plus_cons_unquote c t :
  unquote (plus_to_space (quote_plus (String c t)))
  = String c (unquote (plus_to_space (quote_plus t))).
Proof. destruct c as [[] [] [] [] [] [] [] []]; reflexivity. Qed.

Lemma quote_plus_cons_lacks_amp c t :
  lacks "&" (quote_plus (String c t)) = lacks "&" (quote_plus t).
Proof. destruct c as [[] [] [] [] [] [] [] []]; reflexivity. Qed.

Lemma quote_plus_cons_lacks_eq c t :
  lacks "=" (quote_plus (String c t)) = lacks "=" (quote_plus t).
Proof. destruct c as [[] [] [] [] [] [] [] []]; reflexivity. Qed.

Lemma quote_plus_cons_is_ascii c t :
  Str.is_ascii (quote_plus (String c t)) = Str.is_ascii (quote_plus t).
Proof. destruct c as [[] [] [] [] [] [] [] []]; reflexivity. Qed.

Lemma unquote_quote_plus s : unquote (plus_to_space (quote_plus s)) = s.
Proof.
  induction s as [|c t IH]; [done|]. by rewrite quote_plus_cons_unquote, IH.
Qed.

Lemma quote_plus_lacks_amp s : lacks "&" (quote_plus s) = true.
Proof.
  induction s as [|c t IH]; [done|]. by rewrite quote_plus_cons_lacks_amp.
Qed.

Lemma quote_plus_lacks_eq s : lacks "=" (quote_plus s) = true.
Proof.
  induction s as [|c t IH]; [done|]. by rewrite quote_plus_cons_lacks_eq.
Qed.

Lemma quote_plus_is_ascii s : Str.is_ascii (quote_plus s) = true.
Proof.
  induction s as [|c t IH]; [done|]. by rewrite quote_plus_cons_is_ascii.
Qed.

End UrlFacts.

Section int_facts.
Local Open Scope Z_scope.

Lemma string_of_uint_digits d : all_digits (NilEmpty.string_of_uint d) = true.
Proof. induction d; simpl; done. Qed.

Lemma is_digit_not_space c : Str.is_digit c = true → Str.is_space c = false.
Proof. destruct c as [[] [] [] [] [] [] [] []]; done. Qed.

Lemma is_digit_not_sign c :
  Str.is_digit c = true → c ≠ "-"%char ∧ c ≠ "+"%char ∧ c ≠ "_"%char.
Proof. destruct c as [[] [] [] [] [] [] [] []]; done. Qed.

Lemma digits_rstrip s : all_digits s = true → Str.rstrip_space s = s.
Proof.
  induction s as [|c t IH]; [done|]. simpl. intros [Hc Ht]%andb_true_iff.
  by rewrite (is_digit_not_space c Hc), IH.
Qed.

Lemma digits_strip s : all_digits s = true → Str.strip_space s = s.
Proof.
  intros Hs. unfold Str.strip_space.
  replace (Str.lstrip_space s) with s; [by apply digits_rstrip|].
  destruct s as [|c t]; [done|]. simpl in *.
  apply andb_true_iff in Hs as [Hc _]. by rewrite (is_digit_not_space c Hc).
Qed.

Lemma digits_literal s prev :
  all_digits s = true → (s ≠ "" ∨ prev = true) →
  Str.literal_digits prev s = Some s.
Proof.
  revert prev. induction s as [|c t IH]; intros prev Hs Hne.
  - destruct Hne as [Hne | ->]; done.
  - simpl in *. apply andb_true_iff in Hs as [Hc Ht].
    rewrite Hc, IH; [done|done|by right].
Qed.

Lemma digits_split_sign s : all_digits s = true → Str.split_sign s = (false, s).
Proof.
  destruct s as [|c t]; [done|]. simpl. intros [Hc _]%andb_true_iff.
  destruct c as [[] [] [] [] [] [] [] []]; done.
Qed.

Lemma int_of_digits d :
  d ≠ Decimal.Nil →
  Str.int (NilEmpty.string_of_uint d) = Ok (Z.of_N (N.of_uint d)).
Proof.
  intros Hd. unfold Str.int.
  pose proof (string_of_uint_digits d) as Hdigits.
  rewrite digits_strip, digits_split_sign by done.
  rewrite digits_literal by (done || (left; by destruct d)). simpl.
  by rewrite NilEmpty.usu.
Qed.

Lemma int_of_int n : 0 ≤ n → Str.int (Str.of_int n) = Ok n.
Proof.
  intros Hn. unfold Str.of_int. rewrite (proj2 (Z.ltb_ge n 0)) by done.
  assert (Hnn : N.to_uint (Z.to_N n) ≠ Decimal.Nil).
  { destruct (Z.to_N n); [done|]. apply Unsigned.to_uint_nonnil. }
  replace (NilZero.string_of_uint (N.to_uint (Z.to_N n)))
    with (NilEmpty.string_of_uint (N.to_uint (Z.to_N n)))
    by (by destruct (N.to_uint (Z.to_N n))).
  by rewrite int_of_digits, DecimalN.Unsigned.of_to, Z2N.id.
Qed.

End int_facts.

(** ** The round trip of the cursor *)

Section querystring_facts.
Import Urllib UrlFacts.

Lemma lacks_app c a b : lacks c (a +:+ b) = lacks c a && lacks c b.
Proof. induction a as [|x a IH]; simpl; [done|]. by rewrite IH, andb_assoc. Qed.

Lemma is_ascii_app a b : Str.is_ascii (a +:+ b) = Str.is_ascii a && Str.is_ascii b.
Proof. induction a as [|x a IH]; simpl; [done|]. by rewrite IH, andb_assoc. Qed.

Lemma split_on_lacks c a : lacks c a = true → split_on c a = [a].
Proof.
  induction a as [|x a IH]; simpl; [done|].
  intros [Hx Ha]%andb_true_iff. apply negb_true_iff, Ascii.eqb_neq in Hx.
  rewrite decide_False by done. by rewrite IH.
Qed.

Lemma split_on_app c a b :
  lacks c a = true → split_on c (a +:+ String c b) = a :: split_on c b.
Proof.
  induction a as [|x a IH]; simpl.
  - intros _. by rewrite decide_True.
  - intros [Hx Ha]%andb_true_iff. apply negb_true_iff, Ascii.eqb_neq in Hx.
    rewrite decide_False by done. by rewrite IH.
Qed.

Lemma split_eq_app a b :
  lacks "=" a = true → split_eq (a +:+ String "=" b) = (a, Some b).
Proof.
  induction a as [|x a IH]; simpl; [done|].
  intros [Hx Ha]%andb_true_iff. apply negb_true_iff, Ascii.eqb_neq in Hx.
  rewrite decide_False by done. by rewrite IH.
Qed.

Lemma query_item_lacks_amp kv : lacks "&" (query_item kv) = true.
Proof.
  unfold query_item. rewrite lacks_app. simpl.
  by rewrite !quote_plus_lacks_amp.
Qed.

Lemma query_item_is_ascii kv : Str.is_ascii (query_item kv) = true.
Proof.
  unfold query_item. rewrite is_ascii_app. simpl.
  by rewrite !quote_plus_is_ascii.
Qed.

Lemma query_item_nonempty kv : query_item kv ≠ "".
Proof. unfold query_item. by destruct (quote_plus kv.1). Qed.

Lemma urlencode_cons kv l :
  urlencode (kv :: l)
  = match l with
    | [] => query_item kv
    | _ => query_item kv +:+ String "&" (urlencode l)
    end.
Proof. by destruct l. Qed.

Lemma parse_qsl_urlencode l : parse_qsl (urlencode l) = l.
Proof.
  unfold parse_qsl.
  assert (Hitem : ∀ kv : string * string,
            (if decide (query_item kv = "") then None
             else let '(n, v) := split_eq (query_item kv) in
                  Some (unquote (plus_to_space n),
                        unquote (plus_to_space (default "" v))))
            = Some kv).
  { intros [k v]. rewrite decide_False by apply query_item_nonempty.
    unfold query_item. rewrite split_eq_app by apply quote_plus_lacks_eq.
    simpl. by rewrite !unquote_quote_plus. }
  induction l as [|kv l IH]; [done|].
  rewrite urlencode_cons. destruct l as [|kv' l].
  - rewrite split_on_lacks by apply query_item_lacks_amp. simpl.
    by rewrite Hitem.
  - rewrite split_on_app by apply query_item_lacks_amp. simpl omap.
    rewrite Hitem. simpl. f_equal. exact IH.
Qed.

Lemma urlencode_is_ascii l : Str.is_ascii (urlencode l) = true.
Proof.
  induction l as [|kv l IH]; [done|].
  rewrite urlencode_cons. destruct l as [|kv' l].
  - apply query_item_is_ascii.
  - rewrite is_ascii_app, query_item_is_ascii. simpl. exact IH.
Qed.

Lemma cursor_tokens_values c :
  token_value "o" "0" (urlencode (cursor_tokens c))
  = (if offset c =? 0 then "0" else Str.of_int (offset c))
  ∧ token_value "r" "0" (urlencode (cursor_tokens c))
    = (if reverse c then "1" else "0")
  ∧ token_position (urlencode (cursor_tokens c)) = position c.
Proof.
  unfold token_value, token_position, parse_qs.
  rewrite parse_qsl_urlencode. unfold cursor_tokens.
  generalize (Str.of_int (offset c)). intros o.
  destruct (offset c =? 0), (reverse c), (position c) as [p|];
    vm_compute; done.
Qed.

End querystring_facts.

Section codec.
Context `{Store} `{JsonLib}.
Local Open Scope Z_scope.

Lemma encode_cursor_tokens self c :
  encode_cursor self c
  = Ok (replace_query_param (base_url self) (cursor_query_param self)
          (Base64.b64encode (Urllib.urlencode (cursor_tokens c)))).
Proof.
  unfold encode_cursor.
  replace (Urllib.urlencode _) with (Urllib.urlencode (cursor_tokens c))
    by (unfold cursor_tokens; by destruct (offset c =? 0), (reverse c), (position c)).
  unfold Str.encode_ascii, Str.decode_ascii.
  by rewrite urlencode_is_ascii, bind_Ok, B64Facts.b64encode_is_ascii, bind_Ok.
Qed.

(** C2, as amended.  For every cursor whose offset is a non-negative
    integer that does not exceed the [offset_cutoff] when that is a
    non-zero integer, whose reverse flag is a boolean and whose position
    is absent or a string, [encode_cursor] returns a URL, and decoding the
    request for that URL gives the cursor back. *)
Theorem decode_encode_cursor self c :
  0 ≤ offset c →
  (∀ k, offset_cutoff self = Some k → k ≠ 0 → offset c ≤ k) →
  ∃ url, encode_cursor self c = Ok url
         ∧ decode_cursor self (request_for url) = Ok (Some c).
Proof.
  intros Hoff Hcut. eexists. split; [apply encode_cursor_tokens|].
  destruct (cursor_tokens_values c) as (Ho & Hr & Hp).
  rewrite (decode_cursor_reads self _
             (Base64.b64encode (Urllib.urlencode (cursor_tokens c)))
             (Urllib.urlencode (cursor_tokens c))
             (offset c) (if reverse c then 1 else 0)).
  - rewrite Hp. f_equal. f_equal. destruct c as [o r p]. simpl in *. f_equal.
    + unfold clamp. destruct (offset_cutoff self) as [k|] eqn:Hk; [|done].
      destruct (k =? 0) eqn:Hk0; [done|]. apply Z.min_l.
      apply Hcut; [done|]. by apply Z.eqb_neq.
    + by destruct r.
  - unfold request_for, replace_query_param. simpl. apply lookup_insert_eq.
  - unfold token_reads.
    rewrite B64Facts.b64encode_is_ascii, B64Facts.b64decode_b64encode,
      urlencode_is_ascii, Ho, Hr.
    repeat split; try done.
    + destruct (offset c =? 0) eqn:Hz.
      * apply Z.eqb_eq in Hz. by rewrite Hz.
      * by apply int_of_int.
    + by destruct (reverse c).
Qed.

End codec.

Lemma decode_encode_cursor_witness :
  ∃ url,
    encode_cursor (Example.paginator (OStr "id") 2)
      (mkCursor 1000 true (Some (Example.dumps ["5"; "a b"]))) = Ok url
    ∧ decode_cursor (Example.paginator (OStr "id") 2) (request_for url)
      = Ok (Some (mkCursor 1000 true (Some (Example.dumps ["5"; "a b"])))).
Proof.
  apply (decode_encode_cursor (Example.paginator (OStr "id") 2)
           (mkCursor 1000 true (Some (Example.dumps ["5"; "a b"])))).
  - simpl. lia.
  - simpl. intros k [= <-] _. lia.
Defined.

(** * Further properties of the module *)

(** ** The helper [_positive_int] *)

(** X1.  With no cutoff or a cutoff that is not negative, what
    [_positive_int] returns is never negative, is positive under
    [strict], and does not exceed a non-zero cutoff; and when it raises,
    it raises [ValueError]. *)
Theorem positive_int_range integer_string strict cutoff :
  (∀ c, cutoff = Some c → 0 ≤ c) →
  match _positive_int integer_string strict cutoff with
  | Ok ret =>
      0 ≤ ret
      ∧ (strict = true → 0 < ret)
      ∧ (∀ c, cutoff = Some c → c ≠ 0 → ret ≤ c)
  | Raise e => e = ValueError
  end.
Proof.
  intros Hcut. unfold _positive_int.
  destruct (Str.int integer_string) as [ret|e] eqn:Hint; simpl;
    [|by apply int_raises in Hint].
  destruct ((ret <? 0) || ((ret =? 0) && strict)) eqn:Hbad; [done|].
  apply orb_false_iff in Hbad as [Hneg Hzero]. apply Z.ltb_ge in Hneg.
  assert (Hstrict : strict = true → 0 < ret).
  { intros ->. rewrite andb_true_r in Hzero. apply Z.eqb_neq in Hzero. lia. }
  destruct cutoff as [c|]; [|by repeat split].
  specialize (Hcut c eq_refl).
  destruct (c =? 0) eqn:Hc.
  - apply Z.eqb_eq in Hc. repeat split; [done|done|]. intros c' [= <-]. lia.
  - apply Z.eqb_neq in Hc. repeat split; [lia| |].
    + intros Hs. specialize (Hstrict Hs). lia.
    + intros c' [= <-] _. lia.
Qed.

Lemma positive_int_range_witness :
  match _positive_int " 7 " true (Some 3) with
  | Ok ret =>
      0 ≤ ret
      ∧ (true = true → 0 < ret)
      ∧ (∀ c, Some 3 = Some c → c ≠ 0 → ret ≤ c)
  | Raise e => e = ValueError
  end.
Proof.
  apply (positive_int_range " 7 " true (Some 3)).
  intros c [= <-]. lia.
Defined.

(** ** The resolved ordering *)

Section ordering_more.
Context `{Store} `{JsonLib}.

Lemma get_ordering_cases self request queryset view :
  (is_not_None (caller_ordering self view) = true
   ∧ (declared_on_paginator view = true →
      dunder_not_in (caller_ordering self view) = true)
   ∧ ∃ resolved, get_ordering self request queryset view = Ok resolved)
  ∨ ((is_not_None (caller_ordering self view) = false
      ∨ (declared_on_paginator view = true
         ∧ dunder_not_in (caller_ordering self view) = false))
     ∧ ∃ msg, get_ordering self request queryset view = Raise (AssertionError msg)).
Proof.
  destruct (is_not_None (caller_ordering self view)) eqn:Hnone.
  - destruct (declared_on_paginator view) eqn:Hdecl.
    + destruct (dunder_not_in (caller_ordering self view)) eqn:Hdunder.
      * left. split; [done|]. split; [done|].
        eexists. apply get_ordering_unfold; [exact Hnone|]. intros _. exact Hdunder.
      * right. split; [right; done|].
        revert Hnone Hdecl Hdunder.
        unfold get_ordering, caller_ordering, declared_on_paginator.
        destruct (List.filter _ _) as [|filter_cls rest]; [|done].
        intros -> _ ->. by eexists.
    + left. split; [done|]. split; [done|].
      eexists. apply get_ordering_unfold; [exact Hnone|]. by rewrite Hdecl.
  - right. split; [by left|].
    revert Hnone. unfold get_ordering, caller_ordering.
    destruct (List.filter _ _) as [|filter_cls rest]; intros ->; by eexists.
Qed.

Lemma get_ordering_key self request queryset view resolved :
  get_ordering self request queryset view = Ok resolved →
  ∃ x, x ∈ resolved ∧ names_unique_key x.
Proof.
  intros Hrun.
  destruct (get_ordering_cases self request queryset view)
    as [(Hnone & Hdunder & _)|(_ & msg & Hfail)]; [|congruence].
  rewrite (get_ordering_unfold _ _ _ _ Hnone Hdunder) in Hrun.
  injection Hrun as <-. simpl. case_bool_decide as Hempty.
  - exists pk_name. split; [apply elem_of_app; right; by left | by left].
  - rewrite unique_key_test in Hempty.
    destruct (decide (Exists (λ x, x ∈ ({[ "-" +:+ pk_name; pk_name; "pk"; "-pk" ]} : gset string))
                        (specifiers (caller_ordering self view)))) as [Hex|Hnex].
    + apply Exists_exists in Hex as (x & Hx & Hin). exists x. split; [done|].
      unfold names_unique_key.
      rewrite !elem_of_union, !elem_of_singleton in Hin. tauto.
    + exfalso. apply Hempty. intros (x & Hx & Hn). apply Hnex.
      apply Exists_exists. exists x. split; [done|].
      unfold names_unique_key in Hn.
      rewrite !elem_of_union, !elem_of_singleton. tauto.
Qed.

(** X2.  An ordering that [get_ordering] returns begins with the
    specifiers the caller declared, has at most one more, and names the
    unique key of the model in one of its specifiers; so it is never
    empty. *)
Theorem get_ordering_invariant self request queryset view resolved :
  get_ordering self request queryset view = Ok resolved →
  specifiers (caller_ordering self view) `prefix_of` resolved
  ∧ (length resolved ≤ S (length (specifiers (caller_ordering self view))))%nat
  ∧ (∃ x, x ∈ resolved ∧ names_unique_key x)
  ∧ resolved ≠ [].
Proof.
  intros Hrun.
  destruct (get_ordering_key _ _ _ _ _ Hrun) as (x & Hx & Hkey).
  assert (Hne : resolved ≠ []).
  { intros Heq. rewrite Heq in Hx. by apply elem_of_nil in Hx. }
  destruct (get_ordering_cases self request queryset view)
    as [(Hnone & Hdunder & _)|(_ & msg & Hfail)]; [|congruence].
  rewrite (get_ordering_unfold _ _ _ _ Hnone Hdunder) in Hrun.
  injection Hrun as Hres. simpl in Hres.
  split; [|split; [|split; [by exists x|exact Hne]]].
  - rewrite <- Hres. case_bool_decide; [by apply prefix_app_r | done].
  - rewrite <- Hres. case_bool_decide; [rewrite length_app; simpl; lia | lia].
Qed.

(** X3.  [get_ordering] raises nothing but [AssertionError], and it
    raises exactly when the caller declared no ordering ([None], on the
    paginator or from the filter backend), or declared on the paginator a
    [str] that contains a double underscore or a [list] or [tuple] that
    has the element [__]: an ordering that comes from a filter backend is
    not examined for double underscores. *)
Theorem get_ordering_raises_iff self request queryset view :
  (∀ e, get_ordering self request queryset view = Raise e →
        ∃ msg, e = AssertionError msg)
  ∧ ((∃ e, get_ordering self request queryset view = Raise e)
     ↔ is_not_None (caller_ordering self view) = false
       ∨ (declared_on_paginator view = true
          ∧ dunder_not_in (caller_ordering self view) = false)).
Proof.
  destruct (get_ordering_cases self request queryset view)
    as [(Hnone & Hdunder & resolved & Hrun)|(Hwhy & msg & Hfail)].
  - split; [intros e; congruence|]. split.
    + intros [e He]. congruence.
    + intros [Hn|[Hd Hu]]; [congruence|]. specialize (Hdunder Hd). congruence.
  - split.
    + intros e He. exists msg. congruence.
    + split; [done|]. intros _. by eexists.
Qed.

End ordering_more.

Lemma get_ordering_invariant_witness :
  get_ordering (Example.paginator (OList ["name"]) 2) (Example.request None)
    Example.all_rows None = Ok ["name"; "id"]
  ∧ ["name"] `prefix_of` ["name"; "id"]
  ∧ (length ["name"; "id"] ≤ 2)%nat
  ∧ (∃ x, x ∈ ["name"; "id"] ∧ names_unique_key x)
  ∧ ["name"; "id"] ≠ [].
Proof.
  split; [reflexivity|].
  apply (get_ordering_invariant (Example.paginator (OList ["name"]) 2)
           (Example.request None) Example.all_rows None ["name"; "id"]).
  reflexivity.
Defined.

Lemma get_ordering_raises_iff_witness :
  ∃ e, get_ordering (Example.paginator (OStr "user__name") 2)
         (Example.request None) Example.all_rows None = Raise e.
Proof.
  apply (proj2 (get_ordering_raises_iff (Example.paginator (OStr "user__name") 2)
                  (Example.request None) Example.all_rows None)).
  right. split; reflexivity.
Defined.
(** ** The decoded offset *)

Lemma clamp_bounds cutoff n :
  (∀ k, cutoff = Some k → 0 ≤ k) → 0 ≤ n →
  0 ≤ clamp cutoff n ∧ ∀ k, cutoff = Some k → k ≠ 0 → clamp cutoff n ≤ k.
Proof.
  intros Hcut Hn. unfold clamp. destruct cutoff as [c|]; [|done].
  specialize (Hcut c eq_refl).
  destruct (c =? 0) eqn:Hc.
  - apply Z.eqb_eq in Hc. split; [done|]. intros k [= <-]. lia.
  - split; [lia|]. intros k [= <-] _. lia.
Qed.

Section decode_more.
Context `{Store} `{JsonLib}.

(** What [decode_cursor] returns when it returns a cursor: the token was
    read. *)
Lemma decode_cursor_Some_inv self request c :
  decode_cursor self request = Ok (Some c) →
  ∃ encoded qs n r,
    query_params request !! cursor_query_param self = Some encoded
    ∧ token_reads encoded qs n r
    ∧ c = mkCursor (clamp (offset_cutoff self) n) (negb (r =? 0)) (token_position qs).
Proof.
  intros Hrun.
  destruct (query_params request !! cursor_query_param self) as [encoded|] eqn:Hq.
  2:{ unfold decode_cursor in Hrun. by rewrite Hq in Hrun. }
  exists encoded. revert Hrun. unfold decode_cursor. rewrite Hq.
  unfold Str.encode_ascii.
  destruct (Str.is_ascii encoded) eqn:Hascii; [|done]. simpl.
  destruct (Base64.b64decode encoded) as [qs|e] eqn:Hb64;
    [|by rewrite (b64decode_raises _ _ Hb64)]. simpl.
  unfold Str.decode_ascii.
  destruct (Str.is_ascii qs) eqn:Hqs; [|done]. simpl.
  rewrite !index0_token_value, index0_token_position. simpl.
  destruct (Str.int (token_value "o" "0" qs)) as [n|e] eqn:Ho.
  2:{ unfold _positive_int. rewrite Ho. simpl. by rewrite (int_raises _ _ Ho). }
  destruct (Z.lt_ge_cases n 0) as [Hn|Hn].
  { by rewrite (positive_int_negative _ _ _ Ho Hn). }
  rewrite (positive_int_clamp _ _ _ Ho Hn). simpl.
  destruct (Str.int (token_value "r" "0" qs)) as [r|e] eqn:Hr;
    [|by rewrite (int_raises _ _ Hr)].
  simpl. intros [= <-]. exists qs, n, r. by repeat split.
Qed.

(** X4.  With no cutoff or a cutoff that is not negative, the offset of
    every cursor [decode_cursor] returns is at least zero and at most
    the cutoff when that is a non-zero integer, whatever the token
    says. *)
Theorem decode_cursor_offset_bounds self request c :
  (∀ k, offset_cutoff self = Some k → 0 ≤ k) →
  decode_cursor self request = Ok (Some c) →
  0 ≤ offset c ∧ ∀ k, offset_cutoff self = Some k → k ≠ 0 → offset c ≤ k.
Proof.
  intros Hcut Hrun.
  destruct (decode_cursor_Some_inv _ _ _ Hrun)
    as (encoded & qs & n & r & _ & (_ & _ & _ & _ & Hn & _) & ->).
  simpl. by apply clamp_bounds.
Qed.

End decode_more.

Lemma decode_cursor_offset_bounds_witness :
  decode_cursor (Example.paginator (OStr "id") 2)
    (Example.request (Some "bz0yMDAwJnI9MA==")) = Ok (Some (mkCursor 1000 false None))
  ∧ 0 ≤ 1000
  ∧ ∀ k, Some 1000 = Some k → k ≠ 0 → 1000 ≤ k.
Proof.
  split; [reflexivity|].
  apply (decode_cursor_offset_bounds (Example.paginator (OStr "id") 2)
           (Example.request (Some "bz0yMDAwJnI9MA==")) (mkCursor 1000 false None)).
  - intros k [= <-]. lia.
  - reflexivity.
Defined.

(** ** Positions and directions *)

Section direction_more.
Context `{Store} `{JsonLib}.

(** X5.  The position of a row does not depend on the directions of the
    ordering: [_get_position_from_instance] gives, or raises, the same
    for an ordering and for the reversed ordering. *)
Theorem get_position_from_instance_reverse_ordering self instance ordering_tuple :
  _get_position_from_instance self instance (_reverse_ordering ordering_tuple)
  = _get_position_from_instance self instance ordering_tuple.
Proof.
  unfold _get_position_from_instance, _reverse_ordering.
  match goal with |- (mapM ?f _ ≫= _) = _ => set (field_of := f) end.
  assert (Hfield : ∀ o, field_of (invert o) = field_of o).
  { intros o. unfold field_of. cbv zeta. by rewrite invert_field. }
  f_equal. induction ordering_tuple as [|o l IH]; [done|].
  rewrite fmap_cons. cbn [mapM]. by rewrite Hfield, IH.
Qed.

(** X6.  An ordering with an ascending and a descending specifier never
    takes the tuple-comparison branch, also when [use_tuple_comparison]
    is set: the filter by the position is the [Q] object of the
    disjunctive branch. *)
Theorem mixed_ordering_disjunctive self queryset current_position a d :
  a ∈ ordering_tuple self → Str.startswith_dash a = false →
  d ∈ ordering_tuple self → Str.startswith_dash d = true →
  should_use_tuple_comparison self = false
  ∧ filter_by_position self queryset current_position
    = (current_position_list ← json_loads current_position;
       q_object ← disjunctive_q_object self current_position_list;
       Ok (filter_qs queryset (FilterQ q_object))).
Proof.
  intros Ha Hasc Hd Hdesc.
  assert (Hno : should_use_tuple_comparison self = false).
  { unfold should_use_tuple_comparison, _uniform_ordering, _all_ascending,
      _all_descending.
    destruct (use_tuple_comparison self); [|done]. simpl.
    assert (Hex : existsb id (Str.startswith_dash <$> ordering_tuple self) = true).
    { apply existsb_exists. exists true. split; [|done].
      apply list_elem_of_In, list_elem_of_fmap. by exists d. }
    assert (Hall : forallb id (Str.startswith_dash <$> ordering_tuple self) = false).
    { apply not_true_is_false. intros Hall. rewrite forallb_forall in Hall.
      specialize (Hall (Str.startswith_dash a)). rewrite Hasc in Hall.
      discriminate Hall. apply list_elem_of_In, list_elem_of_fmap. exists a.
      by rewrite Hasc. }
    by rewrite Hex, Hall. }
  split; [exact Hno|]. unfold filter_by_position. by rewrite Hno.
Qed.

End direction_more.

Lemma mixed_ordering_disjunctive_witness :
  let self :=
    mkPaginator (OTuple ["-field"; "id"]) (Some 2) (Some 1000) true "cursor"
      "Invalid cursor" None false ∅ (Some (mkCursor 0 false None)) [] None None
      None None in
  should_use_tuple_comparison self = false
  ∧ filter_by_position self Example.all_rows (Example.dumps ["20"; "4"])
    = (current_position_list ← json_loads (Example.dumps ["20"; "4"]);
       q_object ← disjunctive_q_object self current_position_list;
       Ok (filter_qs Example.all_rows (FilterQ q_object))).
Proof.
  apply (mixed_ordering_disjunctive
           (mkPaginator (OTuple ["-field"; "id"]) (Some 2) (Some 1000) true "cursor"
              "Invalid cursor" None false ∅ (Some (mkCursor 0 false None)) [] None None
              None None)
           Example.all_rows (Example.dumps ["20"; "4"]) "id" "-field").
  - apply (bool_decide_unpack _). reflexivity.
  - reflexivity.
  - apply (bool_decide_unpack _). reflexivity.
  - reflexivity.
Defined.
(** ** Cursors that do not come back as they were *)

Lemma int_of_int_negative n : n < 0 → Str.int (Str.of_int n) = Ok n.
Proof.
  intros Hn. unfold Str.of_int. rewrite (proj2 (Z.ltb_lt n 0)) by done.
  assert (Hnn : N.to_uint (Z.to_N (- n)) ≠ Decimal.Nil).
  { destruct (Z.to_N (- n)); [done|]. apply Unsigned.to_uint_nonnil. }
  replace (NilZero.string_of_uint (N.to_uint (Z.to_N (- n))))
    with (NilEmpty.string_of_uint (N.to_uint (Z.to_N (- n))))
    by (by destruct (N.to_uint (Z.to_N (- n)))).
  pose proof (string_of_uint_digits (N.to_uint (Z.to_N (- n)))) as Hdigits.
  unfold Str.int, Str.strip_space.
  change (Str.lstrip_space (String "-" ?s)) with (String "-" s).
  change (Str.rstrip_space (String "-" ?s)) with (String "-" (Str.rstrip_space s)).
  rewrite digits_rstrip by done. cbn [Str.split_sign].
  rewrite digits_literal by (done || (left; by destruct (N.to_uint (Z.to_N (- n))))).
  simpl. rewrite NilEmpty.usu by done. simpl.
  rewrite DecimalN.Unsigned.of_to, Z2N.id by lia. f_equal. lia.
Qed.

Section codec_more.
Context `{Store} `{JsonLib}.

Lemma request_for_lookup self encoded :
  query_params (request_for (replace_query_param (base_url self)
                               (cursor_query_param self) encoded))
    !! cursor_query_param self = Some encoded.
Proof. unfold request_for, replace_query_param. simpl. apply lookup_insert_eq. Qed.

(** X7.  For every cursor whose offset is not negative, the token of
    [encode_cursor] is decoded by [decode_cursor] to a cursor with the
    same reverse flag and the same position, and with the offset
    cut down to [offset_cutoff] when that is a non-zero integer below
    it. *)
Theorem decode_encode_cursor_clamps self c :
  0 ≤ offset c →
  ∃ url, encode_cursor self c = Ok url
         ∧ decode_cursor self (request_for url)
           = Ok (Some (mkCursor
                         (match offset_cutoff self with
                          | Some k => if k =? 0 then offset c else Z.min (offset c) k
                          | None => offset c
                          end)
                         (reverse c) (position c))).
Proof.
  intros Hoff. eexists. split; [apply encode_cursor_tokens|].
  destruct (cursor_tokens_values c) as (Ho & Hr & Hp).
  rewrite (decode_cursor_reads self _
             (Base64.b64encode (Urllib.urlencode (cursor_tokens c)))
             (Urllib.urlencode (cursor_tokens c))
             (offset c) (if reverse c then 1 else 0)).
  - rewrite Hp. unfold clamp. do 3 f_equal. by destruct (reverse c).
  - apply request_for_lookup.
  - unfold token_reads.
    rewrite B64Facts.b64encode_is_ascii, B64Facts.b64decode_b64encode,
      urlencode_is_ascii, Ho, Hr.
    repeat split; try done.
    + destruct (offset c =? 0) eqn:Hz.
      * apply Z.eqb_eq in Hz. by rewrite Hz.
      * by apply int_of_int.
    + by destruct (reverse c).
Qed.

(** X8.  A cursor with a negative offset is encoded all the same, and
    the token is one [decode_cursor] refuses with the not-found error. *)
Theorem decode_encode_negative_offset self c :
  offset c < 0 →
  ∃ url, encode_cursor self c = Ok url
         ∧ decode_cursor self (request_for url)
           = Raise (NotFound (invalid_cursor_message self)).
Proof.
  intros Hoff. eexists. split; [apply encode_cursor_tokens|].
  eapply decode_cursor_rejects; [apply request_for_lookup|].
  intros (qs & n & r & _ & Hb64 & _ & Ho & Hn & _).
  rewrite B64Facts.b64decode_b64encode in Hb64. injection Hb64 as <-.
  destruct (cursor_tokens_values c) as (Hval & _ & _). rewrite Hval in Ho.
  rewrite (proj2 (Z.eqb_neq (offset c) 0)) in Ho by lia.
  rewrite int_of_int_negative in Ho by done. injection Ho as <-. lia.
Qed.

End codec_more.

Lemma decode_encode_cursor_clamps_witness :
  ∃ url,
    encode_cursor (Example.paginator (OStr "id") 2)
      (mkCursor 1500 true (Some (Example.dumps ["5"]))) = Ok url
    ∧ decode_cursor (Example.paginator (OStr "id") 2) (request_for url)
      = Ok (Some (mkCursor 1000 true (Some (Example.dumps ["5"])))).
Proof.
  apply (decode_encode_cursor_clamps (Example.paginator (OStr "id") 2)
           (mkCursor 1500 true (Some (Example.dumps ["5"])))).
  simpl. lia.
Defined.

Lemma decode_encode_negative_offset_witness :
  ∃ url,
    encode_cursor (Example.paginator (OStr "id") 2) (mkCursor (-3) false None) = Ok url
    ∧ decode_cursor (Example.paginator (OStr "id") 2) (request_for url)
      = Raise (NotFound "Invalid cursor").
Proof.
  apply (decode_encode_negative_offset (Example.paginator (OStr "id") 2)
           (mkCursor (-3) false None)).
  simpl. lia.
Defined.
(** ** The page request as a whole *)

Section request_more.
Context `{Store} `{JsonLib}.

Lemma set_page_size_same (self : Paginator) : set_page_size self (page_size self) = self.
Proof. by destruct self. Qed.

(** What a run of the first part of [paginate_queryset] went through. *)
Lemma order_and_filter_Ok_inv self queryset request view prepared filtered :
  order_and_filter self queryset request view = Ok (prepared, filtered) →
  ∃ resolved,
    get_ordering self request queryset view = Ok resolved
    ∧ decode_cursor self request = Ok (cursor prepared)
    ∧ prepared
      = set_cursor (set_ordering (set_base_url self (build_absolute_uri request))
                      (OTuple resolved)) (cursor prepared)
    ∧ match (cursor_fields (cursor prepared)).2 with
      | None =>
          filtered
          = order_by queryset
              (if (cursor_fields (cursor prepared)).1.2
               then _reverse_ordering resolved else resolved)
      | Some current_position =>
          filter_by_position prepared
            (order_by queryset
               (if (cursor_fields (cursor prepared)).1.2
                then _reverse_ordering resolved else resolved))
            current_position
          = Ok filtered
      end.
Proof.
  unfold order_and_filter. intros Hrun.
  change (get_ordering (set_base_url self (build_absolute_uri request))
            request queryset view)
    with (get_ordering self request queryset view) in Hrun.
  destruct (get_ordering self request queryset view) as [resolved|]; [|done].
  rewrite bind_Ok in Hrun.
  change (decode_cursor (set_ordering (set_base_url self (build_absolute_uri request))
                           (OTuple resolved)) request)
    with (decode_cursor self request) in Hrun.
  destruct (decode_cursor self request) as [decoded|]; [|done].
  rewrite bind_Ok in Hrun. exists resolved. split; [done|].
  cbn [cursor set_cursor] in Hrun.
  destruct (cursor_fields decoded) as [[k rv] current] eqn:Hcf.
  destruct current as [p|].
  - destruct (filter_by_position _ _ _) as [q|] eqn:Hf; [|done].
    injection Hrun as <- <-. cbn [cursor set_cursor]. rewrite Hcf. simpl.
    split; [done|]. split; [done|]. by destruct rv.
  - injection Hrun as <- <-. cbn [cursor set_cursor]. rewrite Hcf. simpl.
    split; [done|]. split; [done|]. by destruct rv.
Qed.

(** What a run of the second part of [paginate_queryset] leaves on the
    paginator. *)
Lemma fetch_page_Ok_inv self queryset self' returned :
  fetch_page self queryset = Ok (self', returned) →
  let k := (cursor_fields (cursor self)).1.1 in
  let reversed := (cursor_fields (cursor self)).1.2 in
  let current := (cursor_fields (cursor self)).2 in
  let preceding := bool_decide (current ≠ None) || (0 <? k) in
  returned = Some (page self')
  ∧ cursor self' = cursor self
  ∧ ordering self' = ordering self
  ∧ (if reversed then has_next self' else has_previous self') = Some preceding
  ∧ (if reversed then next_position self' else previous_position self')
    = (if preceding then Some current
       else if reversed then next_position self else previous_position self)
  ∧ display_page_controls self'
    = display_page_controls self
      || ((attr_true (has_previous self') || attr_true (has_next self'))
          && bool_decide (template self ≠ None))
  ∧ ∃ results,
      slice_qs queryset k (k + default 0 (page_size self) + 1) = Ok results
      ∧ page self' = (if reversed then rev (slice_to (default 0 (page_size self)) results)
                      else slice_to (default 0 (page_size self)) results).
Proof.
  unfold fetch_page.
  destruct (cursor_fields (cursor self)) as [[k rv] current]. simpl.
  destruct (slice_qs _ _ _) as [results|]; [|done]. rewrite bind_Ok.
  cbn [page set_page].
  destruct (bool_decide (_ < _)%nat).
  - destruct (index_last results) as [instance|]; [|done]. rewrite bind_Ok.
    destruct (_get_position_from_instance _ _ _) as [following|]; [|done].
    rewrite !bind_Ok.
    destruct rv, (bool_decide (current ≠ None) || (0 <? k));
      cbn [template has_next has_previous set_page set_has_next set_has_previous
           set_next_position set_previous_position attr_true orb andb];
      destruct (bool_decide (template self ≠ None)),
        (display_page_controls self) eqn:Hd;
      intros [= <- <-]; cbn; rewrite ?Hd;
      repeat match goal with |- _ ∧ _ => split end; try done; by eexists.
  - rewrite !bind_Ok.
    destruct rv, (bool_decide (current ≠ None) || (0 <? k));
      cbn [template has_next has_previous set_page set_has_next set_has_previous
           set_next_position set_previous_position attr_true orb andb];
      destruct (bool_decide (template self ≠ None)),
        (display_page_controls self) eqn:Hd;
      intros [= <- <-]; cbn; rewrite ?Hd;
      repeat match goal with |- _ ∧ _ => split end; try done; by eexists.
Qed.

(** What a run of [paginate_queryset] that returns a page went
    through. *)
Lemma paginate_queryset_Ok_inv self queryset request view self' returned :
  paginate_queryset self queryset request view = Ok (self', Some returned) →
  ∃ s prepared filtered,
    page_size self = Some s ∧ s ≠ 0
    ∧ order_and_filter self queryset request view = Ok (prepared, filtered)
    ∧ fetch_page prepared filtered = Ok (self', Some returned).
Proof.
  unfold paginate_queryset, get_page_size. rewrite set_page_size_same.
  destruct (page_size self) as [s|] eqn:Hps; [|done].
  destruct (s =? 0) eqn:Hs; [done|]. apply Z.eqb_neq in Hs.
  destruct (order_and_filter _ _ _ _) as [[prepared filtered]|]; [|done].
  rewrite bind_Ok. simpl. intros Hrun. by exists s, prepared, filtered.
Qed.

(** X9.  [paginate_queryset] returns [None] exactly when the page size is
    [None] or zero; it then leaves the paginator as it was, and resolves
    no ordering and decodes no cursor.  In every other run that returns,
    it returns a page. *)
Theorem paginate_queryset_none_iff self queryset request view :
  (page_size self = None ∨ page_size self = Some 0 →
   paginate_queryset self queryset request view = Ok (self, None))
  ∧ (∀ self', paginate_queryset self queryset request view = Ok (self', None) →
              page_size self = None ∨ page_size self = Some 0).
Proof.
  unfold paginate_queryset, get_page_size. rewrite set_page_size_same. split.
  - by intros [-> | ->].
  - intros self'. destruct (page_size self) as [s|]; [|by left].
    destruct (s =? 0) eqn:Hs; [apply Z.eqb_eq in Hs; subst; by right|].
    destruct (order_and_filter _ _ _ _) as [[prepared filtered]|]; [|done].
    rewrite bind_Ok. simpl. intros Hrun.
    by destruct (fetch_page_Ok_inv _ _ _ _ Hrun) as [? _].
Qed.

(** X10.  When the page size is set and the ordering resolves, a request
    whose cursor token is not read makes [paginate_queryset] raise the
    not-found error with [invalid_cursor_message], whatever the
    queryset holds. *)
Theorem paginate_queryset_invalid_cursor self queryset request view s resolved encoded :
  page_size self = Some s → s ≠ 0 →
  get_ordering self request queryset view = Ok resolved →
  query_params request !! cursor_query_param self = Some encoded →
  (¬ ∃ qs n r, token_reads encoded qs n r) →
  paginate_queryset self queryset request view
  = Raise (NotFound (invalid_cursor_message self)).
Proof.
  intros Hps Hs Hord Hq Hno.
  unfold paginate_queryset, get_page_size. rewrite set_page_size_same, Hps.
  rewrite (proj2 (Z.eqb_neq s 0)) by done.
  unfold order_and_filter.
  change (get_ordering (set_base_url self (build_absolute_uri request))
            request queryset view)
    with (get_ordering self request queryset view).
  rewrite Hord, bind_Ok.
  change (decode_cursor (set_ordering (set_base_url self (build_absolute_uri request))
                           (OTuple resolved)) request)
    with (decode_cursor self request).
  by rewrite (decode_cursor_rejects _ _ _ Hq Hno).
Qed.

(** X11.  A position that [json.loads] does not read, or reads as a value
    that cannot be iterated over, is not reported as an invalid cursor:
    the exception of [json.loads] or of [zip] leaves
    [paginate_queryset], in either branch of the filter. *)
Theorem paginate_queryset_position_unreadable
    self queryset request view s resolved cur current_position e :
  page_size self = Some s → s ≠ 0 →
  get_ordering self request queryset view = Ok resolved →
  decode_cursor self request = Ok (Some cur) →
  position cur = Some current_position →
  (json_loads current_position ≫= json_iter) = Raise e →
  paginate_queryset self queryset request view = Raise e.
Proof.
  intros Hps Hs Hord Hdec Hpos Hjson.
  unfold paginate_queryset, get_page_size. rewrite set_page_size_same, Hps.
  rewrite (proj2 (Z.eqb_neq s 0)) by done.
  unfold order_and_filter.
  change (get_ordering (set_base_url self (build_absolute_uri request))
            request queryset view)
    with (get_ordering self request queryset view).
  rewrite Hord, bind_Ok.
  change (decode_cursor (set_ordering (set_base_url self (build_absolute_uri request))
                           (OTuple resolved)) request)
    with (decode_cursor self request).
  rewrite Hdec, bind_Ok. cbn [cursor set_cursor cursor_fields]. rewrite Hpos.
  unfold filter_by_position.
  destruct (json_loads current_position) as [j|e'];
    [|simpl in Hjson; by injection Hjson as ->].
  rewrite bind_Ok in Hjson. rewrite bind_Ok.
  unfold tuple_comparison, disjunctive_q_object. rewrite Hjson.
  by destruct (should_use_tuple_comparison _).
Qed.

(** X12.  After a page request, the flag of the side the cursor came
    from ([has_previous] of a forward cursor, [has_next] of a reversed
    one) tells whether the cursor had a position or a non-zero offset;
    when it is set the position of that side is the position of the
    cursor, and otherwise that attribute is left as it was. *)
Theorem paginate_queryset_preceding_side self queryset request view self' returned :
  paginate_queryset self queryset request view = Ok (self', Some returned) →
  let k := (cursor_fields (cursor self')).1.1 in
  let reversed := (cursor_fields (cursor self')).1.2 in
  let current := (cursor_fields (cursor self')).2 in
  let preceding := bool_decide (current ≠ None) || (0 <? k) in
  decode_cursor self request = Ok (cursor self')
  ∧ (if reversed then has_next self' else has_previous self') = Some preceding
  ∧ (if reversed then next_position self' else previous_position self')
    = (if preceding then Some current
       else if reversed then next_position self else previous_position self).
Proof.
  intros Hrun.
  destruct (paginate_queryset_Ok_inv _ _ _ _ _ _ Hrun)
    as (s & prepared & filtered & _ & _ & Hprep & Hfetch).
  destruct (order_and_filter_Ok_inv _ _ _ _ _ _ Hprep)
    as (resolved & _ & Hdec & Hself & _).
  destruct (fetch_page_Ok_inv _ _ _ _ Hfetch)
    as (_ & Hcur & _ & Hflag & Hpos & _).
  simpl. rewrite Hcur. split; [done|]. split; [done|].
  rewrite Hpos. rewrite Hself. done.
Qed.

(** X13.  A page request never switches [display_page_controls] off: it
    switches it on when the paginator has a template and there is a page
    before or after this one, and leaves it as it was otherwise. *)
Theorem paginate_queryset_page_controls self queryset request view self' returned :
  paginate_queryset self queryset request view = Ok (self', Some returned) →
  display_page_controls self'
  = display_page_controls self
    || ((attr_true (has_previous self') || attr_true (has_next self'))
        && bool_decide (template self ≠ None)).
Proof.
  intros Hrun.
  destruct (paginate_queryset_Ok_inv _ _ _ _ _ _ Hrun)
    as (s & prepared & filtered & _ & _ & Hprep & Hfetch).
  destruct (order_and_filter_Ok_inv _ _ _ _ _ _ Hprep)
    as (resolved & _ & _ & Hself & _).
  destruct (fetch_page_Ok_inv _ _ _ _ Hfetch) as (_ & _ & _ & _ & _ & Hctl & _).
  rewrite Hctl, Hself. done.
Qed.

End request_more.
Lemma paginate_queryset_none_iff_witness :
  paginate_queryset (Example.paginator (OStr "id") 0) Example.all_rows
    (Example.request (Some "bz14")) None
  = Ok (Example.paginator (OStr "id") 0, None).
Proof.
  apply (proj1 (paginate_queryset_none_iff (Example.paginator (OStr "id") 0)
                  Example.all_rows (Example.request (Some "bz14")) None)).
  right. reflexivity.
Defined.

Lemma paginate_queryset_invalid_cursor_witness :
  Base64.b64decode "bz14" = Ok "o=x"
  ∧ paginate_queryset (Example.paginator (OStr "id") 2) Example.all_rows
      (Example.request (Some "bz14")) None
    = Raise (NotFound "Invalid cursor").
Proof.
  split; [reflexivity|].
  apply (paginate_queryset_invalid_cursor (Example.paginator (OStr "id") 2)
           Example.all_rows (Example.request (Some "bz14")) None 2 ["id"] "bz14").
  - reflexivity.
  - discriminate.
  - reflexivity.
  - reflexivity.
  - intros (qs & n & r & _ & Hb64 & _ & Ho & _).
    vm_compute in Hb64. injection Hb64 as <-.
    vm_compute in Ho. discriminate Ho.
Defined.

Lemma paginate_queryset_position_unreadable_witness :
  decode_cursor (Example.paginator (OStr "id") 2) (Example.request (Some "cD1hYmM="))
  = Ok (Some (mkCursor 0 false (Some "abc")))
  ∧ paginate_queryset (Example.paginator (OStr "id") 2) Example.all_rows
      (Example.request (Some "cD1hYmM=")) None
    = Raise ValueError.
Proof.
  split; [reflexivity|].
  apply (paginate_queryset_position_unreadable (Example.paginator (OStr "id") 2)
           Example.all_rows (Example.request (Some "cD1hYmM=")) None 2 ["id"]
           (mkCursor 0 false (Some "abc")) "abc" ValueError).
  - reflexivity.
  - discriminate.
  - reflexivity.
  - reflexivity.
  - reflexivity.
  - reflexivity.
Defined.

Lemma paginate_queryset_preceding_side_witness :
  let self' :=
    mkPaginator (OTuple ["id"]) (Some 2) (Some 1000) false "cursor"
      "Invalid cursor" None false {[ "cursor" := "cD0lNUIlMjIyJTIyJTVE" ]}
      (Some (mkCursor 0 false (Some (Example.dumps ["2"]))))
      [Example.mkRow 3 30 7; Example.mkRow 4 20 6]
      (Some true) (Some true) (Some (Some (Example.dumps ["5"])))
      (Some (Some (Example.dumps ["2"]))) in
  paginate_queryset (Example.paginator (OStr "id") 2) Example.all_rows
    (Example.request (Some "cD0lNUIlMjIyJTIyJTVE")) None
  = Ok (self', Some [Example.mkRow 3 30 7; Example.mkRow 4 20 6])
  ∧ has_previous self' = Some true
  ∧ previous_position self' = Some (Some (Example.dumps ["2"])).
Proof.
  intros self'.
  assert (Hrun : paginate_queryset (Example.paginator (OStr "id") 2) Example.all_rows
                   (Example.request (Some "cD0lNUIlMjIyJTIyJTVE")) None
                 = Ok (self', Some [Example.mkRow 3 30 7; Example.mkRow 4 20 6]))
    by reflexivity.
  split; [exact Hrun|].
  exact (proj2 (paginate_queryset_preceding_side _ _ _ _ _ _ Hrun)).
Defined.

Lemma paginate_queryset_page_controls_witness :
  let self :=
    mkPaginator (OStr "id") (Some 2) (Some 1000) false "cursor"
      "Invalid cursor" (Some "rest_framework/pagination/previous_and_next.html")
      false ∅ None [] None None None None in
  let self' :=
    mkPaginator (OTuple ["id"]) (Some 2) (Some 1000) false "cursor"
      "Invalid cursor" (Some "rest_framework/pagination/previous_and_next.html")
      true ∅ None [Example.mkRow 1 10 9; Example.mkRow 2 20 9]
      (Some true) (Some false) (Some (Some (Example.dumps ["3"]))) None in
  paginate_queryset self Example.all_rows (Example.request None) None
  = Ok (self', Some [Example.mkRow 1 10 9; Example.mkRow 2 20 9])
  ∧ display_page_controls self' = true.
Proof.
  intros self self'.
  assert (Hrun : paginate_queryset self Example.all_rows (Example.request None) None
                 = Ok (self', Some [Example.mkRow 1 10 9; Example.mkRow 2 20 9]))
    by reflexivity.
  split; [exact Hrun|].
  exact (paginate_queryset_page_controls _ _ _ _ _ _ Hrun).
Defined.
(** ** The queryset behind the page *)

Section queryset_more.
Context `{Store} `{JsonLib}.
Local Open Scope nat_scope.

Lemma mapM_Ok_inv {A B} (f : A → result B) l k :
  mapM f l = Ok k → Forall2 (λ x y, f x = Ok y) l k.
Proof.
  revert k. induction l as [|x l IH]; intros k; cbn [mapM].
  - intros [= <-]. constructor.
  - destruct (f x) as [y|] eqn:Hy; [|done]. rewrite bind_Ok.
    destruct (mapM f l) as [k'|]; [|done]. rewrite bind_Ok.
    intros [= <-]. constructor; [done|]. by apply IH.
Qed.

Lemma mapM_raise {A B} (f : A → result B) l1 x l2 e :
  (∀ a, a ∈ l1 → ∃ b, f a = Ok b) → f x = Raise e →
  mapM f (l1 ++ x :: l2) = Raise e.
Proof.
  intros Hl1 Hx. induction l1 as [|a l1 IH].
  - simpl app. cbn [mapM]. by rewrite Hx.
  - rewrite <- app_comm_cons. cbn [mapM].
    destruct (Hl1 a) as [b ->]; [by left|]. rewrite bind_Ok.
    rewrite IH; [done|]. intros a' Ha'. apply Hl1. by right.
Qed.

Lemma seq_split_at n m : m < n → seq 0 n = seq 0 m ++ m :: seq (S m) (n - S m).
Proof.
  intros Hm. replace n with (m + S (n - S m)) at 1 by lia.
  by rewrite seq_app.
Qed.

(** The queryset a filter by the position returns: the same rows in the
    same order, with one more condition. *)
Lemma filter_by_position_shape self queryset current_position filtered :
  filter_by_position self queryset current_position = Ok filtered →
  qs_rows filtered = qs_rows queryset
  ∧ qs_order filtered = qs_order queryset
  ∧ ∃ w, qs_where filtered = qs_where queryset ++ [w].
Proof.
  unfold filter_by_position.
  destruct (json_loads current_position) as [j|]; [|done]. rewrite bind_Ok.
  destruct (should_use_tuple_comparison self).
  - unfold tuple_comparison.
    destruct (json_iter j) as [positions|]; [|done]. rewrite bind_Ok.
    destruct (mapM _ _) as [cleaned_values|]; [|done]. rewrite bind_Ok.
    destruct (cursor_reverse self) as [rv|]; [|done]. rewrite bind_Ok.
    intros [= <-]. simpl. repeat split. by eexists.
  - destruct (disjunctive_q_object self j) as [q|]; [|done]. rewrite bind_Ok.
    intros [= <-]. simpl. repeat split. by eexists.
Qed.

(** X14.  Whatever ordering the queryset came with, the page is read
    from it ordered by the resolved ordering, reversed for a reversed
    cursor; the rows are the caller's, the caller's conditions are kept,
    and exactly one condition is added when the cursor has a position,
    none when it has not. *)
Theorem order_and_filter_shape self queryset request view prepared filtered :
  order_and_filter self queryset request view = Ok (prepared, filtered) →
  ∃ resolved,
    get_ordering self request queryset view = Ok resolved
    ∧ decode_cursor self request = Ok (cursor prepared)
    ∧ ordering prepared = OTuple resolved
    ∧ qs_rows filtered = qs_rows queryset
    ∧ qs_order filtered
      = (if (cursor_fields (cursor prepared)).1.2
         then _reverse_ordering resolved else resolved)
    ∧ match (cursor_fields (cursor prepared)).2 with
      | None => qs_where filtered = qs_where queryset
      | Some _ => ∃ w, qs_where filtered = qs_where queryset ++ [w]
      end.
Proof.
  intros Hrun.
  destruct (order_and_filter_Ok_inv _ _ _ _ _ _ Hrun)
    as (resolved & Hord & Hdec & Hself & Hq).
  exists resolved. split; [done|]. split; [done|].
  split; [by rewrite Hself|].
  destruct ((cursor_fields (cursor prepared)).2) as [p|].
  - destruct (filter_by_position_shape _ _ _ _ Hq) as (Hrows & Horder & Hwhere).
    by rewrite Hrows, Horder.
  - by rewrite Hq.
Qed.

(** The second loop of the disjunctive branch gets through the indices
    whose specifiers all have a value. *)
Lemma sub_filter_Ok cursor_reverse ordering values i :
  NoDup ordering → i + 1 < length values → length values ≤ length ordering →
  ∃ q, sub_filter ordering (q_objects ordering cursor_reverse values).1
         (q_objects ordering cursor_reverse values).2 i = Ok q.
Proof.
  intros Hnd Hi Hlen. unfold sub_filter.
  assert (Hk : pred (Nat.min (i + 2) (length ordering)) = i + 1) by lia.
  destruct (lookup_lt_is_Some_2 ordering (i + 1) ltac:(lia)) as [o Ho].
  destruct (lookup_lt_is_Some_2 values (i + 1) ltac:(lia)) as [v Hv].
  unfold index_last. rewrite last_take_lookup, Hk, Ho by lia. simpl.
  destruct (q_objects_lookup cursor_reverse _ _ _ _ _ Hnd Ho Hv) as [_ Hcmp].
  rewrite (getitem_Some _ _ _ Hcmp). simpl.
  rewrite removelast_take, Hk.
  destruct (mapM_Ok_exists
              (getitem (q_objects ordering cursor_reverse values).1)
              (λ _ _, True) (take (i + 1) ordering)) as (eqs & -> & _).
  { intros o' Ho'. apply list_elem_of_lookup in Ho' as [j Hj].
    apply lookup_take_Some in Hj as [Hj Hlt].
    destruct (lookup_lt_is_Some_2 values j ltac:(lia)) as [v' Hv'].
    destruct (q_objects_lookup cursor_reverse _ _ _ _ _ Hnd Hj Hv') as [Heq _].
    eexists. split; [by apply getitem_Some|done]. }
  simpl. destruct (reduce_QAnd eqs (cmp_leaf cursor_reverse o v)) as (q & Hq & _).
  by exists q.
Qed.

(** A specifier beyond the values has no entry in the dicts. *)
Lemma q_objects_lookup_None cursor_reverse ordering values o :
  NoDup ordering → ordering !! length values = Some o →
  (q_objects ordering cursor_reverse values).2 !! o = None.
Proof.
  intros Hnd Ho. rewrite q_objects_foldl.
  destruct (q_step_other cursor_reverse (zip ordering values) (∅, ∅) o) as [_ ->];
    [|done].
  intros Hin. apply list_elem_of_fmap in Hin as ([o' v'] & -> & Hin).
  apply list_elem_of_lookup in Hin as [j Hj].
  apply lookup_zip_Some in Hj as [Hj Hv]. simpl in Ho.
  apply lookup_lt_Some in Hv.
  pose proof (NoDup_lookup _ _ _ _ Hnd Hj Ho). lia.
Qed.

(** X15.  When the position has fewer values than the ordering has
    specifiers, the disjunctive branch raises [KeyError] for the first
    specifier that has no value: the number of values is not examined
    before the lookups in [q_objects_compare]. *)
Theorem disjunctive_q_object_missing_value self cur values o :
  cursor self = Some cur →
  NoDup (ordering_tuple self) →
  ordering_tuple self !! length values = Some o →
  disjunctive_q_object self (JList values) = Raise (KeyError o).
Proof.
  intros Hcur Hnd Ho. unfold disjunctive_q_object, cursor_reverse.
  rewrite Hcur. generalize dependent (ordering_tuple self). intros ordering Hnd Ho.
  simpl json_iter. rewrite !bind_Ok.
  pose proof (q_objects_lookup_None (reverse cur) ordering values o Hnd Ho) as Hnone.
  pose proof (lookup_lt_Some _ _ _ Ho) as Hlt.
  destruct (decide (length values = 0)) as [Hz|Hnz].
  - apply nil_length_inv in Hz. subst values.
    destruct (q_objects ordering (reverse cur) []) as [q_eq q_cmp]. simpl in *.
    rewrite (index0_lookup _ _ Ho), bind_Ok. unfold getitem. by rewrite Hnone.
  - assert (Hm : 0 < length values) by lia.
    destruct (lookup_lt_is_Some_2 ordering 0 ltac:(lia)) as [o0 Ho0].
    destruct (lookup_lt_is_Some_2 values 0 Hm) as [v Hv].
    pose proof (q_objects_lookup (reverse cur) ordering values 0 o0 v Hnd Ho0 Hv)
      as [_ Hfirst].
    pose proof (λ i, sub_filter_Ok (reverse cur) ordering values i Hnd) as Hsub.
    assert (Hmiss : sub_filter ordering (q_objects ordering (reverse cur) values).1
                      (q_objects ordering (reverse cur) values).2
                      (length values - 1) = Raise (KeyError o)).
    { unfold sub_filter, index_last.
      rewrite last_take_lookup by lia.
      replace (pred (Nat.min (length values - 1 + 2) (length ordering)))
        with (length values) by lia.
      rewrite Ho, bind_Ok. unfold getitem. by rewrite Hnone. }
    destruct (q_objects ordering (reverse cur) values) as [q_eq q_cmp].
    simpl in Hfirst, Hsub, Hmiss.
    rewrite (index0_lookup _ _ Ho0), bind_Ok, (getitem_Some _ _ _ Hfirst), bind_Ok.
    rewrite (seq_split_at (length ordering) (length values - 1)) by lia.
    rewrite (mapM_raise _ _ _ _ (KeyError o)); [done| |done].
    intros i Hi. apply elem_of_seq in Hi. apply Hsub; lia.
Qed.

End queryset_more.

Lemma order_and_filter_shape_witness :
  let prepared :=
    set_cursor
      (set_ordering
         (set_base_url (Example.paginator (OStr "id") 2)
            {[ "cursor" := "cj0xJnA9JTVCJTIyMyUyMiU1RA==" ]})
         (OTuple ["id"]))
      (Some (mkCursor 0 true (Some (Example.dumps ["3"])))) in
  let filtered :=
    filter_qs (order_by Example.all_rows ["-id"])
      (FilterQ (QOr (Lookup "id__lt" (JStr "3")) (Lookup "id__lt" (JStr "3")))) in
  order_and_filter (Example.paginator (OStr "id") 2) Example.all_rows
    (Example.request (Some "cj0xJnA9JTVCJTIyMyUyMiU1RA==")) None
  = Ok (prepared, filtered)
  ∧ ∃ resolved,
      get_ordering (Example.paginator (OStr "id") 2)
        (Example.request (Some "cj0xJnA9JTVCJTIyMyUyMiU1RA==")) Example.all_rows None
      = Ok resolved
      ∧ decode_cursor (Example.paginator (OStr "id") 2)
          (Example.request (Some "cj0xJnA9JTVCJTIyMyUyMiU1RA=="))
        = Ok (cursor prepared)
      ∧ ordering prepared = OTuple resolved
      ∧ qs_rows filtered = qs_rows Example.all_rows
      ∧ qs_order filtered = _reverse_ordering resolved
      ∧ ∃ w, qs_where filtered = qs_where Example.all_rows ++ [w].
Proof.
  intros prepared filtered.
  assert (Hrun : order_and_filter (Example.paginator (OStr "id") 2) Example.all_rows
                   (Example.request (Some "cj0xJnA9JTVCJTIyMyUyMiU1RA==")) None
                 = Ok (prepared, filtered)) by reflexivity.
  split; [exact Hrun|].
  exact (order_and_filter_shape _ _ _ _ _ _ Hrun).
Defined.

Lemma disjunctive_q_object_missing_value_witness :
  let self :=
    set_cursor (Example.paginator (OTuple ["-field"; "timestamp"; "id"]) 2)
      (Some (mkCursor 0 false None)) in
  disjunctive_q_object self (JList [JStr "20"; JStr "9"]) = Raise (KeyError "id").
Proof.
  apply (disjunctive_q_object_missing_value
           (set_cursor (Example.paginator (OTuple ["-field"; "timestamp"; "id"]) 2)
              (Some (mkCursor 0 false None)))
           (mkCursor 0 false None) [JStr "20"; JStr "9"] "id").
  - reflexivity.
  - apply (bool_decide_unpack _). vm_compute. exact I.
  - reflexivity.
Defined.
(** ** The rows of a page lie beyond the position *)

Section beyond_position.
Context `{Store} `{JsonLib}.
Local Open Scope nat_scope.

Lemma tuple_comparison_Ok_inv self cur queryset values by_tuple :
  cursor self = Some cur →
  tuple_comparison self queryset (JList values) = Ok by_tuple →
  by_tuple
  = filter_qs (alias_cursor_tuple queryset (Str.lstrip_dash <$> ordering_tuple self))
      (FilterTuple
         ((_all_ascending self && negb (reverse cur))
          || (_all_descending self && negb (negb (reverse cur))))
         ((λ vf : json * string, Cast vf.1 vf.2)
            <$> zip values (Str.lstrip_dash <$> ordering_tuple self))).
Proof.
  intros Hcur. unfold tuple_comparison, cursor_reverse. rewrite Hcur.
  simpl json_iter. rewrite bind_Ok.
  destruct (mapM _ _) as [cleaned_values|] eqn:Hclean; [|done].
  rewrite !bind_Ok. intros [= <-]. do 3 f_equal.
  apply mapM_Ok_inv in Hclean.
  apply list_eq_Forall2, Forall2_fmap_r.
  eapply Forall2_flip, Forall2_impl; [exact Hclean|].
  intros [v f] c Hc. simpl in *. by destruct (has_field f); simplify_eq.
Qed.

(** The condition the filter by the position adds is the lexicographic
    expansion, in either branch. *)
Lemma filter_by_position_eval self cur queryset current_position values filtered :
  cursor self = Some cur →
  json_loads current_position = Ok (JList values) →
  NoDup (ordering_tuple self) →
  ordering_tuple self ≠ [] →
  length values = length (ordering_tuple self) →
  filter_by_position self queryset current_position = Ok filtered →
  ∃ w, qs_where filtered = qs_where queryset ++ [w]
       ∧ ∀ r, eval_where r w
              = lex_expansion r (reverse cur) (ordering_tuple self) values.
Proof.
  intros Hcur Hjson Hnd Hne Hlen. unfold filter_by_position.
  rewrite Hjson, bind_Ok.
  destruct (should_use_tuple_comparison self) eqn:Huse.
  - intros Hrun. rewrite (tuple_comparison_Ok_inv _ _ _ _ _ Hcur Hrun).
    unfold filter_qs, alias_cursor_tuple. cbn [qs_where qs_cursor_tuple].
    eexists. split; [reflexivity|]. intros r. simpl.
    rewrite row_value_compare_pairs by done. symmetry.
    apply lex_expansion_pairs; [done|]. apply uniform_direction; [done|].
    unfold should_use_tuple_comparison in Huse.
    destruct (use_tuple_comparison self); [|done].
    by destruct (_uniform_ordering self).
  - destruct (disjunctive_q_object_eval self cur values Hcur Hnd Hne Hlen)
      as (q & -> & Heval).
    rewrite bind_Ok. intros [= <-]. eexists. split; [reflexivity|]. exact Heval.
Qed.

Lemma slice_qs_elem queryset start stop results r :
  (∀ ordering rows r, r ∈ order_rows ordering rows → r ∈ rows) →
  slice_qs queryset start stop = Ok results →
  r ∈ results →
  r ∈ qs_rows queryset ∧ forallb (eval_where r) (qs_where queryset) = true.
Proof.
  intros Hsub. unfold slice_qs. repeat case_match; try done.
  intros [= <-] Hr.
  apply (subseteq_take _ _ r), (subseteq_drop _ _ r) in Hr.
  unfold scan in Hr. apply Hsub in Hr.
  apply list_elem_of_In, filter_In in Hr as [Hr Hw].
  split; [by apply list_elem_of_In|done].
Qed.

Lemma slice_to_elem {A} (n : Z) (l : list A) (a : A) : a ∈ slice_to n l → a ∈ l.
Proof.
  unfold slice_to. destruct (n <? 0)%Z; apply subseteq_take.
Qed.

(** X16.  On a store whose [ORDER BY] returns rows it was given, every
    row of the page of a cursor with a position is a row of the
    caller's queryset, passes the caller's conditions, and lies beyond
    the position: it satisfies the lexicographic expansion for the
    resolved ordering, the values of the position and the direction of
    the cursor; this holds in the disjunctive and in the
    tuple-comparison branch. *)
Theorem page_rows_beyond_position
    self queryset request view self' returned cur current_position values :
  (∀ ordering rows r, r ∈ order_rows ordering rows → r ∈ rows) →
  paginate_queryset self queryset request view = Ok (self', Some returned) →
  cursor self' = Some cur →
  position cur = Some current_position →
  json_loads current_position = Ok (JList values) →
  NoDup (ordering_tuple self') →
  length values = length (ordering_tuple self') →
  ∀ r, r ∈ returned →
       r ∈ qs_rows queryset
       ∧ forallb (eval_where r) (qs_where queryset) = true
       ∧ lex_expansion r (reverse cur) (ordering_tuple self') values = true.
Proof.
  intros Hsub Hrun Hcur Hpos Hjson Hnd Hlen r Hr.
  destruct (paginate_queryset_Ok_inv _ _ _ _ _ _ Hrun)
    as (s & prepared & filtered & _ & _ & Hprep & Hfetch).
  destruct (order_and_filter_Ok_inv _ _ _ _ _ _ Hprep)
    as (resolved & Hord & _ & Hself & Hq).
  destruct (fetch_page_Ok_inv _ _ _ _ Hfetch)
    as (Hret & Hcur' & Hordering & _ & _ & _ & results & Hslice & Hpage).
  rewrite Hcur' in Hcur.
  assert (Htuple : ordering_tuple self' = ordering_tuple prepared)
    by (unfold ordering_tuple; by rewrite Hordering).
  rewrite Htuple in *.
  assert (Hne : ordering_tuple prepared ≠ []).
  { rewrite Hself. cbn. destruct (get_ordering_key _ _ _ _ _ Hord) as (x & Hx & _).
    intros Heq. rewrite Heq in Hx. by apply elem_of_nil in Hx. }
  rewrite Hcur in Hq. cbn [cursor_fields] in Hq. rewrite Hpos in Hq. simpl in Hq.
  destruct (filter_by_position_eval _ _ _ _ _ _ Hcur Hjson Hnd Hne Hlen Hq)
    as (w & Hwhere & Heval).
  destruct (filter_by_position_shape _ _ _ _ Hq) as (Hrows & _ & _).
  injection Hret as ->.
  assert (Hres : r ∈ results).
  { rewrite Hpage in Hr. destruct ((cursor_fields (cursor prepared)).1.2).
    - apply list_elem_of_In in Hr. rewrite <- in_rev in Hr.
      apply list_elem_of_In in Hr. by eapply slice_to_elem.
    - by eapply slice_to_elem. }
  destruct (slice_qs_elem _ _ _ _ _ Hsub Hslice Hres) as [Hin Hall].
  rewrite Hrows in Hin. simpl in Hin.
  rewrite Hwhere, forallb_app in Hall. simpl in Hall.
  apply andb_true_iff in Hall as [Hcaller Hw].
  rewrite andb_true_r, Heval in Hw. done.
Qed.

End beyond_position.

Lemma insert_row_elem ordering x l r :
  r ∈ Example.insert_row ordering x l → r = x ∨ r ∈ l.
Proof.
  induction l as [|y l IH]; simpl.
  - intros Hr. left. by apply list_elem_of_singleton in Hr.
  - destruct (Example.row_leb ordering x y).
    + intros Hr. apply elem_of_cons in Hr as [->|Hr]; [by left|by right].
    + intros Hr. apply elem_of_cons in Hr as [->|Hr]; [right; by left|].
      destruct (IH Hr) as [->|Hl]; [by left|right; by right].
Qed.

(** The [ORDER BY] of the example store returns rows it was given. *)
Lemma sort_rows_elem (ordering : list string) (rows : list (@row Example.store))
    (r : @row Example.store) :
  r ∈ @order_rows Example.store ordering rows → r ∈ rows.
Proof.
  simpl. unfold Example.sort_rows. induction rows as [|x l IH]; simpl; [done|].
  intros Hr. apply insert_row_elem in Hr as [->|Hr]; [by left|].
  right. by apply IH.
Qed.

Lemma page_rows_beyond_position_witness :
  paginate_queryset (Example.paginator (OStr "id") 2) Example.all_rows
    (Example.request (Some "cD0lNUIlMjIyJTIyJTVE")) None
  = Ok (mkPaginator (OTuple ["id"]) (Some 2) (Some 1000) false "cursor"
          "Invalid cursor" None false {[ "cursor" := "cD0lNUIlMjIyJTIyJTVE" ]}
          (Some (mkCursor 0 false (Some (Example.dumps ["2"]))))
          [Example.mkRow 3 30 7; Example.mkRow 4 20 6]
          (Some true) (Some true) (Some (Some (Example.dumps ["5"])))
          (Some (Some (Example.dumps ["2"]))),
        Some [Example.mkRow 3 30 7; Example.mkRow 4 20 6])
  ∧ ∀ r, r ∈ [Example.mkRow 3 30 7; Example.mkRow 4 20 6] →
         r ∈ Example.fixture
         ∧ lex_expansion r false ["id"] [JStr "2"] = true.
Proof.
  assert (Hrun : paginate_queryset (Example.paginator (OStr "id") 2) Example.all_rows
                   (Example.request (Some "cD0lNUIlMjIyJTIyJTVE")) None
                 = Ok (mkPaginator (OTuple ["id"]) (Some 2) (Some 1000) false "cursor"
                         "Invalid cursor" None false
                         {[ "cursor" := "cD0lNUIlMjIyJTIyJTVE" ]}
                         (Some (mkCursor 0 false (Some (Example.dumps ["2"]))))
                         [Example.mkRow 3 30 7; Example.mkRow 4 20 6]
                         (Some true) (Some true) (Some (Some (Example.dumps ["5"])))
                         (Some (Some (Example.dumps ["2"]))),
                       Some [Example.mkRow 3 30 7; Example.mkRow 4 20 6]))
    by reflexivity.
  split; [exact Hrun|]. intros r Hr.
  destruct (page_rows_beyond_position _ _ _ _ _ _
              (mkCursor 0 false (Some (Example.dumps ["2"])))
              (Example.dumps ["2"]) [JStr "2"]
              sort_rows_elem Hrun eq_refl eq_refl eq_refl
              ltac:(apply (bool_decide_unpack _); reflexivity) eq_refl r Hr)
    as (Hin & _ & Hlex).
  split; [exact Hin|exact Hlex].
Defined.
(** ** The first page *)

Section first_page.
Context `{Store} `{JsonLib}.

(** X17.  A request without the cursor parameter gets the first page:
    when the page size s is positive, the ordering resolves and the rows
    have the ordering fields, [paginate_queryset] returns the first s
    rows of the caller's queryset in the resolved ordering, sets no
    cursor, reports no previous page, and reports a next page exactly
    when the queryset has more than s rows. *)
Theorem paginate_queryset_first_page self queryset request view s resolved :
  page_size self = Some s →
  0 < s →
  get_ordering self request queryset view = Ok resolved →
  query_params request !! cursor_query_param self = None →
  forallb where_well_formed (qs_where queryset) = true →
  (∀ r, r ∈ scan (order_by queryset resolved) → is_Some (row_position resolved r)) →
  ∃ self',
    paginate_queryset self queryset request view = Ok (self', Some (page self'))
    ∧ cursor self' = None
    ∧ page self' = take (Z.to_nat s) (scan (order_by queryset resolved))
    ∧ has_previous self' = Some false
    ∧ has_next self'
      = Some (bool_decide
                (Z.to_nat s < length (scan (order_by queryset resolved)))%nat).
Proof.
  intros Hps Hs Hord Hq Hwf Hattrs.
  set (prepared :=
         set_cursor (set_ordering (set_base_url self (build_absolute_uri request))
                       (OTuple resolved)) None).
  assert (Hprep : order_and_filter self queryset request view
                  = Ok (prepared, order_by queryset resolved)).
  { unfold order_and_filter.
    change (get_ordering (set_base_url self (build_absolute_uri request))
              request queryset view)
      with (get_ordering self request queryset view).
    rewrite Hord, bind_Ok.
    change (decode_cursor (set_ordering (set_base_url self (build_absolute_uri request))
                             (OTuple resolved)) request)
      with (decode_cursor self request).
    unfold decode_cursor. rewrite Hq. reflexivity. }
  destruct (fetch_page_window prepared (order_by queryset resolved) s)
    as (self' & Hfetch & _ & Hpage & _ & Hnext & _); try done.
  exists self'.
  destruct (fetch_page_Ok_inv _ _ _ _ Hfetch) as (_ & Hcur & _ & Hprev & _).
  unfold paginate_queryset, get_page_size. rewrite set_page_size_same, Hps.
  rewrite (proj2 (Z.eqb_neq s 0)) by lia. rewrite Hprep, bind_Ok.
  split; [exact Hfetch|]. split; [exact Hcur|].
  cbn in Hpage, Hnext, Hprev. rewrite drop_0 in Hpage, Hnext.
  split; [|split; [exact Hprev|]].
  - rewrite Hpage, take_take. f_equal. lia.
  - rewrite Hnext. f_equal. apply bool_decide_ext. rewrite length_take. lia.
Qed.

End first_page.

Lemma paginate_queryset_first_page_witness :
  ∃ self',
    paginate_queryset (Example.paginator (OStr "id") 2) Example.all_rows
      (Example.request None) None = Ok (self', Some (page self'))
    ∧ cursor self' = None
    ∧ page self' = [Example.mkRow 1 10 9; Example.mkRow 2 20 9]
    ∧ has_previous self' = Some false
    ∧ has_next self' = Some true.
Proof.
  apply (paginate_queryset_first_page (Example.paginator (OStr "id") 2)
           Example.all_rows (Example.request None) None 2 ["id"]).
  - reflexivity.
  - lia.
  - reflexivity.
  - reflexivity.
  - reflexivity.
  - intros r _. by eexists.
Defined.
(** ** Fields the model does not have *)

Section unknown_field.
Context `{Store} `{JsonLib}.
Local Open Scope nat_scope.

(** X18.  The tuple-comparison branch looks every ordering field that
    has a value up in the model, which the disjunctive branch does not:
    it raises [FieldDoesNotExist] for the first such field that
    [get_field] does not find, as for the alias [pk]. *)
Theorem tuple_comparison_unknown_field self queryset values i o :
  ordering_tuple self !! i = Some o →
  i < length values →
  has_field (Str.lstrip_dash o) = false →
  (∀ j o', j < i → ordering_tuple self !! j = Some o' →
           has_field (Str.lstrip_dash o') = true) →
  tuple_comparison self queryset (JList values)
  = Raise (FieldDoesNotExist (Str.lstrip_dash o)).
Proof.
  intros Ho Hi Hmissing Hbefore. unfold tuple_comparison.
  simpl json_iter. rewrite bind_Ok.
  destruct (lookup_lt_is_Some_2 values i Hi) as [v Hv].
  assert (Hzip : zip values (Str.lstrip_dash <$> ordering_tuple self) !! i
                 = Some (v, Str.lstrip_dash o)).
  { apply lookup_zip_Some. split; [done|]. by rewrite list_lookup_fmap, Ho. }
  rewrite <- (take_drop_middle _ _ _ Hzip).
  rewrite (mapM_raise _ _ _ _ (FieldDoesNotExist (Str.lstrip_dash o))); [done| |].
  - intros [v' f'] Hin. apply list_elem_of_lookup in Hin as [j Hj].
    apply lookup_take_Some in Hj as [Hj Hlt].
    apply lookup_zip_Some in Hj as [_ Hf]. simpl in Hf.
    rewrite list_lookup_fmap in Hf.
    destruct (ordering_tuple self !! j) as [o'|] eqn:Ho'; [|done].
    injection Hf as <-. rewrite (Hbefore j o' Hlt Ho'). by eexists.
  - simpl. by rewrite Hmissing.
Qed.

End unknown_field.

Lemma tuple_comparison_unknown_field_witness :
  let self :=
    mkPaginator (OTuple ["field"; "pk"]) (Some 2) (Some 1000) true "cursor"
      "Invalid cursor" None false ∅ (Some (mkCursor 0 false None)) [] None None
      None None in
  should_use_tuple_comparison self = true
  ∧ tuple_comparison self Example.all_rows (JList [JStr "20"; JStr "4"])
    = Raise (FieldDoesNotExist "pk").
Proof.
  split; [reflexivity|].
  apply (tuple_comparison_unknown_field
           (mkPaginator (OTuple ["field"; "pk"]) (Some 2) (Some 1000) true "cursor"
              "Invalid cursor" None false ∅ (Some (mkCursor 0 false None)) [] None None
              None None)
           Example.all_rows [JStr "20"; JStr "4"] 1%nat "pk").
  - reflexivity.
  - simpl. lia.
  - reflexivity.
  - intros j o' Hj Ho'. assert (j = 0%nat) as -> by lia.
    injection Ho' as <-. reflexivity.
Defined.
